(** * videoCache: a shallow embedding of [src/videoCache.js]

    The module stores VAST documents of video bids on a remote cache
    (batched, debounced) or in a process-wide local map, and correlates
    the cache server's answers back to the bids.

    Conventions of the embedding
    - A JavaScript string is the Rocq string of its UTF-8 bytes.
      Concatenation, comparison and the search for a substring are then
      those of the byte strings; the number of code units ([js_length])
      and the code units themselves ([latin1], for [btoa]) are read off
      the bytes.
    - A JavaScript number is a binary64 floating-point number, a
      [spec_float] of the Standard Library with precision 53 and
      exponent bound 1024; [Num z] is the number of the integer [z].
      The length of an array or of a string is a count and stays a
      natural number.
    - [undefined] is [None] of an [option]; values that come out of
      [JSON.parse] are of type [json].
    - Bid objects are shared mutable objects: they live in a heap and the
      batch entries hold references to them.
    - Calls to collaborators ([logError], [logWarn], [addBidToAuction],
      the completion callback, [ajax], [setTimeout]) are recorded in a
      trace, in program order.
    - [JSON.parse] and the conversion of a string to a number are
      parameters of the definitions that call them. *)

From Stdlib Require Import ZArith QArith Qround Ascii String DecimalString Lia SpecFloat.
From stdpp Require Import base option list gmap strings functions.

Local Open Scope Z_scope.
Set Warnings "-register-all".
#[local] Arguments String.append !s1 s2 : simpl nomatch.

(** ** JavaScript values *)

Module JS.

Definition dq : string := String (ascii_of_nat 34) EmptyString.
Definition nl : string := String (ascii_of_nat 10) EmptyString.

Definition Z_to_string (n : Z) : string :=
  NilEmpty.string_of_int (Z.to_int n).

Definition nat_to_string (n : nat) : string := Z_to_string (Z.of_nat n).

(** *** Numbers *)

(** The numbers are the [spec_float]s in canonical form, as [dyadic],
    [Number_add] and [decimal] return them. *)
Definition number : Type := spec_float.

(** The number nearest to [m * 2 ^ e]. *)
Definition dyadic (m e : Z) : number := binary_normalize 53 1024 m e false.

(** The number nearest to the integer [z]; it is [z] itself up to
    [2 ^ 53]. *)
Definition Num (z : Z) : number := dyadic z 0.

(** [x + y] *)
Definition Number_add (x y : number) : number := SFadd 53 1024 x y.

(** [x > 0] *)
Definition gt0 (x : number) : bool := SFltb (S754_zero false) x.

(** The value of a finite number, as a fraction. *)
Definition finite_value (x : number) : option Q :=
  match x with
  | S754_zero _ => Some (inject_Z 0)
  | S754_finite s m e =>
      Some (if 0 <=? e then inject_Z (cond_Zopp s (Zpos m) * 2 ^ e)
            else Qmake (cond_Zopp s (Zpos m)) (2 ^ Z.to_pos (- e)))
  | S754_infinity _ | S754_nan => None
  end.

(** The value of a number that is whole. *)
Definition integer_value (x : number) : option Z :=
  match x with
  | S754_zero _ => Some 0
  | S754_finite s m e =>
      if 0 <=? e then Some (cond_Zopp s (Zpos m) * 2 ^ e)
      else if Zpos m mod 2 ^ (- e) =? 0
           then Some (cond_Zopp s (Zpos m / 2 ^ (- e)))
           else None
  | S754_infinity _ | S754_nan => None
  end.

(** A count against a number: the comparison of the two values, none
    with [NaN]. *)
Definition compare_count (n : nat) (x : number) : option comparison :=
  match x with
  | S754_nan => None
  | S754_infinity s => Some (if s then Gt else Lt)
  | _ =>
      match finite_value x with
      | Some q => Some (inject_Z (Z.of_nat n) ?= q)%Q
      | None => None
      end
  end.

(** *** Number::toString

    The digits are those of the shortest decimal [s * 10 ^ (n - k)],
    [s] of [k] digits, that denotes the number, the one nearest to it
    when several of that length do. *)

(** The number nearest to [p / q]. *)
Definition round_ratio (p q : positive) : number :=
  let '(mz, ez, lz) := SFdiv_core_binary 53 1024 (Zpos p) 0 (Zpos q) 0 in
  binary_round_aux 53 1024 false mz ez lz.

(** The number nearest to [s * 10 ^ q]. *)
Definition decimal (s : positive) (q : Z) : number :=
  if 0 <=? q then dyadic (Zpos s * 10 ^ q) 0
  else round_ratio s (Z.to_pos (10 ^ (- q))).

Definition same_number (x y : number) : bool :=
  match x, y with
  | S754_finite false m e, S754_finite false m' e' => Pos.eqb m m' && Z.eqb e e'
  | _, _ => false
  end.

Section Digits.

(** The number [x], above zero, and its value [num / den]. *)
Variables num den : Z.
Variable x : number.

(** [num / den < 10 ^ n] *)
Definition below_pow10 (n : Z) : bool :=
  if 0 <=? n then num <? den * 10 ^ n else num * 10 ^ (- n) <? den.

(** The [n] with [10 ^ (n - 1) <= num / den < 10 ^ n], searched from a
    first guess. *)
Fixpoint decade (fuel : nat) (n : Z) : Z :=
  match fuel with
  | O => n
  | S fuel' =>
      if below_pow10 (n - 1) then decade fuel' (n - 1)
      else if below_pow10 n then n
      else decade fuel' (n + 1)
  end.

(** With [k] digits: of the two multiples of [10 ^ (n - k)] around
    [num / den], the one that denotes [x], the nearer one when both do
    (the even one when they are as near). *)
Definition candidate (n : Z) (k : Z) : option (positive * Z) :=
  let q := n - k in
  let a := if 0 <=? q then num else num * 10 ^ (- q) in
  let b := if 0 <=? q then den * 10 ^ q else den in
  let f := a / b in
  let c := f + 1 in
  let okf := same_number (decimal (Z.to_pos f) q) x in
  let okc := same_number (decimal (Z.to_pos c) q) x in
  let up := if c =? 10 ^ k then (1%positive, n + 1) else (Z.to_pos c, n) in
  let down := (Z.to_pos f, n) in
  if okf && okc then
    match 2 * a ?= (2 * f + 1) * b with
    | Lt => Some down
    | Gt => Some up
    | Eq => if Z.even f then Some down else Some up
    end
  else if okf then Some down
  else if okc then Some up
  else None.

(** The first number of digits, from [k] on, that has a candidate. *)
Fixpoint shortest (fuel : nat) (n : Z) (k : Z) : positive * Z :=
  match fuel with
  | O => (1%positive, n)
  | S fuel' =>
      match candidate n k with
      | Some r => r
      | None => shortest fuel' n (k + 1)
      end
  end.

End Digits.

(** The digits [s] and the exponent [n] of a finite number other than
    zero; 17 digits always suffice. *)
Definition digits_of (x : number) : positive * Z :=
  match x with
  | S754_finite _ m e =>
      let num := if 0 <=? e then Zpos m * 2 ^ e else Zpos m in
      let den := if 0 <=? e then 1 else 2 ^ (- e) in
      let guess := (Zpos (digits2_pos m) + e) * 30103 / 100000 in
      shortest num den (S754_finite false m e) 17 (decade num den 700 guess) 1
  | _ => (1%positive, 0)
  end.

Fixpoint zeros (n : nat) : string :=
  match n with
  | O => ""
  | S n' => String "0"%char (zeros n')
  end.

Definition substring_from (n : nat) (s : string) : string :=
  String.substring n (String.length s - n) s.

(** The text of [s * 10 ^ (n - k)]: plain digits up to [10 ^ 21], a
    decimal point down to [10 ^ -7], the exponent form otherwise. *)
Definition format_digits (s : positive) (n : Z) : string :=
  let ds := Z_to_string (Zpos s) in
  let k := Z.of_nat (String.length ds) in
  if (k <=? n) && (n <=? 21) then ds +:+ zeros (Z.to_nat (n - k))
  else if (0 <? n) && (n <=? 21) then
    String.substring 0 (Z.to_nat n) ds +:+ "." +:+ substring_from (Z.to_nat n) ds
  else if (-6 <? n) && (n <=? 0) then
    "0." +:+ zeros (Z.to_nat (- n)) +:+ ds
  else
    let e := n - 1 in
    let es := (if e <? 0 then "-" else "+") +:+ Z_to_string (Z.abs e) in
    if k =? 1 then ds +:+ "e" +:+ es
    else String.substring 0 1 ds +:+ "." +:+ substring_from 1 ds +:+ "e" +:+ es.

Definition Number_toString (x : number) : string :=
  match x with
  | S754_nan => "NaN"
  | S754_zero _ => "0"
  | S754_infinity false => "Infinity"
  | S754_infinity true => "-Infinity"
  | S754_finite sign _ _ =>
      let '(s, n) := digits_of x in
      (if sign then "-" else "") +:+ format_digits s n
  end.

(** *** Strings *)

(** The number of UTF-16 code units of a string: one for each character
    of up to three bytes, two for a character of four bytes. *)
Fixpoint js_length (s : string) : nat :=
  match s with
  | EmptyString => 0
  | String a rest =>
      let x := N_of_ascii a in
      ((if (x <? 128)%N then 1 else if (x <? 192)%N then 0
        else if (x <? 240)%N then 1 else 2) + js_length rest)%nat
  end.

(** The code units of a string, one byte each, when none is above
    [U+00FF]: the bytes below 128 stand for themselves, a byte 194 or
    195 starts the two bytes of a code unit from [U+0080] to [U+00FF],
    every other byte belongs to a code unit above [U+00FF]. *)
Fixpoint latin1 (s : string) : option string :=
  match s with
  | EmptyString => Some EmptyString
  | String a rest =>
      let x := N_of_ascii a in
      if (x <? 128)%N then String a <$> latin1 rest
      else if ((x =? 194) || (x =? 195))%N then
        match rest with
        | String b rest' =>
            let y := N_of_ascii b in
            if ((128 <=? y) && (y <? 192))%N
            then String (ascii_of_N ((x - 192) * 64 + (y - 128))) <$> latin1 rest'
            else None
        | EmptyString => None
        end
      else None
  end.

(** *** Values *)

(** Values that [JSON.parse] can return. *)
Inductive json : Type :=
| JNull
| JBool (b : bool)
| JNum (x : number)
| JStr (s : string)
| JArr (xs : list json)
| JObj (fields : list (string * json)).

(** A JavaScript value as far as the module sees one: [None] is
    [undefined]. *)
Definition jsval : Type := option json.

Fixpoint assoc (name : string) (fields : list (string * json)) : jsval :=
  match fields with
  | [] => None
  | (k, v) :: rest => if String.eqb k name then Some v else assoc name rest
  end.

(** [ToString], the conversion a template literal applies to its holes.
    An array is the texts of its elements joined by commas, [null]
    giving the empty text.  A plain object is [[object Object]]; when it
    has a property [toString] of its own, which is never a function in
    a value that [JSON.parse] returned, no conversion is left and a
    TypeError is raised: [None]. *)
Fixpoint ToString_json (v : json) : option string :=
  match v with
  | JNull => Some "null"
  | JBool true => Some "true"
  | JBool false => Some "false"
  | JNum x => Some (Number_toString x)
  | JStr s => Some s
  | JArr xs =>
      (fix join (l : list json) : option string :=
         match l with
         | [] => Some ""
         | x :: l' =>
             match match x with JNull => Some "" | _ => ToString_json x end with
             | None => None
             | Some sx =>
                 match l' with
                 | [] => Some sx
                 | _ :: _ =>
                     match join l' with
                     | None => None
                     | Some rest => Some (sx +:+ "," +:+ rest)
                     end
                 end
             end
         end) xs
  | JObj fields =>
      match assoc "toString" fields with
      | Some _ => None
      | None => Some "[object Object]"
      end
  end.

Definition ToString (v : jsval) : option string :=
  match v with
  | None => Some "undefined"
  | Some j => ToString_json j
  end.

(** [ToString] of a value that is a string or [undefined] / [null]. *)
Definition ToString_str (undef : string) (v : option string) : string :=
  match v with
  | None => undef
  | Some s => s
  end.

(** [ToBoolean]. *)
Definition truthy (v : jsval) : bool :=
  match v with
  | None => false
  | Some JNull => false
  | Some (JBool b) => b
  | Some (JNum (S754_zero _)) => false
  | Some (JNum S754_nan) => false
  | Some (JNum _) => true
  | Some (JStr s) => negb (String.eqb s "")
  | Some (JArr _) => true
  | Some (JObj _) => true
  end.

Definition truthy_str (v : option string) : bool :=
  match v with
  | None => false
  | Some s => negb (String.eqb s "")
  end.

(** A primitive value other than [undefined]. *)
Inductive primitive : Type :=
| PNull
| PBool (b : bool)
| PNum (x : number)
| PStr (s : string).

Section ToNumber.

(** The conversion of a string to a number. *)
Variable StringToNumber : string -> number.

(** [Number(v)] for a primitive value or [undefined]. *)
Definition ToNumber (v : option primitive) : number :=
  match v with
  | None => S754_nan
  | Some PNull => S754_zero false
  | Some (PBool b) => if b then Num 1 else S754_zero false
  | Some (PNum x) => x
  | Some (PStr s) => StringToNumber s
  end.

End ToNumber.

(** Property read [v.name].  The outer [None] is the TypeError raised
    when [v] is [null]. *)
Definition get_prop (v : json) (name : string) : option jsval :=
  match v with
  | JNull => None
  | JObj fields => Some (assoc name fields)
  | JArr xs =>
      Some (if String.eqb name "length"
            then Some (JNum (Num (Z.of_nat (List.length xs)))) else None)
  | JStr s =>
      Some (if String.eqb name "length"
            then Some (JNum (Num (Z.of_nat (js_length s)))) else None)
  | JNum _ | JBool _ => Some None
  end.

(** The value of [v.length]: the count of an array or of a string, or
    what another value holds under that name. *)
Inductive Length : Type :=
| Count (n : nat)
| Held (v : jsval).

(** [v.length]; [None] is the TypeError raised when [v] is [null]. *)
Definition get_length (v : json) : option Length :=
  match v with
  | JNull => None
  | JArr xs => Some (Count (List.length xs))
  | JStr s => Some (Count (js_length s))
  | JObj fields => Some (Held (assoc "length" fields))
  | JNum _ | JBool _ => Some (Held None)
  end.

Definition ToString_length (len : Length) : option string :=
  match len with
  | Count n => Some (nat_to_string n)
  | Held v => ToString v
  end.

(** [v === ''] *)
Definition is_empty_string (v : jsval) : bool :=
  match v with
  | Some (JStr s) => String.eqb s ""
  | _ => false
  end.

(** [n !== len] for a count [n]. *)
Definition count_strict_neq (n : nat) (len : Length) : bool :=
  match len with
  | Count m => negb (n =? m)%nat
  | Held (Some (JNum x)) =>
      match compare_count n x with
      | Some Eq => false
      | _ => true
      end
  | Held _ => true
  end.

(** [typeof v === 'number' && v > 0] *)
Definition positive_number (v : jsval) : option number :=
  match v with
  | Some (JNum x) => if gt0 x then Some x else None
  | _ => None
  end.

End JS.
Import JS.

(** ** VastWrapperBuilder *)

(** The [impTrackerURLs] argument: absent, one string, or an array. *)
Inductive ImpTrackers : Type :=
| NoTrackers
| OneTracker (url : string)
| TrackerList (urls : list string).

(** [impTrackerURLs && (Array.isArray(impTrackerURLs) ? impTrackerURLs
    : [impTrackerURLs])]; [None] when the value is falsy. *)
Definition normalizeTrackers (t : ImpTrackers) : option (list string) :=
  match t with
  | NoTrackers => None
  | OneTracker url => if String.eqb url "" then None else Some [url]
  | TrackerList urls => Some urls
  end.

Definition impressionElement (trk : string) : string :=
  "<Impression><![CDATA[" +:+ trk +:+ "]]></Impression>".

Fixpoint join_empty (l : list string) : string :=
  match l with
  | [] => ""
  | s :: l' => s +:+ join_empty l'
  end.

Definition impressions (t : ImpTrackers) : string :=
  match normalizeTrackers t with
  | Some urls => join_empty (impressionElement <$> urls)
  | None => ""
  end.

(** The three literal chunks of the template of [wrapURI]. *)
Definition wrapper_head : string :=
  "<VAST version=" +:+ dq +:+ "3.0" +:+ dq +:+ ">" +:+ nl +:+
  "    <Ad>" +:+ nl +:+
  "      <Wrapper>" +:+ nl +:+
  "        <AdSystem>prebid.org wrapper</AdSystem>" +:+ nl +:+
  "        <VASTAdTagURI><![CDATA[".

Definition wrapper_mid : string :=
  "]]></VASTAdTagURI>" +:+ nl +:+
  "        ".

Definition wrapper_tail : string :=
  nl +:+
  "        <Creatives></Creatives>" +:+ nl +:+
  "      </Wrapper>" +:+ nl +:+
  "    </Ad>" +:+ nl +:+
  "  </VAST>".

Definition wrapURI (uri : option string) (impTrackerURLs : ImpTrackers) : string :=
  wrapper_head +:+ ToString_str "undefined" uri +:+ wrapper_mid +:+
  impressions impTrackerURLs +:+ wrapper_tail.

(** ** [btoa] *)

(** Base64 of a string of bytes. *)

Module Base64.

Definition alphabet : string :=
  "ABCDEFGHIJKLMNOPQRSTUVWXYZabcdefghijklmnopqrstuvwxyz0123456789+/".

Definition digit (n : N) : ascii :=
  match String.get (N.to_nat n) alphabet with
  | Some c => c
  | None => "="%char
  end.

Definition pad : ascii := "="%char.

Fixpoint btoa (s : string) : string :=
  match s with
  | EmptyString => EmptyString
  | String a EmptyString =>
      let x := N_of_ascii a in
      String (digit (x / 4)) (String (digit ((x mod 4) * 16))
        (String pad (String pad EmptyString)))
  | String a (String b EmptyString) =>
      let x := N_of_ascii a in
      let y := N_of_ascii b in
      String (digit (x / 4)) (String (digit ((x mod 4) * 16 + y / 16))
        (String (digit ((y mod 16) * 4)) (String pad EmptyString)))
  | String a (String b (String c rest)) =>
      let x := N_of_ascii a in
      let y := N_of_ascii b in
      let z := N_of_ascii c in
      String (digit (x / 4)) (String (digit ((x mod 4) * 16 + y / 16))
        (String (digit ((y mod 16) * 4 + z / 64))
           (String (digit (z mod 64)) (btoa rest))))
  end%N.

End Base64.

(** [btoa]: the base64 text of the code units; [None] is the
    InvalidCharacterError raised when a code unit is above [U+00FF]. *)
Definition btoa (s : string) : option string := Base64.btoa <$> latin1 s.

(** ** Data model *)

(** Bids are objects owned by the auction; the module holds references. *)
Definition loc : Type := nat.

Record Bid : Type := mkBid {
  bidder : string;
  bidderCode : string;
  adId : string;
  requestId : string;
  auctionId : string;
  vastXml : option string;
  vastUrl : option string;
  vastImpUrl : ImpTrackers;
  ttl : option primitive;
  customCacheKey : option string;
  videoCacheKey : jsval
}.

Definition set_vastUrl (u : option string) (b : Bid) : Bid :=
  mkBid (bidder b) (bidderCode b) (adId b) (requestId b) (auctionId b)
        (vastXml b) u (vastImpUrl b) (ttl b) (customCacheKey b)
        (videoCacheKey b).

Definition set_videoCacheKey (k : jsval) (b : Bid) : Bid :=
  mkBid (bidder b) (bidderCode b) (adId b) (requestId b) (auctionId b)
        (vastXml b) (vastUrl b) (vastImpUrl b) (ttl b) (customCacheKey b) k.

(** What the module uses of an auction instance. *)
Record Auction : Type := mkAuction {
  getAuctionStart : Z;
  getBidsReceived : list loc
}.

(** [auctionManager.index]: the auction of a bid, when it is known. *)
Definition AuctionIndex : Type := Bid -> option Auction.

(** The values [config.getConfig] returns for the keys the module reads. *)
Record Config : Type := mkConfig {
  cache_url : string;
  cache_timeout : jsval;
  cache_vasttrack : bool
}.

(** The [cache] object handed to the configuration subscriber. *)
Record CacheConfig : Type := mkCacheConfig {
  cfg_batchSize : jsval;
  cfg_batchTimeout : jsval;
  cfg_useLocal : bool
}.

Record StoragePayload : Type := mkPayload {
  p_type : string;
  p_value : string;
  p_ttlseconds : number;
  p_bidder : option string;
  p_bidid : option string;
  p_aid : option string;
  p_timestamp : option Z;
  p_key : option string
}.

Record BatchEntry : Type := mkEntry {
  auctionInstance : nat;
  bidResponse : loc;
  afterBidAdded : nat
}.

(** The [error] argument of a [videoCacheStoreCallback]. *)
Inductive StoreError : Type :=
| ParseException
| MissingResponses
| TransportError (statusText responseBody : string).

Inductive Event : Type :=
| EvLogError (msg : string)
| EvLogFailedToSave (e : StoreError) (bids : list loc)
| EvLogWarn (msg : string)
| EvAjax (url : string) (puts : list StoragePayload)
| EvAddBidToAuction (auction : nat) (bid : loc) (snapshot : Bid)
| EvAfterBidAdded (callback : nat).

Record World : Type := mkWorld {
  heap : loc -> Bid;
  vastsLocalCache : gmap string string;
  trace : list Event
}.

Definition emit (evs : list Event) (w : World) : World :=
  mkWorld (heap w) (vastsLocalCache w) (trace w ++ evs).

Definition write_bid (r : loc) (b : Bid) (w : World) : World :=
  mkWorld (<[r := b]> (heap w)) (vastsLocalCache w) (trace w).

Definition set_cache (m : gmap string string) (w : World) : World :=
  mkWorld (heap w) m (trace w).

(** A call either returns or is left by an uncaught exception; the
    mutations made before the throw stay. *)
Inductive Outcome : Type :=
| Returned (w : World)
| Threw (w : World).

Definition world_of (o : Outcome) : World :=
  match o with Returned w => w | Threw w => w end.

Definition ttlBufferInSeconds : number := Num 15.

Definition LOCAL_CACHE_MOCK_URL : string := "https://local.prebid.org/cache?bidder=".

(** ** RequestTranslator *)

Definition getVastValue (bid : Bid) : string :=
  if truthy_str (vastXml bid)
  then ToString_str "" (vastXml bid)
  else wrapURI (vastUrl bid) (vastImpUrl bid).

Section RequestTranslator.

(** The conversion of a string to a number, for [Number(bid.ttl)]. *)
Variable StringToNumber : string -> number.

Definition toStorageRequest (cfg : Config) (index : AuctionIndex) (bid : Bid)
  : StoragePayload :=
  let vastValue := getVastValue bid in
  let auction := index bid in
  let ttlWithBuffer := Number_add (ToNumber StringToNumber (ttl bid)) ttlBufferInSeconds in
  let track := cache_vasttrack cfg in
  mkPayload "xml" vastValue ttlWithBuffer
    (if track then Some (bidder bid) else None)
    (if track then Some (requestId bid) else None)
    (if track then Some (auctionId bid) else None)
    (getAuctionStart <$> auction)
    (match customCacheKey bid with
     | Some k => if String.eqb k "" then None else Some k
     | None => None
     end).

(** The request half of [store]: one [ajax] call carrying a payload per
    bid, in order. *)
Definition store (cfg : Config) (index : AuctionIndex) (bids : list loc)
    (w : World) : World :=
  emit [EvAjax (cache_url cfg)
          ((fun r => toStorageRequest cfg index (heap w r)) <$> bids)] w.

(** [storeBatch]: the request is issued at once. *)
Definition storeBatch (cfg : Config) (index : AuctionIndex)
    (batch : list BatchEntry) (w : World) : World :=
  store cfg index (bidResponse <$> batch) w.

End RequestTranslator.

(** ** ResponseAdapter and StoreOrchestrator *)

(** [None] is the TypeError of a [uuid] without a text. *)
Definition getCacheUrl (cfg : Config) (id : jsval) : option string :=
  (fun text => cache_url cfg +:+ "?uuid=" +:+ text) <$> ToString id.

Definition rejected_key_warning : string :=
  "Supplied video cache key was already in use by Prebid Cache; caching attempt was rejected. Video bid must be discarded.".

(** [None] is the TypeError of a [length] without a text. *)
Definition count_mismatch_message (expected : nat) (got : Length) : option string :=
  (fun text => "expected " +:+ nat_to_string expected +:+ " cache IDs, got " +:+
               text +:+ " instead") <$> ToString_length got.

(** The body of the [forEach] callback of [storeBatch]. *)
Definition attribute (cfg : Config) (batch : list BatchEntry)
    (cacheId : json) (i : nat) (w : World) : Outcome :=
  match batch !! i with
  | None => Threw w
  | Some entry =>
      match get_prop cacheId "uuid" with
      | None => Threw w
      | Some uuid =>
          if is_empty_string uuid then
            Returned (emit [EvLogWarn rejected_key_warning] w)
          else
            let r := bidResponse entry in
            let b1 := set_videoCacheKey uuid (heap w r) in
            let pass_on b2 :=
              Returned
                (emit [EvAddBidToAuction (auctionInstance entry) r b2;
                       EvAfterBidAdded (afterBidAdded entry)]
                      (write_bid r b2 w)) in
            if truthy_str (vastUrl b1) then pass_on b1
            else
              match getCacheUrl cfg (videoCacheKey b1) with
              | Some url => pass_on (set_vastUrl (Some url) b1)
              | None => Threw (write_bid r b1 w)
              end
      end
  end.

(** [Array.prototype.forEach], from index [i] on. *)
Fixpoint forEach_from (f : json -> nat -> World -> Outcome)
    (i : nat) (xs : list json) (w : World) : Outcome :=
  match xs with
  | [] => Returned w
  | x :: rest =>
      match f x i w with
      | Returned w' => forEach_from f (S i) rest w'
      | Threw w' => Threw w'
      end
  end.

(** The callback [storeBatch] hands to [store]. *)
Definition storeBatch_done (cfg : Config) (batch : list BatchEntry)
    (error : option StoreError) (cacheIds : json) (w : World) : Outcome :=
  let bids := bidResponse <$> batch in
  match error with
  | Some e => Returned (emit [EvLogFailedToSave e bids] w)
  | None =>
      match get_length cacheIds with
      | None => Threw w
      | Some len =>
          if count_strict_neq (List.length batch) len then
            match count_mismatch_message (List.length batch) len with
            | Some msg => Returned (emit [EvLogError msg] w)
            | None => Threw w
            end
          else
            match cacheIds with
            | JArr ids => forEach_from (attribute cfg batch) 0%nat ids w
            | _ => Threw w
            end
      end
  end.

(** What [ajax] eventually reports. *)
Inductive AjaxResult : Type :=
| AjaxSuccess (responseBody : string)
| AjaxError (statusText responseBody : string).

Section ResponseAdapter.

(** [JSON.parse]; [None] when it throws. *)
Variable JSON_parse : string -> option json.

Definition shim_success (done : option StoreError -> json -> World -> Outcome)
    (responseBody : string) (w : World) : Outcome :=
  match JSON_parse responseBody ≫= (fun v => get_prop v "responses") with
  | None => done (Some ParseException) (JArr []) w
  | Some ids =>
      match ids with
      | Some j => if truthy ids then done None j w
                  else done (Some MissingResponses) (JArr []) w
      | None => done (Some MissingResponses) (JArr []) w
      end
  end.

Definition shim_error (done : option StoreError -> json -> World -> Outcome)
    (statusText responseBody : string) (w : World) : Outcome :=
  done (Some (TransportError statusText responseBody)) (JArr []) w.

Definition shimStorageCallback
    (done : option StoreError -> json -> World -> Outcome)
    (r : AjaxResult) (w : World) : Outcome :=
  match r with
  | AjaxSuccess body => shim_success done body w
  | AjaxError statusText body => shim_error done statusText body w
  end.

(** [storeBatch], second half: the handlers run when [ajax] reports. *)
Definition storeBatch_response (cfg : Config) (batch : list BatchEntry)
    (r : AjaxResult) (w : World) : Outcome :=
  shimStorageCallback (storeBatch_done cfg batch) r w.

End ResponseAdapter.

(** ** LocalCacheStore *)

Definition getLocalCacheBidId (bid : Bid) : string :=
  bidderCode bid +:+ "_" +:+ adId bid.

Definition data_uri_prefix : string := "data:text/xml;base64,".

(** When [btoa] throws, neither the bid nor the map has been written. *)
Definition storeLocally (r : loc) (w : World) : Outcome :=
  let vastValue := getVastValue (heap w r) in
  match btoa vastValue with
  | None => Threw w
  | Some encoded =>
      let dataUri := data_uri_prefix +:+ encoded in
      let w1 := write_bid r (set_vastUrl (Some dataUri) (heap w r)) w in
      Returned
        (set_cache (<[getLocalCacheBidId (heap w1 r) := dataUri]> (vastsLocalCache w1)) w1)
  end.

(** [String.prototype.replace] with a string pattern. *)
Module StringReplace.

(** [s] without its prefix [p], when [p] is a prefix of [s]. *)
Fixpoint strip_prefix (p s : string) : option string :=
  match p with
  | EmptyString => Some s
  | String a p' =>
      match s with
      | EmptyString => None
      | String b s' => if Ascii.eqb a b then strip_prefix p' s' else None
      end
  end.

(** The text before and after the leftmost occurrence of [pat]. *)
Fixpoint find_first (pat s : string) : option (string * string) :=
  match strip_prefix pat s with
  | Some after => Some (EmptyString, after)
  | None =>
      match s with
      | EmptyString => None
      | String c s' =>
          match find_first pat s' with
          | Some (before, after) => Some (String c before, after)
          | None => None
          end
      end
  end.

(** GetSubstitution when the pattern is a string: there are no capture
    groups, so only [$$], [$&], [$`] and [$'] are replacement patterns. *)
Fixpoint getSubstitution (matched before after repl : string) : string :=
  match repl with
  | EmptyString => EmptyString
  | String c tl =>
      if Ascii.eqb c "$"%char then
        match tl with
        | EmptyString => String c EmptyString
        | String d rest =>
            if Ascii.eqb d "$"%char then
              String "$"%char (getSubstitution matched before after rest)
            else if Ascii.eqb d "&"%char then
              matched +:+ getSubstitution matched before after rest
            else if Ascii.eqb d "`"%char then
              before +:+ getSubstitution matched before after rest
            else if Ascii.eqb d "'"%char then
              after +:+ getSubstitution matched before after rest
            else String c (getSubstitution matched before after tl)
        end
      else String c (getSubstitution matched before after tl)
  end.

Definition replace (s pat : string) (replaceValue : option string) : string :=
  let repl := ToString_str "undefined" replaceValue in
  match find_first pat s with
  | None => s
  | Some (before, after) =>
      before +:+ getSubstitution pat before after repl +:+ after
  end.

End StringReplace.

(** What [getLocalCachedBidWithGam] takes from the ad tag URL: the
    [hb_bidder] and [hb_adid] entries of its [cust_params] ([None] is the
    [null] that [URLSearchParams.get] returns for a missing name). *)
Record CustParams : Type := mkCustParams {
  hb_bidder : option string;
  hb_adid : option string
}.

(** What it takes from the [fetch] response. *)
Record FetchResponse : Type := mkResponse {
  ok : bool;
  text : string
}.

Definition getLocalCachedBidWithGam (custParams : CustParams)
    (response : FetchResponse) (w : World) : option string * World :=
  let bidder_s := ToString_str "null" (hb_bidder custParams) in
  let adid_s := ToString_str "null" (hb_adid custParams) in
  if negb (ok response) then
    (None, emit [EvLogError "Unable to fetch valid response from Google Ad Manager"] w)
  else
    let gamVastWrapper := text response in
    let bidVastDataUri := vastsLocalCache w !! (bidder_s +:+ "_" +:+ adid_s) in
    let mockUrl := LOCAL_CACHE_MOCK_URL +:+ bidder_s in
    let combinedVast := StringReplace.replace gamVastWrapper mockUrl bidVastDataUri in
    (Some combinedVast, w).

(** The handler registered with [auctionManager.onExpiry]. *)
Definition expiryHandler (auction : Auction) (w : World) : World :=
  set_cache
    (foldl (fun m r => delete (getLocalCacheBidId (heap w r)) m)
           (vastsLocalCache w) (getBidsReceived auction))
    w.

(** ** Module variables and the configuration subscriber *)

Record ModuleVars : Type := mkVars {
  batchSize : option number;
  batchTimeout : option number;
  cleanupHandler : bool
}.

Definition initialVars : ModuleVars := mkVars None None false.

Definition cacheSubscriber (cache : CacheConfig) (m : ModuleVars) : ModuleVars :=
  mkVars
    (Some (match positive_number (cfg_batchSize cache) with
           | Some x => x
           | None => Num 1
           end))
    (Some (match positive_number (cfg_batchTimeout cache) with
           | Some x => x
           | None => Num 0
           end))
    (if cfg_useLocal cache && negb (cleanupHandler m) then true
     else cleanupHandler m).

(** [config.getConfig('cache', ...)] is subscribed only under
    [FEATURES.VIDEO]. *)
Definition applyCacheConfig (FEATURES_VIDEO : bool) (cache : CacheConfig)
    (m : ModuleVars) : ModuleVars :=
  if FEATURES_VIDEO then cacheSubscriber cache m else m.

Definition notifyExpiry (m : ModuleVars) (auction : Auction) (w : World) : World :=
  if cleanupHandler m then expiryHandler auction w else w.

(** ** Batcher *)

Record BatcherState : Type := mkBatcher {
  batches : list (list BatchEntry);
  debouncing : bool;
  timers : list number;
  calls : list (list BatchEntry)
}.

Definition batchingCache : BatcherState := mkBatcher [[]] false [] [].

(** [n >= v] for the length [n] of a batch: the comparison of the two
    values, false when [v] is [undefined] or [NaN]. *)
Definition ge_js (n : nat) (v : option number) : bool :=
  match v with
  | Some x =>
      match compare_count n x with
      | Some Gt | Some Eq => true
      | _ => false
      end
  | None => false
  end.

(** [v > 0], false when [v] is [undefined]. *)
Definition gt0_js (v : option number) : bool :=
  match v with
  | Some t => gt0 t
  | None => false
  end.

(** The closure handed to the timer: one [cache] call per batch, then a
    fresh accumulator. *)
Definition flush (s : BatcherState) : BatcherState :=
  mkBatcher [[]] false (timers s) (calls s ++ batches s).

(** The returned function; [None] is the TypeError of reading [length]
    from a missing last batch. *)
Definition submit (m : ModuleVars) (entry : BatchEntry) (s : BatcherState)
  : option BatcherState :=
  cur ← batches s !! pred (List.length (batches s));
  let bs1 := if ge_js (List.length cur) (batchSize m)
             then batches s ++ [[]] else batches s in
  cur1 ← bs1 !! pred (List.length bs1);
  let bs2 := <[pred (List.length bs1) := cur1 ++ [entry]]> bs1 in
  if debouncing s then
    Some (mkBatcher bs2 true (timers s) (calls s))
  else if gt0_js (batchTimeout m) then
    Some (mkBatcher bs2 true
            (timers s ++ [default (Num 0) (batchTimeout m)]) (calls s))
  else
    Some (flush (mkBatcher bs2 true (timers s) (calls s))).

(** A pending timer elapses. *)
Definition fire (s : BatcherState) : BatcherState :=
  match timers s with
  | [] => s
  | _ :: ts => flush (mkBatcher (batches s) (debouncing s) ts (calls s))
  end.

Inductive BatcherEvent : Type :=
| Submit (entry : BatchEntry)
| TimerFires.

Definition step (m : ModuleVars) (ev : BatcherEvent) (s : BatcherState)
  : option BatcherState :=
  match ev with
  | Submit entry => submit m entry s
  | TimerFires => Some (fire s)
  end.

Fixpoint run (m : ModuleVars) (evs : list BatcherEvent) (s : BatcherState)
  : option BatcherState :=
  match evs with
  | [] => Some s
  | ev :: rest => step m ev s ≫= run m rest
  end.

Definition ceil_div (n k : Z) : Z := (n + k - 1) / k.

(** ** Vocabulary of the statements *)

(** Number of positions of [s] at which [pat] occurs. *)
Fixpoint occurrences (pat s : string) : nat :=
  ((match StringReplace.strip_prefix pat s with Some _ => 1 | None => 0 end) +
   match s with
   | EmptyString => 0
   | String _ s' => occurrences pat s'
   end)%nat.

(** [s] holds no character [c]. *)
Fixpoint free_of (c : ascii) (s : string) : bool :=
  match s with
  | EmptyString => true
  | String d s' => negb (Ascii.eqb d c) && free_of c s'
  end.

(** The content rule of the specification: [vastXml] verbatim when it is
    present and non-empty, otherwise the wrapper around [vastUrl] with the
    impression trackers of the bid. *)
Definition spec_vastContent (bid : Bid) : string :=
  match vastXml bid with
  | Some xml => if decide (xml = "") then wrapURI (vastUrl bid) (vastImpUrl bid)
                else xml
  | None => wrapURI (vastUrl bid) (vastImpUrl bid)
  end.

(** Base64 as RFC 4648 words it: the bytes are read as one string of
    bits, most significant bit first; each group of 6 bits, the last one
    completed with zero bits, is the index of a character of the
    alphabet; [=] is added up to a multiple of 4 characters. *)
Definition byte_at (bytes : string) (i : nat) : N :=
  match String.get i bytes with
  | Some c => N_of_ascii c
  | None => 0%N
  end.

(** The group of 6 bits number [j]. *)
Definition sextet (bytes : string) (j : nat) : N :=
  let q := (6 * j / 8)%nat in
  let r := N.of_nat (6 * j mod 8) in
  (((byte_at bytes q * 256 + byte_at bytes (S q)) / 2 ^ (10 - r)) mod 64)%N.

Definition sextet_char (bytes : string) (j : nat) : ascii :=
  match String.get (N.to_nat (sextet bytes j)) Base64.alphabet with
  | Some c => c
  | None => "?"%char
  end.

Definition base64_of (bytes enc : string) : Prop :=
  let n := String.length bytes in
  String.length enc = (4 * ((n + 2) / 3))%nat /\
  forall j, (j < 4 * ((n + 2) / 3))%nat ->
    String.get j enc =
    Some (if (j <? (8 * n + 5) / 6)%nat then sextet_char bytes j else "="%char).



(** Every byte of [s] is below 128. *)
Fixpoint ascii_only (s : string) : bool :=
  match s with
  | EmptyString => true
  | String a rest => (N_of_ascii a <? 128)%N && ascii_only rest
  end.

(** The world after [storeLocally] has written [dataUri] for the bid at
    [r]. *)
Definition stored_world (r : loc) (dataUri : string) (w : World) : World :=
  mkWorld (<[r := set_vastUrl (Some dataUri) (heap w r)]> (heap w))
          (<[getLocalCacheBidId (heap w r) := dataUri]> (vastsLocalCache w))
          (trace w).

(** No non-empty suffix of [a] is a proper prefix of [pat]: an
    occurrence of [pat] cannot start in [a] and end after it. *)
Fixpoint straddle_free (pat a : string) : bool :=
  match a with
  | EmptyString => true
  | String _ a' =>
      match StringReplace.strip_prefix pat a, StringReplace.strip_prefix a pat with
      | None, Some _ => false
      | _, _ => straddle_free pat a'
      end
  end.


(** The retrieval URL template, [<cacheBaseUrl>?uuid=<identifier>]. *)
Definition retrieval_url (cfg : Config) (identifier : string) : string :=
  cache_url cfg +:+ "?uuid=" +:+ identifier.

(** A bid after a non-empty identifier was attributed to it: the
    identifier is its [videoCacheKey]; its [vastUrl] is the retrieval URL
    when it had none (absent or empty), and is kept otherwise. *)
Definition accepted_bid (cfg : Config) (identifier : string) (b : Bid) : Bid :=
  set_vastUrl
    (match vastUrl b with
     | None => Some (retrieval_url cfg identifier)
     | Some url => if decide (url = "") then Some (retrieval_url cfg identifier)
                   else Some url
     end)
    (set_videoCacheKey (Some (JStr identifier)) b).

(** What position [i] of a successful flush contributes to the trace,
    [b] being the bid of the entry before the attribution. *)
Definition position_events (cfg : Config) (entry : BatchEntry)
    (identifier : string) (b : Bid) : list Event :=
  if decide (identifier = "") then [EvLogWarn rejected_key_warning]
  else [EvAddBidToAuction (auctionInstance entry) (bidResponse entry)
          (accepted_bid cfg identifier b);
        EvAfterBidAdded (afterBidAdded entry)].

(** What one position of a successful flush does to the world. *)
Definition admit_position (cfg : Config) (w : World)
    (p : BatchEntry * string) : World :=
  let r := bidResponse p.1 in
  emit (position_events cfg p.1 p.2 (heap w r))
       (if decide (p.2 = "") then w
        else write_bid r (accepted_bid cfg p.2 (heap w r)) w).

(** ** Sample data *)

Module Sample.

Definition cfg : Config := mkConfig "https://cache.example/cache" None false.

(** A stand-in for the conversion of a string to a number. *)
Definition StringToNumber (s : string) : number :=
  if String.eqb s "60" then Num 60 else S754_nan.

Definition bid_url : Bid :=
  mkBid "nexverse" "nexverse" "ad1" "req1" "auc1"
        None (Some "http://x/vast.xml") NoTrackers (Some (PNum (Num 60))) None None.

Definition bid_xml : Bid :=
  mkBid "other" "other" "ad2" "req2" "auc1"
        (Some "<VAST/>") None NoTrackers (Some (PNum (Num 30))) None None.

Definition heap0 : loc -> Bid :=
  fun r => match r with O => bid_url | _ => bid_xml end.

Definition world0 : World := mkWorld heap0 ∅ [].

Definition batch2 : list BatchEntry :=
  [mkEntry 7%nat 0%nat 100%nat; mkEntry 7%nat 1%nat 101%nat].

Definition id_of (u : string) : json := JObj [("uuid", JStr u)].

(** A stand-in for [JSON.parse] that knows four response bodies. *)
Definition parse (body : string) : option json :=
  if String.eqb body "two" then
    Some (JObj [("responses", JArr [id_of "k1"; id_of ""])])
  else if String.eqb body "one" then
    Some (JObj [("responses", JArr [id_of "k1"])])
  else if String.eqb body "none" then
    Some (JObj [("status", JStr "ok")])
  else None.

End Sample.

Module SampleText.

(** The three bytes of the euro sign, [U+20AC]. *)
Definition euro : string :=
  String (ascii_of_nat 226) (String (ascii_of_nat 130) (String (ascii_of_nat 172) "")).

(** The two bytes of [U+00E9], e with an acute accent. *)
Definition e_acute : string :=
  String (ascii_of_nat 195) (String (ascii_of_nat 169) "").

(** A bid whose VAST document names a price in euros. *)
Definition bid_euro : Bid :=
  mkBid "nexverse" "nexverse" "ad3" "req3" "auc1"
        (Some ("<VAST><AdTitle>10 " +:+ euro +:+ "</AdTitle></VAST>")) None NoTrackers
        (Some (PNum (Num 60))) None None.

Definition world_euro : World := mkWorld (fun _ => bid_euro) ∅ [].



End SampleText.

Module SampleLocal.

(** Both sample bids stored locally; the first belongs to auction [A],
    the second to another auction. *)
Definition world : World :=
  world_of (storeLocally 1%nat (world_of (storeLocally 0%nat Sample.world0))).

Definition auctionA : Auction := mkAuction 1000 [0%nat].

Definition cache_on : CacheConfig := mkCacheConfig None None true.

End SampleLocal.

(** The debounce part of [submit], once the entry is in its batch. *)
Definition schedule (m : ModuleVars) (bs : list (list BatchEntry)) (d : bool)
    (ts : list number) (cs : list (list BatchEntry)) : BatcherState :=
  if d then mkBatcher bs true ts cs
  else if gt0_js (batchTimeout m)
       then mkBatcher bs true (ts ++ [default (Num 0) (batchTimeout m)]) cs
       else flush (mkBatcher bs true ts cs).

(** Every batch of [bs] holds at most [k] entries. *)
Definition bounded (k : Z) (bs : list (list BatchEntry)) : Prop :=
  Forall (fun b => Z.of_nat (List.length b) <= k) bs.

(** The consecutive slices of [k] entries of [entries], the last one
    possibly shorter. *)
Definition slices (k : nat) (entries : list BatchEntry) : list (list BatchEntry) :=
  (fun i => take k (drop (i * k) entries)) <$>
  seq 0 (Z.to_nat (ceil_div (Z.of_nat (List.length entries)) (Z.of_nat k))).

Module SampleBatch.

Definition entries5 : list BatchEntry :=
  [mkEntry 1%nat 10%nat 0%nat; mkEntry 1%nat 11%nat 1%nat;
   mkEntry 1%nat 12%nat 2%nat; mkEntry 2%nat 13%nat 3%nat;
   mkEntry 2%nat 14%nat 4%nat].

(** [cache.batchSize = 2], [cache.batchTimeout = 20]. *)
Definition vars : ModuleVars :=
  applyCacheConfig true (mkCacheConfig (Some (JNum (Num 2))) (Some (JNum (Num 20))) false)
    initialVars.

(** [cache.batchSize = 2.5], [cache.batchTimeout = 20]. *)
Definition fractional : ModuleVars :=
  applyCacheConfig true
    (mkCacheConfig (Some (JNum (dyadic 5 (-1)))) (Some (JNum (Num 20))) false)
    initialVars.

(** [cache.batchSize = Infinity], [cache.batchTimeout = 20]. *)
Definition unlimited : ModuleVars :=
  applyCacheConfig true
    (mkCacheConfig (Some (JNum (S754_infinity false))) (Some (JNum (Num 20))) false)
    initialVars.

End SampleBatch.

Module SampleGam.

(** The wrapper an ad server returns for the sample bid of bidder
    [nexverse]: it holds the placeholder once. *)
Definition wrapper : string :=
  "<VAST><VASTAdTagURI><![CDATA[https://local.prebid.org/cache?bidder=nexverse]]></VASTAdTagURI></VAST>".

Definition custParams : CustParams := mkCustParams (Some "nexverse") (Some "ad1").

Definition response : FetchResponse := mkResponse true wrapper.

(** The sample bid stored locally. *)
Definition stored : World := world_of (storeLocally 0%nat Sample.world0).

End SampleGam.

(** ** Vocabulary of the further properties *)

(** The entries of the [Submit] events of a run, in order. *)
Definition submitted (evs : list BatcherEvent) : list BatchEntry :=
  omap (fun ev => match ev with Submit entry => Some entry | TimerFires => None end) evs.

(** The batcher has nothing accumulated and no timer pending. *)
Definition idle (s : BatcherState) : Prop :=
  batches s = [[]] /\ debouncing s = false /\ timers s = [].

(** The same batcher with [cs] already handed to the store before. *)
Definition after_calls (cs : list (list BatchEntry)) (s : BatcherState) : BatcherState :=
  mkBatcher (batches s) (debouncing s) (timers s) (cs ++ calls s).

(** A debounce window is open: the flag is set, exactly one timer is
    pending, with the configured delay, and something is accumulated. *)
Definition window_open (m : ModuleVars) (s : BatcherState) : Prop :=
  debouncing s = true /\
  (exists t, batchTimeout m = Some t /\ gt0 t = true /\ timers s = [t]) /\
  mjoin (batches s) <> [].

(** Two states of a bid that differ at most in [videoCacheKey] and
    [vastUrl]. *)
Definition same_content (b b' : Bid) : Prop :=
  bidder b' = bidder b /\ bidderCode b' = bidderCode b /\ adId b' = adId b /\
  requestId b' = requestId b /\ auctionId b' = auctionId b /\
  vastXml b' = vastXml b /\ vastImpUrl b' = vastImpUrl b /\ ttl b' = ttl b /\
  customCacheKey b' = customCacheKey b.

(** [w'] comes from [w] by writing cache keys and playback URLs of bids
    among [refs] and by adding events: the local map, the other bids and
    the rest of every bid are as in [w]. *)
Definition attributes_within (refs : list loc) (w w' : World) : Prop :=
  vastsLocalCache w' = vastsLocalCache w /\
  (forall r, r ∉ refs -> heap w' r = heap w r) /\
  (forall r, same_content (heap w r) (heap w' r)) /\
  (exists evs, trace w' = trace w ++ evs).

Module SampleResponses.

(** A stand-in for [JSON.parse] on further response bodies. *)
Definition parse (body : string) : option json :=
  if String.eqb body "responses-null" then Some (JObj [("responses", JNull)])
  else if String.eqb body "null-then-key" then
    Some (JObj [("responses", JArr [Sample.id_of "k1"; JNull])])
  else if String.eqb body "no-uuid" then
    Some (JObj [("responses", JArr [JObj [("id", JStr "k1")]])])
  else if String.eqb body "text" then
    Some (JObj [("responses", JStr "ab")])
  else if String.eqb body "null" then Some JNull
  else None.

Definition batch1 : list BatchEntry := [mkEntry 7%nat 0%nat 100%nat].

End SampleResponses.

(** The module variables after a sequence of cache configurations. *)
Definition configured (FEATURES_VIDEO : bool) (caches : list CacheConfig)
    (m : ModuleVars) : ModuleVars :=
  foldl (fun m cache => applyCacheConfig FEATURES_VIDEO cache m) m caches.

(** The placeholder [getLocalCachedBidWithGam] looks for, and the key it
    reads the local map at. *)
Definition placeholder_of (custParams : CustParams) : string :=
  "https://local.prebid.org/cache?bidder=" +:+ ToString_str "null" (hb_bidder custParams).

Definition key_of (custParams : CustParams) : string :=
  ToString_str "null" (hb_bidder custParams) +:+ "_" +:+
  ToString_str "null" (hb_adid custParams).

(** [doc] is [before], then the leftmost occurrence of [pat], then
    [after]. *)
Definition leftmost_split (pat doc before after : string) : Prop :=
  doc = before +:+ pat +:+ after /\
  forall before' after',
    doc = before' +:+ pat +:+ after' ->
    (String.length before <= String.length before')%nat.

Module SampleGam2.

(** A fetched document that holds the placeholder twice. *)
Definition before : string := "<VAST><A>".
Definition after : string := "</A><B>https://local.prebid.org/cache?bidder=nexverse</B></VAST>".
Definition wrapper : string :=
  before +:+ "https://local.prebid.org/cache?bidder=nexverse" +:+ after.
Definition response : FetchResponse := mkResponse true wrapper.

End SampleGam2.

(** [batches.forEach(cache)] with the default [cache], [storeBatch]: the
    requests of the flushed batches, issued in order. *)
Definition issue_calls (StringToNumber : string -> number) (cfg : Config)
    (index : AuctionIndex) (flushed : list (list BatchEntry)) (w : World) : World :=
  foldl (fun w batch => storeBatch StringToNumber cfg index batch w) w flushed.

(** The payloads of a batch, from the bids as they are in [w]. *)
Definition payloads (StringToNumber : string -> number) (cfg : Config)
    (index : AuctionIndex) (w : World) (batch : list BatchEntry) : list StoragePayload :=
  (fun entry => toStorageRequest StringToNumber cfg index (heap w (bidResponse entry)))
    <$> batch.
(** * Properties *)

(** ** Strings *)

Lemma app_empty_r (s : string) : s +:+ "" = s.
Proof. induction s as [|c s IH]; simpl; [reflexivity | f_equal; exact IH]. Qed.

Lemma app_assoc_s (a b c : string) : (a +:+ b) +:+ c = a +:+ (b +:+ c).
Proof. induction a as [|x a IH]; simpl; [reflexivity | f_equal; exact IH]. Qed.

Lemma string_eqb_empty (s : string) : String.eqb s "" = true <-> s = "".
Proof. apply String.eqb_eq. Qed.

(** ** Numbers *)

Section WholeNumbers.


















End WholeNumbers.

(** [x > 0] holds of the finite numbers above zero and of [Infinity]. *)
Lemma gt0_spec (x : number) :
  gt0 x = true <->
  x = S754_infinity false \/
  exists q, finite_value x = Some q /\ (0 < q)%Q.
Proof.
  split.
  - destruct x as [s|[]| |[] m e]; try discriminate.
    + intros _. left. reflexivity.
    + intros _. right. eexists. split; [reflexivity|].
      destruct (0 <=? e) eqn:He; unfold Qlt; cbn.
      * apply Z.leb_le in He.
        pose proof (Z.pow_pos_nonneg 2 e ltac:(lia) He). nia.
      * lia.
  - intros [-> | (q & Hq & Hpos)]; [reflexivity|].
    destruct x as [s|s| |s m e]; try discriminate.
    + injection Hq as <-. exfalso. revert Hpos. unfold Qlt; cbn. lia.
    + destruct s; [|reflexivity]. exfalso. injection Hq as <-.
      revert Hpos. destruct (0 <=? e) eqn:He; unfold Qlt; cbn.
      * apply Z.leb_le in He.
        pose proof (Z.pow_pos_nonneg 2 e ltac:(lia) He). nia.
      * lia.
Qed.

(** For a finite [x], a count is at least [x] exactly when it is at
    least the least integer above or equal to [x]. *)
Lemma ge_js_ceiling (x : number) (q : Q) (n : nat) :
  finite_value x = Some q ->
  ge_js n (Some x) = bool_decide (Qceiling q <= Z.of_nat n).
Proof.
  intros Hq. unfold ge_js, compare_count.
  assert (Hcmp : match x with
                 | S754_nan => None
                 | S754_infinity s => Some (if s then Gt else Lt)
                 | _ => match finite_value x with
                        | Some q => Some (inject_Z (Z.of_nat n) ?= q)%Q
                        | None => None
                        end
                 end = Some (inject_Z (Z.of_nat n) ?= q)%Q).
  { destruct x; try discriminate; rewrite Hq; reflexivity. }
  rewrite Hcmp.
  assert (Hiff : (q <= inject_Z (Z.of_nat n))%Q <-> Qceiling q <= Z.of_nat n).
  { split.
    - intros H. rewrite <- (Qceiling_Z (Z.of_nat n)). apply Qceiling_resp_le. exact H.
    - intros H. eapply Qle_trans; [apply Qle_ceiling|].
      rewrite <- Zle_Qle. exact H. }
  destruct (inject_Z (Z.of_nat n) ?= q)%Q eqn:Hc.
  - rewrite bool_decide_eq_true_2; [reflexivity|]. apply Hiff.
    apply Qeq_alt in Hc. rewrite Hc. apply Qle_refl.
  - rewrite bool_decide_eq_false_2; [reflexivity|]. rewrite <- Hiff.
    apply Qlt_alt in Hc. apply Qlt_not_le. exact Hc.
  - rewrite bool_decide_eq_true_2; [reflexivity|]. apply Hiff.
    apply Qgt_alt in Hc. apply Qlt_le_weak. exact Hc.
Qed.

Lemma Qceiling_pos (q : Q) : (0 < q)%Q -> 0 < Qceiling q.
Proof.
  intros Hq. rewrite Zlt_Qlt.
  eapply Qlt_le_trans; [exact Hq | apply Qle_ceiling].
Qed.

(** ** RequestTranslator *)




Lemma getVastValue_spec (bid : Bid) : getVastValue bid = spec_vastContent bid.
Proof.
  unfold getVastValue, spec_vastContent, truthy_str.
  destruct (vastXml bid) as [xml|]; simpl; [|reflexivity].
  destruct (decide (xml = "")) as [->|Hne]; [reflexivity|].
  destruct (String.eqb_spec xml ""); [contradiction | reflexivity].
Qed.

(** ** Counting occurrences across a concatenation *)

Section Occurrences.
Import StringReplace.

Lemma strip_prefix_app (pat t r : string) :
  strip_prefix pat (t +:+ r) =
  match strip_prefix pat t with
  | Some rest => Some (rest +:+ r)
  | None =>
      match strip_prefix t pat with
      | Some pat' => strip_prefix pat' r
      | None => None
      end
  end.
Proof.
  revert t; induction pat as [|a pat IH]; intros t.
  - simpl. destruct t; reflexivity.
  - destruct t as [|b t]; simpl.
    + reflexivity.
    + rewrite (Ascii.eqb_sym b a).
      destruct (Ascii.eqb a b); [apply IH | reflexivity].
Qed.

Lemma occurrences_app (c : ascii) (p a r : string) :
  straddle_free (String c p) a = true ->
  occurrences (String c p) (a +:+ r) =
  (occurrences (String c p) a + occurrences (String c p) r)%nat.
Proof.
  induction a as [|x a IH]; intros Hfree.
  - reflexivity.
  - change (String x a +:+ r) with (String x (a +:+ r)).
    cbn [occurrences].
    change (String x (a +:+ r)) with (String x a +:+ r).
    rewrite strip_prefix_app.
    cbn [straddle_free] in Hfree.
    destruct (strip_prefix (String c p) (String x a)) as [rest|].
    + rewrite IH by exact Hfree. lia.
    + destruct (strip_prefix (String x a) (String c p)); [discriminate|].
      rewrite IH by exact Hfree. lia.
Qed.

(** A text without the first character of the pattern holds no
    occurrence of it and no beginning of one. *)
Lemma free_of_no_occurrence (c : ascii) (p u : string) :
  free_of c u = true ->
  occurrences (String c p) u = 0%nat /\ straddle_free (String c p) u = true.
Proof.
  induction u as [|d u IH]; intros Hu.
  - split; reflexivity.
  - cbn [free_of] in Hu. apply andb_prop in Hu as [Hd Hu].
    apply negb_true_iff in Hd.
    destruct (IH Hu) as [IH1 IH2].
    cbn [occurrences straddle_free strip_prefix].
    rewrite (Ascii.eqb_sym c d), Hd. split; assumption.
Qed.

End Occurrences.

(** ** VastWrapperBuilder *)

Lemma occurrences_wrapURI (pat_tl uri imps : string) :
  let pat := String "<"%char pat_tl in
  straddle_free pat wrapper_head = true ->
  straddle_free pat wrapper_mid = true ->
  free_of "<"%char uri = true ->
  straddle_free pat imps = true ->
  occurrences pat (wrapper_head +:+ uri +:+ wrapper_mid +:+ imps +:+ wrapper_tail) =
  (occurrences pat wrapper_head + occurrences pat wrapper_mid +
   occurrences pat imps + occurrences pat wrapper_tail)%nat.
Proof.
  intros pat Hh Hm Hu Hi.
  destruct (free_of_no_occurrence "<"%char pat_tl uri Hu) as [Hu0 Hus].
  fold pat in Hu0, Hus.
  rewrite (occurrences_app "<"%char pat_tl wrapper_head _ Hh).
  rewrite (occurrences_app "<"%char pat_tl uri _ Hus).
  rewrite (occurrences_app "<"%char pat_tl wrapper_mid _ Hm).
  rewrite (occurrences_app "<"%char pat_tl imps _ Hi).
  fold pat. rewrite Hu0. lia.
Qed.

Lemma impressionElement_occurrences (trk rest : string) :
  free_of "<"%char trk = true ->
  occurrences "<Impression>" (impressionElement trk +:+ rest) =
  S (occurrences "<Impression>" rest).
Proof.
  intros Ht. unfold impressionElement.
  destruct (free_of_no_occurrence "<"%char "Impression>" trk Ht) as [Ht0 Hts].
  rewrite (app_assoc_s "<Impression><![CDATA[" _ rest).
  rewrite (app_assoc_s trk "]]></Impression>" rest).
  rewrite (occurrences_app "<"%char "Impression>" "<Impression><![CDATA[" _ eq_refl).
  rewrite (occurrences_app "<"%char "Impression>" trk _ Hts).
  rewrite (occurrences_app "<"%char "Impression>" "]]></Impression>" _ eq_refl).
  rewrite Ht0. reflexivity.
Qed.

(** C5: [wrapURI] without trackers returns the VAST 3.0 wrapper whose
    [VASTAdTagURI] element holds the uri in a CDATA section, followed by
    an empty impression slot and an empty [Creatives] element; with the
    trackers [t1; t2] the impression slot holds the element of [t1] and
    then the element of [t2] and nothing else.  The literal parts of the
    template hold no [Impression] tag, so that for texts without markup
    the document counts zero, respectively two, of them.  The result
    depends on the arguments alone. *)
Theorem wrapURI_document :
  (forall uri,
      wrapURI (Some uri) NoTrackers =
      wrapper_head +:+ uri +:+ wrapper_mid +:+ wrapper_tail) /\
  (forall uri t1 t2,
      wrapURI (Some uri) (TrackerList [t1; t2]) =
      wrapper_head +:+ uri +:+ wrapper_mid +:+
      ("<Impression><![CDATA[" +:+ t1 +:+ "]]></Impression>") +:+
      ("<Impression><![CDATA[" +:+ t2 +:+ "]]></Impression>") +:+
      wrapper_tail) /\
  (StringReplace.strip_prefix ("<VAST version=" +:+ dq +:+ "3.0" +:+ dq +:+ ">")
     wrapper_head <> None /\
   occurrences "<Wrapper>" wrapper_head = 1%nat /\
   (exists pre, wrapper_head = pre +:+ "<VASTAdTagURI><![CDATA[") /\
   (exists post, wrapper_mid = "]]></VASTAdTagURI>" +:+ post) /\
   occurrences "<Creatives></Creatives>" wrapper_tail = 1%nat /\
   occurrences "<Impression>" (wrapper_head +:+ wrapper_mid +:+ wrapper_tail) = 0%nat) /\
  (forall uri,
      free_of "<"%char uri = true ->
      occurrences "<Impression>" (wrapURI (Some uri) NoTrackers) = 0%nat) /\
  (forall uri t1 t2,
      free_of "<"%char uri = true ->
      free_of "<"%char t1 = true ->
      free_of "<"%char t2 = true ->
      occurrences "<Impression>" (wrapURI (Some uri) (TrackerList [t1; t2])) = 2%nat) /\
  (forall uri uri' trk trk',
      uri = uri' -> trk = trk' -> wrapURI uri trk = wrapURI uri' trk').
Proof.
  split; [|split; [|split; [|split; [|split]]]].
  - intros uri. reflexivity.
  - intros uri t1 t2. unfold wrapURI, impressions.
    cbn [normalizeTrackers fmap list_fmap join_empty].
    rewrite app_empty_r, (app_assoc_s (impressionElement t1)). reflexivity.
  - split; [discriminate|].
    split; [vm_compute; reflexivity|].
    split.
    { exists ("<VAST version=" +:+ dq +:+ "3.0" +:+ dq +:+ ">" +:+ nl +:+
              "    <Ad>" +:+ nl +:+ "      <Wrapper>" +:+ nl +:+
              "        <AdSystem>prebid.org wrapper</AdSystem>" +:+ nl +:+
              "        ").
      vm_compute; reflexivity. }
    split; [exists (nl +:+ "        "); vm_compute; reflexivity|].
    split; vm_compute; reflexivity.
  - intros uri Hu. unfold wrapURI. cbn [ToString_str].
    change (impressions NoTrackers) with "".
    rewrite (occurrences_wrapURI "Impression>" uri "" eq_refl eq_refl Hu eq_refl).
    reflexivity.
  - intros uri t1 t2 Hu H1 H2. unfold wrapURI. cbn [ToString_str].
    destruct (free_of_no_occurrence "<"%char "Impression>" uri Hu) as [Hu0 Hus].
    rewrite (occurrences_app "<"%char "Impression>" wrapper_head _ eq_refl).
    rewrite (occurrences_app "<"%char "Impression>" uri _ Hus).
    rewrite (occurrences_app "<"%char "Impression>" wrapper_mid _ eq_refl).
    unfold impressions; cbn [normalizeTrackers fmap list_fmap join_empty].
    rewrite app_empty_r, (app_assoc_s (impressionElement t1)).
    rewrite (impressionElement_occurrences t1 _ H1).
    rewrite (impressionElement_occurrences t2 _ H2).
    rewrite Hu0. reflexivity.
  - intros uri uri' trk trk' -> ->. reflexivity.
Qed.

Lemma wrapURI_document_witness :
  occurrences "<Impression>" (wrapURI (Some "http://x/vast.xml") NoTrackers) = 0%nat /\
  occurrences "<Impression>"
    (wrapURI (Some "http://x/vast.xml") (TrackerList ["http://t/1"; "http://t/2"])) = 2%nat /\
  wrapURI (Some "http://x/vast.xml") NoTrackers = wrapURI (Some "http://x/vast.xml") NoTrackers.
Proof.
  destruct wrapURI_document as (_ & _ & _ & H0 & H2 & Hd).
  split; [apply H0; reflexivity|].
  split; [apply H2; reflexivity|].
  apply Hd; reflexivity.
Defined.

(** ** Base64 *)

Lemma N_of_ascii_bound a : (N_of_ascii a < 256)%N.
Proof. destruct a as [[] [] [] [] [] [] [] []]; reflexivity. Qed.

Lemma digit_alphabet (n : N) : (n < 64)%N ->
  match String.get (N.to_nat n) Base64.alphabet with Some c => c | None => "?"%char end = Base64.digit n.
Proof.
  intros Hn. unfold Base64.digit.
  destruct (String.get (N.to_nat n) Base64.alphabet) eqn:H; [reflexivity|].
  exfalso. 
  assert (Hlen : (N.to_nat n < String.length Base64.alphabet)%nat) by (cbn; lia).
  revert H. generalize Hlen. generalize (N.to_nat n) Base64.alphabet. clear.
  intros i s. revert i. induction s as [|c s IH]; intros [|i] Hi; cbn in *; try lia; try discriminate.
  apply IH. lia.
Qed.


Section Base64Spec.

Local Ltac Zify.zify_post_hook ::= Z.to_euclidean_division_equations.

Lemma sextet_arith (x y : N) :
  (x < 256 -> y < 256 ->
   ((x * 256 + y) / 1024) mod 64 = x / 4 /\
   ((x * 256 + y) / 16) mod 64 = (x mod 4) * 16 + y / 16 /\
   ((x * 256 + y) / 64) mod 64 = (x mod 16) * 4 + y / 64 /\
   ((x * 256 + y) / 256) mod 64 = x mod 64)%N.
Proof. intros Hx Hy. repeat split; lia. Qed.

Lemma digit_bound (x y : N) :
  (x < 256 -> y < 256 ->
   x / 4 < 64 /\ (x mod 4) * 16 + y / 16 < 64 /\ (x mod 16) * 4 + y / 64 < 64 /\
   x mod 64 < 64)%N.
Proof. intros Hx Hy. repeat split; lia. Qed.

Lemma byte_at_bound (bytes : string) (i : nat) : (byte_at bytes i < 256)%N.
Proof.
  unfold byte_at. destruct (String.get i bytes); [apply N_of_ascii_bound | reflexivity].
Qed.

(** The first four characters, from the first three bytes, the missing
    ones read as zero. *)
Lemma sextet_group (bytes : string) :
  let x := byte_at bytes 0 in
  let y := byte_at bytes 1 in
  let z := byte_at bytes 2 in
  sextet_char bytes 0 = Base64.digit (x / 4) /\
  sextet_char bytes 1 = Base64.digit ((x mod 4) * 16 + y / 16) /\
  sextet_char bytes 2 = Base64.digit ((y mod 16) * 4 + z / 64) /\
  sextet_char bytes 3 = Base64.digit (z mod 64).
Proof.
  intros x y z.
  pose proof (byte_at_bound bytes 0) as Hx. pose proof (byte_at_bound bytes 1) as Hy.
  pose proof (byte_at_bound bytes 2) as Hz. pose proof (byte_at_bound bytes 3) as Hw.
  fold x in Hx. fold y in Hy. fold z in Hz.
  unfold sextet_char, sextet.
  change (6 * 0 / 8)%nat with 0%nat. change (6 * 1 / 8)%nat with 0%nat.
  change (6 * 2 / 8)%nat with 1%nat. change (6 * 3 / 8)%nat with 2%nat.
  change (2 ^ (10 - N.of_nat (6 * 0 mod 8)))%N with 1024%N.
  change (2 ^ (10 - N.of_nat (6 * 1 mod 8)))%N with 16%N.
  change (2 ^ (10 - N.of_nat (6 * 2 mod 8)))%N with 64%N.
  change (2 ^ (10 - N.of_nat (6 * 3 mod 8)))%N with 256%N.
  fold x y z.
  set (w := byte_at bytes 3) in *.
  destruct (sextet_arith x y Hx Hy) as (-> & -> & _ & _).
  destruct (sextet_arith y z Hy Hz) as (_ & _ & -> & _).
  destruct (sextet_arith z w Hz Hw) as (_ & _ & _ & ->).
  destruct (digit_bound x y Hx Hy) as (H0 & H1 & _ & _).
  destruct (digit_bound y z Hy Hz) as (_ & _ & H2 & _).
  destruct (digit_bound z w Hz Hw) as (_ & _ & _ & H3).
  rewrite !digit_alphabet by assumption. auto.
Qed.

Lemma sextet_skip (a b c : ascii) (rest : string) (j : nat) :
  sextet (String a (String b (String c rest))) (4 + j) = sextet rest j.
Proof.
  unfold sextet.
  replace (6 * (4 + j))%nat with (6 * j + 3 * 8)%nat by lia.
  rewrite Nat.div_add, Nat.Div0.mod_add by lia.
  replace (6 * j / 8 + 3)%nat with (3 + 6 * j / 8)%nat by lia.
  reflexivity.
Qed.

Lemma btoa_base64 (bytes : string) : base64_of bytes (Base64.btoa bytes).
Proof.
  assert (H : forall s a b,
             base64_of s (Base64.btoa s) /\
             base64_of (String a s) (Base64.btoa (String a s)) /\
             base64_of (String a (String b s)) (Base64.btoa (String a (String b s)))).
  2: { apply (H bytes "a"%char "a"%char). }
  clear bytes. induction s as [|c s IH]; intros a b.
  - split; [|split].
    + split; [reflexivity|]. intros j Hj. cbn in Hj. lia.
    + split; [reflexivity|]. intros j Hj.
      change (String.length (String a "")) with 1%nat in *.
      destruct (sextet_group (String a "")) as (H0 & H1 & _ & _).
      change (byte_at (String a "") 1) with 0%N in H1.
      change (0 / 16)%N with 0%N in H1. rewrite N.add_0_r in H1.
      destruct j as [|[|[|[|j]]]]; try (cbn in Hj; lia).
      * exact (f_equal Some (eq_sym H0)).
      * exact (f_equal Some (eq_sym H1)).
      * reflexivity.
      * reflexivity.
    + split; [reflexivity|]. intros j Hj.
      change (String.length (String a (String b ""))) with 2%nat in *.
      destruct (sextet_group (String a (String b ""))) as (H0 & H1 & H2 & _).
      change (byte_at (String a (String b "")) 2) with 0%N in H2.
      change (0 / 64)%N with 0%N in H2. rewrite N.add_0_r in H2.
      destruct j as [|[|[|[|j]]]]; try (cbn in Hj; lia).
      * exact (f_equal Some (eq_sym H0)).
      * exact (f_equal Some (eq_sym H1)).
      * exact (f_equal Some (eq_sym H2)).
      * reflexivity.
  - destruct (IH a c) as (Hs & _ & H2).
    destruct (IH c c) as (_ & H1 & _).
    split; [exact H1|]. split; [exact H2|].
    destruct Hs as [Hlen Hpos].
    destruct (sextet_group (String a (String b (String c s)))) as (G0 & G1 & G2 & G3).
    set (n := String.length s) in *.
    unfold base64_of.
    change (String.length (String a (String b (String c s)))) with (3 + n)%nat.
    cbn zeta.
    assert (Hgroups : ((3 + n + 2) / 3 = 1 + (n + 2) / 3)%nat).
    { replace (3 + n + 2)%nat with (n + 2 + 1 * 3)%nat by lia.
      rewrite Nat.div_add by lia. lia. }
    assert (Hsext : ((8 * (3 + n) + 5) / 6 = 4 + (8 * n + 5) / 6)%nat).
    { replace (8 * (3 + n) + 5)%nat with (8 * n + 5 + 4 * 6)%nat by lia.
      rewrite Nat.div_add by lia. lia. }
    split.
    + change (String.length (Base64.btoa (String a (String b (String c s)))))
        with (4 + String.length (Base64.btoa s))%nat.
      rewrite Hlen, Hgroups. lia.
    + intros j Hj. rewrite Hgroups in Hj. rewrite Hsext.
      destruct j as [|[|[|[|j]]]].
      * exact (f_equal Some (eq_sym G0)).
      * exact (f_equal Some (eq_sym G1)).
      * exact (f_equal Some (eq_sym G2)).
      * exact (f_equal Some (eq_sym G3)).
      * change (String.get (S (S (S (S j)))) (Base64.btoa (String a (String b (String c s)))))
          with (String.get j (Base64.btoa s)).
        rewrite Hpos by lia.
        change (S (S (S (S j)))) with (4 + j)%nat.
        unfold sextet_char. rewrite sextet_skip.
        replace (4 + j <? 4 + (8 * n + 5) / 6)%nat with (j <? (8 * n + 5) / 6)%nat; [reflexivity|].
        destruct (Nat.ltb_spec j ((8 * n + 5) / 6)), (Nat.ltb_spec (4 + j) (4 + (8 * n + 5) / 6)); lia || reflexivity.
Qed.
End Base64Spec.

(** ** Content resolution shared by the remote and the local store *)

Lemma latin1_ascii (s : string) : ascii_only s = true -> latin1 s = Some s.
Proof.
  induction s as [|a s IH]; [reflexivity|].
  cbn [ascii_only latin1]. intros [Ha Hs]%andb_prop.
  rewrite Ha, (IH Hs). reflexivity.
Qed.

Lemma btoa_ascii (s : string) : ascii_only s = true -> btoa s = Some (Base64.btoa s).
Proof. intros Hs. unfold btoa. rewrite (latin1_ascii s Hs). reflexivity. Qed.

Lemma storeLocally_Returned (r : loc) (w : World) (encoded : string) :
  btoa (getVastValue (heap w r)) = Some encoded ->
  storeLocally r w = Returned (stored_world r ("data:text/xml;base64," +:+ encoded) w).
Proof.
  intros Henc. unfold storeLocally. rewrite Henc.
  unfold stored_world, set_cache, write_bid; cbn [heap vastsLocalCache trace].
  rewrite fn_lookup_insert. reflexivity.
Qed.

Lemma storeLocally_Threw (r : loc) (w : World) :
  btoa (getVastValue (heap w r)) = None -> storeLocally r w = Threw w.
Proof. intros Henc. unfold storeLocally. rewrite Henc. reflexivity. Qed.

(** C6: for every bid, the payload value of [toStorageRequest] and the
    content [storeLocally] encodes are the same text, the one the content
    rule of the specification gives ([vastXml] verbatim when present and
    non-empty, otherwise the wrapper around [vastUrl] with the bid's
    impression trackers).  When no character of that text is above
    [U+00FF], [storeLocally] returns after writing the data URI of the
    text, its bytes in base64 as RFC 4648 defines it, into the bid's
    [vastUrl] and recording the same data URI in the local map, under
    the bid's key; for a text of ASCII characters the bytes are the text
    itself.  When a character is above [U+00FF], [btoa] throws and
    [storeLocally] is left with the bid and the map as they were. *)
Theorem storeLocally_same_content (StringToNumber : string -> number)
    (cfg : Config) (index : AuctionIndex) (r : loc) (w : World) :
  let bid := heap w r in
  let content := p_value (toStorageRequest StringToNumber cfg index bid) in
  content = spec_vastContent bid /\
  (forall bytes,
      latin1 content = Some bytes ->
      let dataUri := "data:text/xml;base64," +:+ Base64.btoa bytes in
      base64_of bytes (Base64.btoa bytes) /\
      exists w',
        storeLocally r w = Returned w' /\
        heap w' = <[r := set_vastUrl (Some dataUri) bid]> (heap w) /\
        vastUrl (heap w' r) = Some dataUri /\
        vastsLocalCache w' =
          <[getLocalCacheBidId bid := dataUri]> (vastsLocalCache w) /\
        vastsLocalCache w' !! getLocalCacheBidId bid = Some dataUri /\
        trace w' = trace w) /\
  (ascii_only content = true -> latin1 content = Some content) /\
  (latin1 content = None -> storeLocally r w = Threw w).
Proof.
  intros bid content.
  split; [apply getVastValue_spec|].
  split; [|split].
  - intros bytes Hbytes dataUri.
    split; [apply btoa_base64|].
    exists (stored_world r dataUri w).
    split.
    { apply storeLocally_Returned. unfold btoa.
      change (getVastValue (heap w r)) with content. rewrite Hbytes. reflexivity. }
    unfold stored_world; cbn [heap vastsLocalCache trace].
    split; [reflexivity|].
    split; [rewrite fn_lookup_insert; reflexivity|].
    split; [reflexivity|].
    split; [apply lookup_insert_eq | reflexivity].
  - apply latin1_ascii.
  - intros Hnone. apply storeLocally_Threw. unfold btoa.
    change (getVastValue (heap w r)) with content. rewrite Hnone. reflexivity.
Qed.

Lemma storeLocally_same_content_witness :
  exists w',
    storeLocally 1%nat Sample.world0 = Returned w' /\
    vastUrl (heap w' 1%nat) = Some "data:text/xml;base64,PFZBU1QvPg==" /\
    vastsLocalCache w' !! "other_ad2" = Some "data:text/xml;base64,PFZBU1QvPg==".
Proof.
  destruct (storeLocally_same_content Sample.StringToNumber Sample.cfg (fun _ => None)
              1%nat Sample.world0) as (_ & Hstore & _ & _).
  destruct (Hstore "<VAST/>" eq_refl) as (_ & w' & Hrun & _ & Hurl & _ & Hmap & _).
  exists w'. split; [exact Hrun|]. split; [exact Hurl | exact Hmap].
Defined.

(** The failing input of C6: a VAST document that names a price in
    euros.  The euro sign is above [U+00FF], [btoa] throws, and
    [storeLocally] leaves the bid without the data URI and the map
    without an entry, while [toStorageRequest] translates the same bid. *)
Lemma storeLocally_same_content_counterexample :
  p_value (toStorageRequest Sample.StringToNumber Sample.cfg (fun _ => None)
             SampleText.bid_euro) =
    "<VAST><AdTitle>10 " +:+ SampleText.euro +:+ "</AdTitle></VAST>" /\
  btoa ("<VAST><AdTitle>10 " +:+ SampleText.euro +:+ "</AdTitle></VAST>") = None /\
  storeLocally 0%nat SampleText.world_euro = Threw SampleText.world_euro /\
  vastUrl (heap SampleText.world_euro 0%nat) = None /\
  vastsLocalCache SampleText.world_euro !! "nexverse_ad3" = None.
Proof. repeat split. Qed.

(** Base64 on the test vectors of RFC 4648, and on a character between
    [U+0080] and [U+00FF]. *)
Example btoa_vectors :
  btoa "" = Some "" /\ btoa "f" = Some "Zg==" /\ btoa "fo" = Some "Zm8=" /\
  btoa "foo" = Some "Zm9v" /\ btoa "foob" = Some "Zm9vYg==" /\
  btoa "fooba" = Some "Zm9vYmE=" /\ btoa "foobar" = Some "Zm9vYmFy" /\
  btoa SampleText.e_acute = Some "6Q==" /\
  btoa SampleText.euro = None.
Proof. repeat split. Qed.

(** ** ResponseAdapter and StoreOrchestrator *)

Section Orchestrator.

Variable JSON_parse : string -> option json.
Variable cfg : Config.

Lemma storeBatch_done_error (batch : list BatchEntry) (e : StoreError)
    (cacheIds : json) (w : World) :
  storeBatch_done cfg batch (Some e) cacheIds w =
  Returned (emit [EvLogFailedToSave e (bidResponse <$> batch)] w).
Proof. reflexivity. Qed.

Lemma shim_success_array (done : option StoreError -> json -> World -> Outcome)
    (body : string) (v : json) (ids : list json) (w : World) :
  JSON_parse body = Some v ->
  get_prop v "responses" = Some (Some (JArr ids)) ->
  shimStorageCallback JSON_parse done (AjaxSuccess body) w = done None (JArr ids) w.
Proof.
  intros Hp Hr. unfold shimStorageCallback, shim_success.
  rewrite Hp. cbn [mbind option_bind]. rewrite Hr. reflexivity.
Qed.

(** C1: when the store call succeeds and the [responses] array does not
    have the length of the batch, the handler returns after reporting
    ["expected <batch length> cache IDs, got <array length> instead"]:
    no bid object is written (so none acquires a [videoCacheKey]), the
    local map is untouched and the trace gains that one error report,
    hence no [addBidToAuction] call and no completion callback. *)
Theorem storeBatch_count_mismatch (batch : list BatchEntry) (body : string)
    (v : json) (ids : list json) (w : World) :
  JSON_parse body = Some v ->
  get_prop v "responses" = Some (Some (JArr ids)) ->
  List.length ids <> List.length batch ->
  exists w',
    storeBatch_response JSON_parse cfg batch (AjaxSuccess body) w = Returned w' /\
    heap w' = heap w /\
    vastsLocalCache w' = vastsLocalCache w /\
    trace w' = trace w ++
      [EvLogError ("expected " +:+ nat_to_string (List.length batch) +:+
                   " cache IDs, got " +:+ nat_to_string (List.length ids) +:+
                   " instead")].
Proof.
  intros Hp Hr Hlen. unfold storeBatch_response.
  rewrite (shim_success_array _ body v ids w Hp Hr).
  unfold storeBatch_done. cbn [get_length count_strict_neq].
  destruct (Nat.eqb_spec (List.length batch) (List.length ids)) as [Heq|Hne].
  - exfalso. apply Hlen. lia.
  - cbn [negb]. eexists. split; [reflexivity|]. repeat split.
Qed.

(** C7: when [JSON.parse] throws on the response body, or the parsed
    value has no [responses] property, or the transport reports an
    error, the adapter calls the completion callback with an error and
    the empty list; [storeBatch] then only reports the failure: no bid
    object is written, nothing is added to an auction and no
    completion callback of the batch runs. *)
Theorem storeBatch_failure_discards (batch : list BatchEntry)
    (r : AjaxResult) (w : World) :
  match r with
  | AjaxError _ _ => True
  | AjaxSuccess body =>
      JSON_parse body = None \/
      exists v, JSON_parse body = Some v /\ get_prop v "responses" = Some None
  end ->
  exists e,
    (forall done, shimStorageCallback JSON_parse done r w = done (Some e) (JArr []) w) /\
    exists w',
      storeBatch_response JSON_parse cfg batch r w = Returned w' /\
      heap w' = heap w /\
      vastsLocalCache w' = vastsLocalCache w /\
      trace w' = trace w ++ [EvLogFailedToSave e (bidResponse <$> batch)].
Proof.
  intros Hr.
  assert (Hshim : exists e, forall done,
             shimStorageCallback JSON_parse done r w = done (Some e) (JArr []) w).
  { destruct r as [body | statusText body].
    - destruct Hr as [Hp | (v & Hp & Hv)].
      + exists ParseException. intros done.
        unfold shimStorageCallback, shim_success. rewrite Hp. reflexivity.
      + exists MissingResponses. intros done.
        unfold shimStorageCallback, shim_success. rewrite Hp.
        cbn [mbind option_bind]. rewrite Hv. reflexivity.
    - exists (TransportError statusText body). intros done. reflexivity. }
  destruct Hshim as [e He]. exists e. split; [exact He|].
  unfold storeBatch_response. rewrite He, storeBatch_done_error.
  eexists. split; [reflexivity|]. repeat split.
Qed.

End Orchestrator.

Section Attribution.

Variable JSON_parse : string -> option json.
Variable cfg : Config.

Lemma attribute_position (batch : list BatchEntry) (cacheId : json)
    (i : nat) (entry : BatchEntry) (u : string) (w : World) :
  batch !! i = Some entry ->
  get_prop cacheId "uuid" = Some (Some (JStr u)) ->
  attribute cfg batch cacheId i w = Returned (admit_position cfg w (entry, u)).
Proof.
  intros Hi Hu. unfold attribute, admit_position, position_events.
  rewrite Hi, Hu. cbn [is_empty_string fst snd].
  destruct (String.eqb_spec u "") as [->|Hne].
  - rewrite decide_True by reflexivity. reflexivity.
  - rewrite !decide_False by exact Hne.
    unfold accepted_bid, truthy_str, getCacheUrl, retrieval_url.
    destruct (heap w (bidResponse entry)) as [? ? ? ? ? ? vu ? ? ? ?].
    cbn [vastUrl videoCacheKey set_videoCacheKey ToString ToString_json fmap option_fmap
         option_map].
    destruct vu as [url|]; [|reflexivity].
    destruct (String.eqb_spec url "") as [->|Hu'].
    + rewrite decide_True by reflexivity. reflexivity.
    + rewrite decide_False by exact Hu'. reflexivity.
Qed.

Lemma forEach_attribute (batch : list BatchEntry) :
  forall (ids : list json) (uuids : list string) (i : nat) (w : World),
    Forall2 (fun c u => get_prop c "uuid" = Some (Some (JStr u))) ids uuids ->
    (i + List.length ids <= List.length batch)%nat ->
    forEach_from (attribute cfg batch) i ids w =
    Returned (foldl (admit_position cfg) w (zip (drop i batch) uuids)).
Proof.
  intros ids uuids i w H. revert i w.
  induction H as [|c u ids uuids Hc _ IH]; intros i w Hlen.
  - cbn. destruct (drop i batch); reflexivity.
  - cbn [List.length] in Hlen.
    destruct (lookup_lt_is_Some_2 batch i ltac:(lia)) as [entry Hi].
    cbn [forEach_from].
    rewrite (attribute_position batch c i entry u w Hi Hc).
    rewrite IH by lia.
    rewrite (drop_S batch entry i Hi). reflexivity.
Qed.

Lemma admit_position_heap_other (w : World) (p : BatchEntry * string) (r : loc) :
  r <> bidResponse p.1 -> heap (admit_position cfg w p) r = heap w r.
Proof.
  intros Hr. unfold admit_position. cbn [emit heap].
  destruct (decide (p.2 = "")); [reflexivity|].
  cbn [write_bid heap]. apply fn_lookup_insert_ne. congruence.
Qed.

Lemma foldl_admit_heap_other (ps : list (BatchEntry * string)) :
  forall (w : World) (r : loc),
    r ∉ (bidResponse ∘ fst) <$> ps ->
    heap (foldl (admit_position cfg) w ps) r = heap w r.
Proof.
  induction ps as [|p ps IH]; intros w r Hr; [reflexivity|].
  cbn [foldl]. rewrite fmap_cons in Hr.
  apply not_elem_of_cons in Hr as [Hne Hr].
  rewrite IH by exact Hr. apply admit_position_heap_other. exact Hne.
Qed.

Lemma foldl_admit_cache (ps : list (BatchEntry * string)) :
  forall w : World,
    vastsLocalCache (foldl (admit_position cfg) w ps) = vastsLocalCache w.
Proof.
  induction ps as [|p ps IH]; intros w; [reflexivity|].
  cbn [foldl]. rewrite IH. unfold admit_position.
  destruct (decide (p.2 = "")); reflexivity.
Qed.

Lemma foldl_admit_heap_at (ps : list (BatchEntry * string)) :
  forall (w : World) (i : nat) (e : BatchEntry) (u : string),
    NoDup ((bidResponse ∘ fst) <$> ps) ->
    ps !! i = Some (e, u) ->
    heap (foldl (admit_position cfg) w ps) (bidResponse e) =
    if decide (u = "") then heap w (bidResponse e)
    else accepted_bid cfg u (heap w (bidResponse e)).
Proof.
  induction ps as [|p ps IH]; intros w i e u Hnd Hi; [discriminate|].
  rewrite fmap_cons in Hnd. apply list.NoDup_cons in Hnd as [Hnotin Hnd].
  cbn [foldl]. destruct i as [|i].
  - injection Hi as ->. rewrite foldl_admit_heap_other by exact Hnotin.
    unfold admit_position; cbn [fst snd emit heap].
    destruct (decide (u = "")); [reflexivity|].
    cbn [write_bid heap]. apply fn_lookup_insert.
  - cbn in Hi. rewrite (IH _ i e u Hnd Hi).
    assert (Hne : bidResponse e <> bidResponse p.1).
    { intros Heq. apply Hnotin. apply list_elem_of_fmap.
      exists (e, u). split; [cbn; congruence|].
      apply (list_elem_of_lookup_2 _ i). exact Hi. }
    rewrite !admit_position_heap_other by exact Hne. reflexivity.
Qed.

Lemma foldl_admit_trace (ps : list (BatchEntry * string)) :
  forall w : World,
    NoDup ((bidResponse ∘ fst) <$> ps) ->
    trace (foldl (admit_position cfg) w ps) =
    trace w ++
    mjoin ((fun p => position_events cfg p.1 p.2 (heap w (bidResponse p.1))) <$> ps).
Proof.
  induction ps as [|p ps IH]; intros w Hnd.
  - cbn. rewrite app_nil_r. reflexivity.
  - rewrite fmap_cons in Hnd. apply list.NoDup_cons in Hnd as [Hnotin Hnd].
    cbn [foldl]. rewrite (IH _ Hnd).
    rewrite fmap_cons. cbn [mjoin list_join].
    assert (Htr : trace (admit_position cfg w p) =
                  trace w ++ position_events cfg p.1 p.2 (heap w (bidResponse p.1))).
    { unfold admit_position. cbn [emit trace].
      destruct (decide (p.2 = "")); reflexivity. }
    rewrite Htr, <- app_assoc. f_equal. f_equal. f_equal.
    apply Forall_fmap_ext_1, list.Forall_forall. intros q Hq.
    rewrite admit_position_heap_other; [reflexivity|].
    intros Heq. apply Hnotin.
    apply list_elem_of_fmap. exists q. split; [cbn; congruence | exact Hq].
Qed.

End Attribution.

Lemma accepted_bid_fields (cfg : Config) (u : string) (b : Bid) :
  videoCacheKey (accepted_bid cfg u b) = Some (JStr u) /\
  vastUrl (accepted_bid cfg u b) =
    (if truthy_str (vastUrl b) then vastUrl b
     else Some (cache_url cfg +:+ "?uuid=" +:+ u)) /\
  vastXml (accepted_bid cfg u b) = vastXml b /\
  ttl (accepted_bid cfg u b) = ttl b.
Proof.
  unfold accepted_bid, retrieval_url, truthy_str; cbn.
  repeat split.
  destruct (vastUrl b) as [url|]; [|reflexivity].
  destruct (decide (url = "")) as [->|Hne]; [reflexivity|].
  destruct (String.eqb_spec url ""); [contradiction | reflexivity].
Qed.

(** C2: on a successful flush whose [responses] array has the length of
    the batch and carries string identifiers, the handler returns after
    treating the positions in order, each by [admit_position]: an empty
    identifier only logs the warning; a non-empty one is written to the
    bid's [videoCacheKey], the retrieval URL [<cache.url>?uuid=<id>] is
    written to its [vastUrl] exactly when that was absent or empty, and
    the bid goes to [addBidToAuction] followed by its completion
    callback.  When the entries hold distinct bids, the final state of a
    bid and the events of a position depend on that position alone. *)
Theorem storeBatch_attribution (JSON_parse : string -> option json)
    (cfg : Config) (batch : list BatchEntry) (body : string) (v : json)
    (ids : list json) (uuids : list string) (w : World) :
  JSON_parse body = Some v ->
  get_prop v "responses" = Some (Some (JArr ids)) ->
  Forall2 (fun c u => get_prop c "uuid" = Some (Some (JStr u))) ids uuids ->
  List.length ids = List.length batch ->
  exists w',
    storeBatch_response JSON_parse cfg batch (AjaxSuccess body) w = Returned w' /\
    w' = foldl (admit_position cfg) w (zip batch uuids) /\
    vastsLocalCache w' = vastsLocalCache w /\
    (NoDup (bidResponse <$> batch) ->
     trace w' = trace w ++
       mjoin ((fun p => position_events cfg p.1 p.2 (heap w (bidResponse p.1)))
                <$> zip batch uuids) /\
     (forall i e u,
         batch !! i = Some e -> uuids !! i = Some u ->
         heap w' (bidResponse e) =
         if decide (u = "") then heap w (bidResponse e)
         else accepted_bid cfg u (heap w (bidResponse e))) /\
     (forall r, r ∉ bidResponse <$> batch -> heap w' r = heap w r)).
Proof.
  intros Hp Hr Hids Hlen.
  pose proof (list.Forall2_length _ _ _ Hids) as Hlen2.
  assert (Hfst : (bidResponse ∘ fst) <$> zip batch uuids = bidResponse <$> batch).
  { rewrite list_fmap_compose, fst_zip by lia. reflexivity. }
  exists (foldl (admit_position cfg) w (zip batch uuids)).
  split.
  { unfold storeBatch_response.
    rewrite (shim_success_array JSON_parse _ body v ids w Hp Hr).
    unfold storeBatch_done. cbn [get_length count_strict_neq].
    rewrite Hlen, Nat.eqb_refl. cbn [negb].
    rewrite (forEach_attribute cfg batch ids uuids 0 w Hids) by (cbn; lia).
    reflexivity. }
  split; [reflexivity|].
  split; [apply foldl_admit_cache|].
  intros Hnd. rewrite <- Hfst in Hnd.
  split; [apply foldl_admit_trace; exact Hnd|].
  split.
  - intros i e u Hi Hu.
    apply (foldl_admit_heap_at cfg _ w i e u Hnd).
    apply lookup_zip_with_Some. exists e, u. auto.
  - intros r Hnotin. apply foldl_admit_heap_other. rewrite Hfst. exact Hnotin.
Qed.

Lemma storeBatch_count_mismatch_witness :
  List.length [Sample.id_of "k1"] <> List.length Sample.batch2 /\
  exists w',
    storeBatch_response Sample.parse Sample.cfg Sample.batch2 (AjaxSuccess "one")
      Sample.world0 = Returned w' /\
    heap w' = heap Sample.world0 /\
    vastsLocalCache w' = vastsLocalCache Sample.world0 /\
    trace w' = trace Sample.world0 ++ [EvLogError "expected 2 cache IDs, got 1 instead"].
Proof.
  split; [cbn; discriminate|].
  apply (storeBatch_count_mismatch Sample.parse Sample.cfg Sample.batch2 "one"
           (JObj [("responses", JArr [Sample.id_of "k1"])]) [Sample.id_of "k1"]).
  - reflexivity.
  - reflexivity.
  - cbn; discriminate.
Defined.

Lemma storeBatch_failure_discards_witness :
  exists e,
    (forall done,
        shimStorageCallback Sample.parse done (AjaxSuccess "<html>") Sample.world0 =
        done (Some e) (JArr []) Sample.world0) /\
    exists w',
      storeBatch_response Sample.parse Sample.cfg Sample.batch2 (AjaxSuccess "<html>")
        Sample.world0 = Returned w' /\
      heap w' = heap Sample.world0 /\
      vastsLocalCache w' = vastsLocalCache Sample.world0 /\
      trace w' = trace Sample.world0 ++
                 [EvLogFailedToSave e (bidResponse <$> Sample.batch2)].
Proof.
  apply (storeBatch_failure_discards Sample.parse Sample.cfg Sample.batch2
           (AjaxSuccess "<html>") Sample.world0).
  left. reflexivity.
Defined.

Lemma storeBatch_attribution_witness :
  NoDup (bidResponse <$> Sample.batch2) /\
  exists w',
    storeBatch_response Sample.parse Sample.cfg Sample.batch2 (AjaxSuccess "two")
      Sample.world0 = Returned w' /\
    w' = foldl (admit_position Sample.cfg) Sample.world0 (zip Sample.batch2 ["k1"; ""]) /\
    vastsLocalCache w' = vastsLocalCache Sample.world0 /\
    (NoDup (bidResponse <$> Sample.batch2) ->
     trace w' = trace Sample.world0 ++
       mjoin ((fun p => position_events Sample.cfg p.1 p.2
                          (heap Sample.world0 (bidResponse p.1)))
                <$> zip Sample.batch2 ["k1"; ""]) /\
     (forall i e u,
         Sample.batch2 !! i = Some e -> ["k1"; ""] !! i = Some u ->
         heap w' (bidResponse e) =
         if decide (u = "") then heap Sample.world0 (bidResponse e)
         else accepted_bid Sample.cfg u (heap Sample.world0 (bidResponse e))) /\
     (forall r, r ∉ bidResponse <$> Sample.batch2 -> heap w' r = heap Sample.world0 r)).
Proof.
  split.
  - cbn. apply list.NoDup_cons. split; [|apply NoDup_singleton].
    intros H. apply list_elem_of_singleton in H. discriminate.
  - apply (storeBatch_attribution Sample.parse Sample.cfg Sample.batch2 "two"
             (JObj [("responses", JArr [Sample.id_of "k1"; Sample.id_of ""])])
             [Sample.id_of "k1"; Sample.id_of ""] ["k1"; ""]).
    + reflexivity.
    + reflexivity.
    + repeat constructor.
    + reflexivity.
Defined.

(** The sample flush, evaluated: the first bid is keyed, gets the
    retrieval URL only if it had no [vastUrl] (it had one), and is
    admitted; the second identifier is empty, so the second bid is only
    warned about. *)
Example storeBatch_attribution_sample :
  exists w',
    storeBatch_response Sample.parse Sample.cfg Sample.batch2 (AjaxSuccess "two")
      Sample.world0 = Returned w' /\
    videoCacheKey (heap w' 0%nat) = Some (JStr "k1") /\
    vastUrl (heap w' 0%nat) = Some "http://x/vast.xml" /\
    heap w' 1%nat = Sample.bid_xml /\
    trace w' =
      [EvAddBidToAuction 7%nat 0%nat (heap w' 0%nat); EvAfterBidAdded 100%nat;
       EvLogWarn rejected_key_warning].
Proof. eexists. split; [reflexivity|]. repeat split. Qed.

(** ** LocalCacheStore: cleanup on expiry *)

Lemma lookup_foldl_delete {A} (f : A -> string) (rs : list A) :
  forall (m : gmap string string) (k : string),
    foldl (fun m r => delete (f r) m) m rs !! k =
    if decide (k ∈ f <$> rs) then None else m !! k.
Proof.
  induction rs as [|r rs IH]; intros m k.
  - cbn. rewrite decide_False; [reflexivity | apply not_elem_of_nil].
  - cbn [foldl]. rewrite IH, fmap_cons.
    destruct (decide (k ∈ f <$> rs)) as [Hin|Hnotin].
    + rewrite decide_True; [reflexivity | apply elem_of_cons; right; exact Hin].
    + destruct (decide (k = f r)) as [->|Hne].
      * rewrite decide_True by (apply elem_of_cons; left; reflexivity).
        apply lookup_delete_eq.
      * rewrite decide_False.
        -- apply lookup_delete_ne. congruence.
        -- intros [Heq|Hin]%elem_of_cons; contradiction.
Qed.

(** C9: once the local mode is configured, handling the expiry of an
    auction removes from the local map the entry of every bid the auction
    received and leaves every other key of the map as it was, in
    particular the entries of the bids of other auctions; bids and trace
    are untouched. *)
Theorem expiry_removes_auction_entries (cache : CacheConfig) (m : ModuleVars)
    (auction : Auction) (w : World) :
  cfg_useLocal cache = true ->
  let w' := notifyExpiry (applyCacheConfig true cache m) auction w in
  (forall r, r ∈ getBidsReceived auction ->
             vastsLocalCache w' !! getLocalCacheBidId (heap w r) = None) /\
  (forall k, k ∉ (fun r => getLocalCacheBidId (heap w r)) <$> getBidsReceived auction ->
             vastsLocalCache w' !! k = vastsLocalCache w !! k) /\
  (forall r', (forall r, r ∈ getBidsReceived auction ->
                         getLocalCacheBidId (heap w r) <> getLocalCacheBidId (heap w r')) ->
              vastsLocalCache w' !! getLocalCacheBidId (heap w r') =
              vastsLocalCache w !! getLocalCacheBidId (heap w r')) /\
  heap w' = heap w /\ trace w' = trace w.
Proof.
  intros Hlocal w'.
  assert (Hw' : w' = expiryHandler auction w).
  { unfold w', notifyExpiry, applyCacheConfig, cacheSubscriber; cbn [cleanupHandler].
    rewrite Hlocal. destruct (cleanupHandler m); reflexivity. }
  assert (Hlk : forall k, vastsLocalCache w' !! k =
                          if decide (k ∈ (fun r => getLocalCacheBidId (heap w r))
                                           <$> getBidsReceived auction)
                          then None else vastsLocalCache w !! k).
  { intros k. rewrite Hw'. unfold expiryHandler, set_cache; cbn [vastsLocalCache].
    apply lookup_foldl_delete. }
  split; [|split; [|split; [|split]]].
  - intros r Hr. rewrite Hlk, decide_True; [reflexivity|].
    apply list_elem_of_fmap. exists r. split; [reflexivity | exact Hr].
  - intros k Hk. rewrite Hlk, decide_False by exact Hk. reflexivity.
  - intros r' Hr'. rewrite Hlk, decide_False; [reflexivity|].
    intros (r & Heq & Hr)%list_elem_of_fmap. apply (Hr' r Hr). congruence.
  - rewrite Hw'. reflexivity.
  - rewrite Hw'. reflexivity.
Qed.

Lemma expiry_removes_auction_entries_witness :
  let w' := notifyExpiry (applyCacheConfig true SampleLocal.cache_on initialVars)
              SampleLocal.auctionA SampleLocal.world in
  vastsLocalCache SampleLocal.world !! "nexverse_ad1" <> None /\
  vastsLocalCache w' !! getLocalCacheBidId (heap SampleLocal.world 0%nat) = None /\
  vastsLocalCache w' !! getLocalCacheBidId (heap SampleLocal.world 1%nat) =
  vastsLocalCache SampleLocal.world !! getLocalCacheBidId (heap SampleLocal.world 1%nat).
Proof.
  intros w'.
  destruct (expiry_removes_auction_entries SampleLocal.cache_on initialVars
              SampleLocal.auctionA SampleLocal.world eq_refl) as (Hgone & _ & Hkept & _).
  split; [vm_compute; discriminate|].
  split.
  - apply Hgone. apply list_elem_of_singleton. reflexivity.
  - apply Hkept. intros r Hr. apply list_elem_of_singleton in Hr. subst r.
    vm_compute. discriminate.
Defined.

(** ** Batcher *)

Lemma insert_last {A} (init : list A) (x y : A) :
  <[List.length init := x]> (init ++ [y]) = init ++ [x].
Proof. induction init as [|a init IH]; cbn; [reflexivity | f_equal; exact IH]. Qed.

Section Batcher.

Variable m : ModuleVars.

(** [submit] opens a new batch exactly when the last one has reached
    [batchSize], and appends the entry to the last batch. *)
Lemma submit_last (entry : BatchEntry) (init : list (list BatchEntry))
    (cur : list BatchEntry) (d : bool) (ts : list number) (cs : list (list BatchEntry)) :
  submit m entry (mkBatcher (init ++ [cur]) d ts cs) =
  Some (schedule m
          (if ge_js (List.length cur) (batchSize m)
           then init ++ [cur; [entry]]
           else init ++ [cur ++ [entry]])
          d ts cs).
Proof.
  unfold submit, schedule; cbn [batches debouncing timers calls].
  rewrite length_app; cbn [List.length].
  replace (pred (List.length init + 1)) with (List.length init) by lia.
  rewrite list_lookup_middle by reflexivity. cbn [mbind option_bind].
  destruct (ge_js (List.length cur) (batchSize m)).
  - rewrite !length_app; cbn [List.length].
    replace (pred (List.length init + 1 + 1)) with (List.length (init ++ [cur]))
      by (rewrite length_app; cbn; lia).
    rewrite list_lookup_middle by reflexivity. cbn [mbind option_bind].
    rewrite insert_last, <- app_assoc.
    destruct d; [|destruct (gt0_js (batchTimeout m))]; reflexivity.
  - rewrite length_app; cbn [List.length].
    replace (pred (List.length init + 1)) with (List.length init) by lia.
    rewrite list_lookup_middle by reflexivity. cbn [mbind option_bind].
    rewrite insert_last.
    destruct d; [|destruct (gt0_js (batchTimeout m))]; reflexivity.
Qed.

Lemma run_app (evs1 evs2 : list BatcherEvent) (s : BatcherState) :
  run m (evs1 ++ evs2) s = run m evs1 s ≫= run m evs2.
Proof.
  revert s; induction evs1 as [|ev evs1 IH]; intros s; [reflexivity|].
  cbn [app run]. destruct (step m ev s) as [s1|]; [apply IH | reflexivity].
Qed.

End Batcher.

Lemma ceil_div_unique (n k c : Z) :
  0 < k -> k * (c - 1) < n -> n <= k * c -> ceil_div n k = c.
Proof.
  intros Hk Hlo Hhi. unfold ceil_div. symmetry.
  apply (Z.div_unique (n + k - 1) k c (n + k - 1 - k * c)); lia.
Qed.

Lemma length_join_uniform (k : Z) (full : list (list BatchEntry)) :
  Forall (fun b => Z.of_nat (List.length b) = k) full ->
  Z.of_nat (List.length (mjoin full)) = k * Z.of_nat (List.length full).
Proof.
  induction 1 as [|b full Hb _ IH]; [cbn; lia|].
  cbn beta in Hb.
  change (mjoin (b :: full)) with (b ++ mjoin full).
  rewrite length_app. cbn [List.length]. lia.
Qed.

(** A batch counts as full from [K] entries on. *)
Section BatcherConfigured.

Variable m : ModuleVars.
Variable K : Z.
Hypothesis Hge : forall n, ge_js n (batchSize m) = bool_decide (K <= Z.of_nat n).
Hypothesis HK : 0 < K.

Lemma added_bounded (entry : BatchEntry) (init : list (list BatchEntry))
    (cur : list BatchEntry) :
  bounded K (init ++ [cur]) ->
  bounded K (if ge_js (List.length cur) (batchSize m)
             then init ++ [cur; [entry]] else init ++ [cur ++ [entry]]).
Proof.
  unfold bounded. intros [Hinit Hcur]%Forall_app.
  apply Forall_inv in Hcur. cbn beta in Hcur.
  rewrite Hge. case_bool_decide.
  - apply Forall_app. split; [exact Hinit|].
    apply Forall_cons; [exact Hcur|].
    apply Forall_cons; [cbn; lia | apply Forall_nil].
  - apply Forall_app. split; [exact Hinit|].
    apply Forall_singleton. rewrite length_app; cbn. lia.
Qed.

Lemma step_bounded (ev : BatcherEvent) (s : BatcherState) :
  batches s <> [] -> bounded K (batches s) -> bounded K (calls s) ->
  exists s', step m ev s = Some s' /\
             batches s' <> [] /\ bounded K (batches s') /\ bounded K (calls s').
Proof.
  intros Hne Hb Hc. destruct s as [bs d ts cs]; cbn [batches calls] in *.
  assert (Hnil : bounded K [[]]) by (apply Forall_singleton; cbn; lia).
  destruct ev as [entry|].
  - destruct (exists_last Hne) as (init & cur & ->).
    cbn [step]. rewrite submit_last. eexists. split; [reflexivity|].
    pose proof (added_bounded entry init cur Hb) as Hb2.
    assert (Hne2 : (if ge_js (List.length cur) (batchSize m)
                    then init ++ [cur; [entry]] else init ++ [cur ++ [entry]]) <> []).
    { destruct (ge_js _ _); intros H; apply app_eq_nil in H as [_ H]; discriminate. }
    unfold schedule. destruct d; [|destruct (gt0_js (batchTimeout m))];
      cbn [flush batches calls timers debouncing].
    + auto.
    + auto.
    + split; [discriminate|]. split; [exact Hnil|].
      apply Forall_app. split; assumption.
  - cbn [step]. eexists. split; [reflexivity|].
    unfold fire; cbn [timers batches calls debouncing].
    destruct ts as [|? ts]; cbn [flush batches calls timers debouncing].
    + auto.
    + split; [discriminate|]. split; [exact Hnil|].
      apply Forall_app. split; assumption.
Qed.

Lemma run_bounded (evs : list BatcherEvent) :
  forall s : BatcherState,
    batches s <> [] -> bounded K (batches s) -> bounded K (calls s) ->
    exists s', run m evs s = Some s' /\
               batches s' <> [] /\ bounded K (batches s') /\ bounded K (calls s').
Proof.
  induction evs as [|ev evs IH]; intros s Hne Hb Hc.
  - exists s. auto.
  - destruct (step_bounded ev s Hne Hb Hc) as (s1 & Hs1 & Hne1 & Hb1 & Hc1).
    destruct (IH s1 Hne1 Hb1 Hc1) as (s' & Hs' & H').
    exists s'. split; [|exact H'].
    cbn [run]. rewrite Hs1. exact Hs'.
Qed.

Variable t : number.
Hypothesis Htimeout : batchTimeout m = Some t.
Hypothesis Ht : gt0 t = true.

(** The accumulator during a debounce window: full batches followed by
    a last, non-empty one; one timer pending; no store call yet. *)
Lemma run_window (entries : list BatchEntry) :
  entries <> [] ->
  exists full cur,
    run m (Submit <$> entries) batchingCache =
      Some (mkBatcher (full ++ [cur]) true [t] []) /\
    Forall (fun b => Z.of_nat (List.length b) = K) full /\
    0 < Z.of_nat (List.length cur) <= K /\
    mjoin (full ++ [cur]) = entries.
Proof.
  induction entries as [|entry entries IH] using rev_ind; [congruence|].
  intros _. rewrite fmap_app, run_app. cbn [fmap list_fmap].
  destruct (decide (entries = [])) as [->|Hne].
  - exists [], [entry]. cbn [fmap list_fmap run mbind option_bind step].
    change batchingCache with (mkBatcher ([] ++ [[]]) false [] []).
    rewrite submit_last, Hge.
    rewrite bool_decide_eq_false_2 by (cbn; lia).
    unfold schedule. rewrite Htimeout. cbn [gt0_js default]. rewrite Ht.
    cbn. repeat split; try lia. constructor.
  - destruct (IH Hne) as (full & cur & Hrun & Hfull & Hcur & Hjoin).
    rewrite Hrun. cbn [mbind option_bind run step].
    rewrite submit_last, Hge. unfold schedule.
    case_bool_decide as Hfullcur.
    + exists (full ++ [cur]), [entry]. split.
      { rewrite <- app_assoc. reflexivity. }
      split. { apply Forall_app. split; [exact Hfull|]. apply Forall_singleton. lia. }
      split. { cbn. lia. }
      rewrite join_app, Hjoin. reflexivity.
    + exists full, (cur ++ [entry]). split; [reflexivity|].
      split; [exact Hfull|].
      split. { rewrite length_app; cbn. lia. }
      rewrite !join_app in *. cbn [mjoin list_join] in *.
      rewrite !app_nil_r in *. rewrite app_assoc, Hjoin. reflexivity.
Qed.

(** The flush of a window: [ceil (N / K)] batches of at most [K]
    entries, which together are the entries of the window. *)
Lemma run_flush (entries : list BatchEntry) :
  exists flushed,
    run m (Submit <$> entries) batchingCache =
      Some (if decide (entries = []) then batchingCache
            else mkBatcher flushed true [t] []) /\
    run m ((Submit <$> entries) ++ [TimerFires]) batchingCache =
      Some (mkBatcher [[]] false [] flushed) /\
    Z.of_nat (List.length flushed) = ceil_div (Z.of_nat (List.length entries)) K /\
    bounded K flushed /\ mjoin flushed = entries /\
    (forall i b, flushed !! i = Some b ->
                 b = take (Z.to_nat K) (drop (i * Z.to_nat K) entries)).
Proof.
  destruct (decide (entries = [])) as [->|Hne].
  - exists []. split; [reflexivity|]. split; [reflexivity|].
    split; [symmetry; apply ceil_div_unique; cbn; lia|].
    split; [apply Forall_nil|]. split; [reflexivity|].
    intros i b Hi. discriminate.
  - destruct (run_window entries Hne) as (full & cur & Hrun & Hfull & Hcur & Hjoin).
    exists (full ++ [cur]). split; [exact Hrun|].
    split; [rewrite run_app, Hrun; reflexivity|].
    split.
    { rewrite <- Hjoin, join_app, !length_app.
      cbn [mjoin list_join List.length]. rewrite app_nil_r.
      rewrite !Nat2Z.inj_add, (length_join_uniform K full Hfull).
      symmetry. apply ceil_div_unique; lia. }
    split.
    { apply Forall_app. split.
      - eapply list.Forall_impl; [exact Hfull|]. cbn. intros; lia.
      - apply Forall_singleton. lia. }
    split; [exact Hjoin|].
    intros i b Hi. subst entries.
    assert (Hfull' : Forall (fun b => List.length b = Z.to_nat K) full).
    { eapply list.Forall_impl; [exact Hfull|]. cbn. intros; lia. }
    assert (Hcur' : (List.length cur <= Z.to_nat K)%nat) by lia.
    clear Hfull Hcur Hrun Hne. revert i Hi.
    induction full as [|b0 full IH]; intros i Hi.
    + destruct i as [|i]; [|destruct i; discriminate].
      injection Hi as <-. cbn. rewrite app_nil_r. symmetry. apply take_ge. exact Hcur'.
    + apply list.Forall_cons in Hfull' as [Hb0 Hfull']. cbn beta in Hb0.
      change (mjoin ((b0 :: full) ++ [cur])) with (b0 ++ mjoin (full ++ [cur])).
      destruct i as [|i].
      * injection Hi as <-. cbn [Nat.mul drop].
        symmetry. apply take_app_length'. symmetry. exact Hb0.
      * cbn in Hi. replace (S i * Z.to_nat K)%nat with (Z.to_nat K + i * Z.to_nat K)%nat by lia.
        rewrite drop_app_add' by (symmetry; exact Hb0).
        apply (IH Hfull' i Hi).
Qed.

End BatcherConfigured.

(** No batch ever counts as full. *)
Section BatcherUnlimited.

Variable m : ModuleVars.
Hypothesis Hnever : forall n, ge_js n (batchSize m) = false.
Variable t : number.
Hypothesis Htimeout : batchTimeout m = Some t.
Hypothesis Ht : gt0 t = true.

Lemma run_window_unlimited (entries : list BatchEntry) :
  entries <> [] ->
  run m (Submit <$> entries) batchingCache = Some (mkBatcher [entries] true [t] []).
Proof.
  induction entries as [|entry entries IH] using rev_ind; [congruence|].
  intros _. rewrite fmap_app, run_app. cbn [fmap list_fmap].
  destruct (decide (entries = [])) as [->|Hne].
  - cbn [fmap list_fmap run mbind option_bind step].
    change batchingCache with (mkBatcher ([] ++ [[]]) false [] []).
    rewrite submit_last, Hnever.
    unfold schedule. rewrite Htimeout. cbn [gt0_js default]. rewrite Ht. reflexivity.
  - rewrite (IH Hne). cbn [mbind option_bind run step].
    change [entries] with ([] ++ [entries]).
    rewrite submit_last, Hnever. reflexivity.
Qed.

End BatcherUnlimited.

Lemma integer_value_finite (x : number) (k : Z) (q : Q) :
  integer_value x = Some k -> finite_value x = Some q -> (q == inject_Z k)%Q.
Proof.
  destruct x as [s|s| |s mx e]; try discriminate.
  - intros [= <-] [= <-]. reflexivity.
  - cbn [integer_value finite_value]. destruct (Z.leb_spec 0 e) as [He|He].
    + intros [= <-] [= <-]. reflexivity.
    + destruct (Z.eqb_spec (Zpos mx mod 2 ^ (- e)) 0) as [Hmod|]; [|discriminate].
      intros [= <-] [= <-]. unfold Qeq; cbn [Qnum Qden inject_Z].
      rewrite Pos2Z.inj_pow, Z2Pos.id by lia.
      pose proof (Z.div_mod (Zpos mx) (2 ^ (- e))) as Hdm.
      assert (Hpow : 0 < 2 ^ (- e)) by (apply Z.pow_pos_nonneg; lia).
      specialize (Hdm ltac:(lia)). rewrite Hmod in Hdm.
      destruct s; cbn [cond_Zopp]; lia.
Qed.

(** C4, the bound and the count as they hold: a batch counts as full as
    soon as its length is at least the batch size [k], so for a finite
    [k > 0] no batch of the accumulator and no batch handed to the store
    ever holds more than [K] entries, [K] the least integer above or
    equal to [k]; [K] is [k] when [k] is whole.  With a delay [t > 0]
    the submissions of one window issue no store call; when the timer
    fires, the flush issues [ceil (N / K)] store calls for the [N]
    entries of the window, each of at most [K] entries, which together
    are the submitted entries in order, and the accumulator is a single
    empty batch again.  When [k] is [Infinity] no batch is ever full:
    the flush of a window issues one call with all its entries. *)
Theorem batching_bounded_and_coalesced (m : ModuleVars) (x : number) :
  batchSize m = Some x -> gt0 x = true ->
  (forall q, finite_value x = Some q ->
     let K := Qceiling q in
     0 < K /\
     (forall n : nat, ge_js n (batchSize m) = true <-> K <= Z.of_nat n) /\
     (forall k : Z, integer_value x = Some k -> K = k) /\
     (forall evs, exists s,
         run m evs batchingCache = Some s /\
         bounded K (batches s) /\ bounded K (calls s)) /\
     (forall t entries,
         batchTimeout m = Some t -> gt0 t = true ->
         exists s s',
           run m (Submit <$> entries) batchingCache = Some s /\
           calls s = [] /\
           run m ((Submit <$> entries) ++ [TimerFires]) batchingCache = Some s' /\
           Z.of_nat (List.length (calls s')) =
             ceil_div (Z.of_nat (List.length entries)) K /\
           bounded K (calls s') /\
           mjoin (calls s') = entries /\
           batches s' = [[]] /\ debouncing s' = false)) /\
  (x = S754_infinity false ->
   forall t entries,
     entries <> [] -> batchTimeout m = Some t -> gt0 t = true ->
     exists s',
       run m ((Submit <$> entries) ++ [TimerFires]) batchingCache = Some s' /\
       calls s' = [entries] /\ batches s' = [[]] /\ debouncing s' = false).
Proof.
  intros Hsize Hpos. split.
  - intros q Hq K.
    assert (HK : 0 < K).
    { apply Qceiling_pos. apply gt0_spec in Hpos as [-> | (q' & Hq' & Hlt)]; [discriminate|].
      congruence. }
    assert (Hge : forall n, ge_js n (batchSize m) = bool_decide (K <= Z.of_nat n)).
    { intros n. rewrite Hsize. apply ge_js_ceiling. exact Hq. }
    split; [exact HK|]. split; [|split; [|split]].
    + intros n. rewrite Hge. apply bool_decide_eq_true.
    + intros k Hk. unfold K.
      rewrite (Qceiling_comp _ _ (integer_value_finite x k q Hk Hq)). apply Qceiling_Z.
    + intros evs.
      destruct (run_bounded m K Hge HK evs batchingCache) as (s & Hs & _ & Hb & Hc).
      * discriminate.
      * apply Forall_singleton. cbn. lia.
      * apply Forall_nil.
      * exists s. auto.
    + intros t entries Htimeout Ht.
      destruct (run_flush m K Hge HK t Htimeout Ht entries)
        as (flushed & Hrun & Hfire & Hcount & Hbound & Hjoin & _).
      eexists _, _. split; [exact Hrun|].
      split; [destruct (decide (entries = [])); reflexivity|].
      split; [exact Hfire|]. cbn [calls batches debouncing]. auto.
  - intros -> t entries Hne Htimeout Ht.
    eexists. split.
    { rewrite run_app, (run_window_unlimited m ltac:(intros n; rewrite Hsize; reflexivity)
                          t Htimeout Ht entries Hne).
      reflexivity. }
    cbn. auto.
Qed.

Lemma batching_bounded_and_coalesced_witness :
  exists s',
    run SampleBatch.vars ((Submit <$> SampleBatch.entries5) ++ [TimerFires])
      batchingCache = Some s' /\
    Z.of_nat (List.length (calls s')) = ceil_div 5 2 /\
    bounded 2 (calls s') /\
    mjoin (calls s') = SampleBatch.entries5.
Proof.
  destruct (batching_bounded_and_coalesced SampleBatch.vars (Num 2) eq_refl eq_refl)
    as [Hfinite _].
  destruct (Hfinite _ eq_refl) as (_ & _ & _ & _ & Hwin).
  destruct (Hwin (Num 20) SampleBatch.entries5 eq_refl eq_refl)
    as (s & s' & _ & _ & Hrun & Hn & Hb & Hj & _).
  exists s'. split; [exact Hrun|]. split; [exact Hn|]. split; [exact Hb | exact Hj].
Defined.

(** The claim as worded, with the batch size itself as the bound and
    [ceil (N / k)] as the count, fails for a batch size that is not
    whole.  With [cache.batchSize = 2.5] three submissions sit in one
    batch, since a batch of two is not yet full, and the flush of a
    window of three entries issues one store call where
    [ceil (3 / 2.5)] is 2. *)
Lemma batching_bounded_and_coalesced_counterexample :
  let m := SampleBatch.fractional in
  let three := take 3 SampleBatch.entries5 in
  batchSize m = Some (dyadic 5 (-1)) /\
  (exists q, finite_value (dyadic 5 (-1)) = Some q /\ (q == 5 # 2)%Q) /\
  (exists s,
      run m (Submit <$> three) batchingCache = Some s /\
      batches s = [three] /\
      compare_count (List.length three) (dyadic 5 (-1)) = Some Gt) /\
  (exists s',
      run m ((Submit <$> three) ++ [TimerFires]) batchingCache = Some s' /\
      calls s' = [three] /\
      List.length (calls s') = 1%nat /\
      Qceiling (inject_Z 3 / (5 # 2)) = 2).
Proof.
  intros m three.
  split; [vm_compute; reflexivity|].
  split; [eexists; split; [vm_compute; reflexivity | vm_compute; reflexivity]|].
  split; [eexists; split; [vm_compute; reflexivity | split; vm_compute; reflexivity]|].
  eexists. split; [vm_compute; reflexivity|]. repeat split.
Qed.

(** The sample window evaluated: five entries, batches of two. *)
Example batching_sample :
  (calls <$> run SampleBatch.vars ((Submit <$> SampleBatch.entries5) ++ [TimerFires])
               batchingCache) =
  Some [take 2 SampleBatch.entries5;
        take 2 (drop 2 SampleBatch.entries5);
        drop 4 SampleBatch.entries5] /\
  ceil_div 5 2 = 3.
Proof. split; vm_compute; reflexivity. Qed.

(** ** Configuration *)

Lemma ge_js_one : ge_js 0 (Some (Num 1)) = false.
Proof. vm_compute. reflexivity. Qed.

(** With a batch size of one (or none configured) and no positive delay,
    a submission to an idle batcher flushes at once: one store call for a
    batch holding that one entry, no timer, and the batcher is idle
    again. *)
Lemma submit_synchronous (m : ModuleVars) (entry : BatchEntry)
    (cs : list (list BatchEntry)) :
  batchSize m = Some (Num 1) \/ batchSize m = None ->
  gt0_js (batchTimeout m) = false ->
  submit m entry (mkBatcher [[]] false [] cs) =
  Some (mkBatcher [[]] false [] (cs ++ [[entry]])).
Proof.
  intros Hsize Htimeout.
  change [[]] with ([] ++ [@nil BatchEntry]) at 1.
  rewrite submit_last. unfold schedule. rewrite Htimeout.
  destruct Hsize as [-> | ->]; cbn [List.length]; [rewrite ge_js_one|]; reflexivity.
Qed.

Lemma run_synchronous (m : ModuleVars) (entries : list BatchEntry) :
  batchSize m = Some (Num 1) \/ batchSize m = None ->
  gt0_js (batchTimeout m) = false ->
  forall cs,
    run m (Submit <$> entries) (mkBatcher [[]] false [] cs) =
    Some (mkBatcher [[]] false [] (cs ++ ((fun e => [e]) <$> entries))).
Proof.
  intros Hsize Htimeout.
  induction entries as [|entry entries IH]; intros cs.
  - cbn. rewrite app_nil_r. reflexivity.
  - cbn [fmap list_fmap run step].
    rewrite (submit_synchronous m entry cs Hsize Htimeout).
    cbn [mbind option_bind]. rewrite IH, <- app_assoc. reflexivity.
Qed.

(** C10: applying a cache configuration sets the batch size to
    [cache.batchSize] when that is a number greater than 0 and to 1
    otherwise, and the delay to [cache.batchTimeout] when that is a
    number greater than 0 and to 0 otherwise; the numbers greater than 0
    are the finite ones of a value above zero, whole or not, and
    [Infinity].  When the configuration names neither (and also when no
    configuration was ever applied), every submitted bid is flushed
    within its own submission, as one store call for a batch holding
    that bid alone, and no timer is started. *)
Theorem cache_config_effective (cache : CacheConfig) (m : ModuleVars) :
  let m' := applyCacheConfig true cache m in
  batchSize m' =
    Some (match cfg_batchSize cache with
          | Some (JNum x) => if gt0 x then x else Num 1
          | _ => Num 1
          end) /\
  batchTimeout m' =
    Some (match cfg_batchTimeout cache with
          | Some (JNum x) => if gt0 x then x else Num 0
          | _ => Num 0
          end) /\
  (forall x, gt0 x = true <->
             x = S754_infinity false \/
             exists q, finite_value x = Some q /\ (0 < q)%Q) /\
  (integer_value (Num 1) = Some 1 /\ integer_value (Num 0) = Some 0) /\
  (cfg_batchSize cache = None -> cfg_batchTimeout cache = None ->
   batchSize m' = Some (Num 1) /\ batchTimeout m' = Some (Num 0) /\
   forall entries cs,
     run m' (Submit <$> entries) (mkBatcher [[]] false [] cs) =
     Some (mkBatcher [[]] false [] (cs ++ ((fun e => [e]) <$> entries)))) /\
  (forall entries cs,
     run initialVars (Submit <$> entries) (mkBatcher [[]] false [] cs) =
     Some (mkBatcher [[]] false [] (cs ++ ((fun e => [e]) <$> entries)))).
Proof.
  intros m'.
  assert (Hpos : forall v d,
             match positive_number v with Some x => x | None => d end =
             match v with
             | Some (JNum x) => if gt0 x then x else d
             | _ => d
             end).
  { intros [[| | x | | |]|] d; cbn [positive_number]; try reflexivity.
    destruct (gt0 x); reflexivity. }
  split; [|split; [|split; [|split; [|split]]]].
  - unfold m', applyCacheConfig, cacheSubscriber; cbn [batchSize]. rewrite Hpos. reflexivity.
  - unfold m', applyCacheConfig, cacheSubscriber; cbn [batchTimeout]. rewrite Hpos. reflexivity.
  - apply gt0_spec.
  - split; vm_compute; reflexivity.
  - intros Hs Ht.
    assert (H1 : batchSize m' = Some (Num 1)).
    { unfold m', applyCacheConfig, cacheSubscriber; cbn [batchSize]. rewrite Hs. reflexivity. }
    assert (H0 : batchTimeout m' = Some (Num 0)).
    { unfold m', applyCacheConfig, cacheSubscriber; cbn [batchTimeout]. rewrite Ht. reflexivity. }
    split; [exact H1|]. split; [exact H0|].
    intros entries cs. apply run_synchronous; [left; exact H1 | rewrite H0; reflexivity].
  - intros entries cs. apply run_synchronous; [right; reflexivity | reflexivity].
Qed.

Lemma cache_config_effective_witness :
  let m' := applyCacheConfig true (mkCacheConfig None None false) initialVars in
  batchSize m' = Some (Num 1) /\ batchTimeout m' = Some (Num 0) /\
  run m' (Submit <$> SampleBatch.entries5) batchingCache =
  Some (mkBatcher [[]] false [] ((fun e => [e]) <$> SampleBatch.entries5)).
Proof.
  intros m'.
  destruct (cache_config_effective (mkCacheConfig None None false) initialVars)
    as (_ & _ & _ & _ & Hunset & _).
  destruct (Hunset eq_refl eq_refl) as (H1 & H0 & Hrun).
  split; [exact H1|]. split; [exact H0|].
  apply (Hrun SampleBatch.entries5 []).
Defined.

(** Values that are not numbers greater than 0 fall back to the
    defaults; a number greater than 0 is taken as it is, whole or not. *)
Example cache_config_fallbacks :
  batchSize (applyCacheConfig true
               (mkCacheConfig (Some (JStr "5")) (Some (JNum (Num (-3)))) false)
               initialVars) = Some (Num 1) /\
  batchTimeout (applyCacheConfig true
                  (mkCacheConfig (Some (JStr "5")) (Some (JNum (Num (-3)))) false)
                  initialVars) = Some (Num 0) /\
  batchSize (applyCacheConfig true
               (mkCacheConfig (Some (JNum (Num 4))) (Some (JNum (Num 50))) false)
               initialVars) = Some (Num 4) /\
  batchTimeout (applyCacheConfig true
                  (mkCacheConfig (Some (JNum (Num 4))) (Some (JNum (Num 50))) false)
                  initialVars) = Some (Num 50) /\
  batchSize (applyCacheConfig true
               (mkCacheConfig (Some (JNum (dyadic 5 (-1)))) (Some (JNum S754_nan)) false)
               initialVars) = Some (dyadic 5 (-1)) /\
  batchTimeout (applyCacheConfig true
                  (mkCacheConfig (Some (JNum (dyadic 5 (-1)))) (Some (JNum S754_nan)) false)
                  initialVars) = Some (Num 0).
Proof. repeat split; vm_compute; reflexivity. Qed.

(** ** LocalCacheStore: combining with the ad server's wrapper *)

Section Replace.
Import StringReplace.

Lemma strip_prefix_Some (p s rest : string) :
  strip_prefix p s = Some rest <-> s = p +:+ rest.
Proof.
  revert s; induction p as [|a p IH]; intros s; cbn.
  - split; [intros [= ->]; reflexivity | intros ->; reflexivity].
  - destruct s as [|b s]; [split; discriminate|].
    destruct (Ascii.eqb_spec a b) as [->|Hne].
    + rewrite IH. split; [intros ->; reflexivity | intros [= ->]; reflexivity].
    + split; [discriminate | intros [= Hab _]; congruence].
Qed.

(** [find_first] splits the text at an occurrence of the pattern. *)
Lemma find_first_Some (pat s before after : string) :
  find_first pat s = Some (before, after) -> s = before +:+ pat +:+ after.
Proof.
  revert before; induction s as [|c s IH]; intros before; cbn [find_first].
  - destruct (strip_prefix pat "") as [rest|] eqn:Hp; [|discriminate].
    intros [= <- <-]. apply strip_prefix_Some in Hp. exact Hp.
  - destruct (strip_prefix pat (String c s)) as [rest|] eqn:Hp.
    + intros [= <- <-]. apply strip_prefix_Some in Hp. exact Hp.
    + destruct (find_first pat s) as [[b a]|]; [|discriminate].
      intros [= <- <-]. cbn. f_equal. apply IH. reflexivity.
Qed.

(** ... and that occurrence is the leftmost one. *)
Lemma find_first_leftmost (pat s before after : string) :
  find_first pat s = Some (before, after) ->
  forall before' after',
    s = before' +:+ pat +:+ after' ->
    (String.length before <= String.length before')%nat.
Proof.
  revert before; induction s as [|c s IH]; intros before; cbn [find_first].
  - destruct (strip_prefix pat "") as [rest|]; [|discriminate].
    intros [= <- <-] before' after' _. cbn. lia.
  - destruct (strip_prefix pat (String c s)) as [rest|] eqn:Hp.
    + intros [= <- <-] before' after' _. cbn. lia.
    + destruct (find_first pat s) as [[b a]|] eqn:Hf; [|discriminate].
      intros [= <- <-] before' after' Hs.
      destruct before' as [|c' before'].
      * cbn in Hs. apply strip_prefix_Some in Hs. congruence.
      * cbn in Hs. injection Hs as _ Hs. cbn.
        specialize (IH b eq_refl before' after' Hs). lia.
Qed.

(** Without an occurrence there is nothing to split. *)
Lemma find_first_None (pat s : string) :
  find_first pat s = None ->
  forall before after, s <> before +:+ pat +:+ after.
Proof.
  induction s as [|c s IH]; cbn [find_first].
  - destruct (strip_prefix pat "") as [rest|] eqn:Hp; [discriminate|].
    intros _ before after Hs. destruct before; [|discriminate].
    cbn in Hs. apply strip_prefix_Some in Hs. congruence.
  - destruct (strip_prefix pat (String c s)) as [rest|] eqn:Hp; [discriminate|].
    destruct (find_first pat s) as [[b a]|] eqn:Hf; [discriminate|].
    intros _ before after Hs. destruct before as [|c' before].
    + cbn in Hs. apply strip_prefix_Some in Hs. congruence.
    + cbn in Hs. injection Hs as _ Hs. exact (IH eq_refl before after Hs).
Qed.

(** A replacement text without [$] is inserted as it is. *)
Lemma getSubstitution_plain (matched before after repl : string) :
  free_of "$"%char repl = true ->
  getSubstitution matched before after repl = repl.
Proof.
  induction repl as [|c repl IH]; [reflexivity|].
  cbn [free_of]. intros [Hc Hrepl]%andb_prop.
  apply negb_true_iff in Hc. cbn [getSubstitution]. rewrite Hc.
  f_equal. apply IH. exact Hrepl.
Qed.

Lemma free_of_app (c : ascii) (a b : string) :
  free_of c (a +:+ b) = free_of c a && free_of c b.
Proof.
  induction a as [|x a IH]; [reflexivity|].
  cbn. rewrite IH. apply andb_assoc.
Qed.

End Replace.

Section Base64Alphabet.

Lemma get_free_of (c : ascii) (s : string) (i : nat) :
  free_of c s = true ->
  (Ascii.eqb Base64.pad c) = false ->
  Ascii.eqb (match String.get i s with Some d => d | None => Base64.pad end) c = false.
Proof.
  intros Hs Hpad. revert i; induction s as [|d s IH]; intros i.
  - destruct i; exact Hpad.
  - cbn [free_of] in Hs. apply andb_prop in Hs as [Hd Hs].
    apply negb_true_iff in Hd.
    destruct i as [|i]; cbn [String.get]; [exact Hd | apply IH; exact Hs].
Qed.

Lemma digit_not_dollar (n : N) : Ascii.eqb (Base64.digit n) "$"%char = false.
Proof. unfold Base64.digit. apply get_free_of; reflexivity. Qed.

(** The output of [btoa] is made of base64 digits and padding. *)
Lemma btoa_free_of_dollar (s : string) : free_of "$"%char (Base64.btoa s) = true.
Proof.
  assert (H : forall s a b,
             free_of "$"%char (Base64.btoa s) = true /\
             free_of "$"%char (Base64.btoa (String a s)) = true /\
             free_of "$"%char (Base64.btoa (String a (String b s))) = true).
  { clear s. induction s as [|c s IH]; intros a b.
    - cbn [Base64.btoa free_of]. rewrite !digit_not_dollar. repeat split.
    - destruct (IH a c) as (H0 & _ & H2).
      destruct (IH c c) as (_ & H1 & _).
      split; [exact H1|]. split; [exact H2|].
      cbn [Base64.btoa free_of]. rewrite !digit_not_dollar. cbn [negb andb].
      exact H0. }
  apply (H s "a"%char "a"%char).
Qed.

End Base64Alphabet.

(** What [btoa] returns is the base64 text of some bytes. *)
Lemma btoa_Some (s encoded : string) :
  btoa s = Some encoded -> exists bytes, latin1 s = Some bytes /\ encoded = Base64.btoa bytes.
Proof.
  unfold btoa. destruct (latin1 s) as [bytes|]; [|discriminate].
  intros [= <-]. exists bytes. auto.
Qed.

(** After [storeLocally] has stored a bid, a successful fetch of a
    wrapper that holds the placeholder of the bid's bidder returns the
    wrapper with the leftmost placeholder, and only it, replaced by the
    stored data URI. *)
Lemma getLocalCachedBidWithGam_stored (r : loc) (w w' : World)
    (encoded before after : string) :
  let bid := heap w r in
  let placeholder := "https://local.prebid.org/cache?bidder=" +:+ bidderCode bid in
  let dataUri := "data:text/xml;base64," +:+ encoded in
  btoa (getVastValue bid) = Some encoded ->
  storeLocally r w = Returned w' ->
  StringReplace.find_first placeholder (before +:+ placeholder +:+ after) =
    Some (before, after) ->
  getLocalCachedBidWithGam (mkCustParams (Some (bidderCode bid)) (Some (adId bid)))
    (mkResponse true (before +:+ placeholder +:+ after)) w' =
  (Some (before +:+ dataUri +:+ after), w').
Proof.
  intros bid placeholder dataUri Henc Hstore Hfirst.
  rewrite (storeLocally_Returned r w encoded Henc) in Hstore. injection Hstore as <-.
  unfold getLocalCachedBidWithGam.
  cbn [ok text negb hb_bidder hb_adid ToString_str].
  change (bidderCode bid +:+ "_" +:+ adId bid) with (getLocalCacheBidId (heap w r)).
  unfold stored_world at 1; cbn [vastsLocalCache].
  rewrite lookup_insert_eq.
  unfold StringReplace.replace. cbn [ToString_str].
  change (LOCAL_CACHE_MOCK_URL +:+ bidderCode bid) with placeholder.
  rewrite Hfirst.
  rewrite getSubstitution_plain; [reflexivity|].
  destruct (btoa_Some _ _ Henc) as (bytes & _ & Hbytes).
  unfold dataUri. rewrite Hbytes. exact (btoa_free_of_dollar bytes).
Qed.

(** C8, the missing-entry case evaluated: the local map holds no entry
    for the pair of the tag URL and the fetched wrapper holds the
    placeholder; the returned document is not the fetched one, the
    placeholder has been replaced by the text [undefined]. *)
Theorem getLocalCachedBidWithGam_missing_entry :
  vastsLocalCache Sample.world0 !! "nexverse_ad1" = None /\
  fst (getLocalCachedBidWithGam SampleGam.custParams SampleGam.response Sample.world0) =
    Some "<VAST><VASTAdTagURI><![CDATA[undefined]]></VASTAdTagURI></VAST>" /\
  fst (getLocalCachedBidWithGam SampleGam.custParams SampleGam.response Sample.world0) <>
    Some (text SampleGam.response).
Proof.
  split; [reflexivity|]. split; [reflexivity|]. vm_compute. discriminate.
Qed.

(** The same wrapper after [storeLocally]: the placeholder is replaced by
    the data URI of the bid. *)
Example getLocalCachedBidWithGam_sample :
  fst (getLocalCachedBidWithGam SampleGam.custParams SampleGam.response SampleGam.stored) =
  Some ("<VAST><VASTAdTagURI><![CDATA[" +:+
        "data:text/xml;base64," +:+ Base64.btoa (getVastValue Sample.bid_url) +:+
        "]]></VASTAdTagURI></VAST>").
Proof. vm_compute. reflexivity. Qed.

(** The end-to-end example of the specification: a bid with a [vastUrl]
    and a ttl of 60 seconds. *)
Example toStorageRequest_sample :
  toStorageRequest Sample.StringToNumber Sample.cfg (fun _ => None) Sample.bid_url =
  mkPayload "xml" (wrapURI (Some "http://x/vast.xml") NoTrackers) (Num 75)
            None None None None None.
Proof. vm_compute. reflexivity. Qed.

(** Numbers as a template literal prints them. *)
Example Number_toString_sample :
  Number_toString (Num 75) = "75" /\
  Number_toString (dyadic 5 (-1)) = "2.5" /\
  Number_toString (Num (10 ^ 21)) = "1e+21" /\
  Number_toString (Num (2 ^ 53)) = "9007199254740992" /\
  Number_toString (Num (2 ^ 60)) = "1152921504606847000" /\
  Number_toString (decimal 1 (-7)) = "1e-7" /\
  Number_toString (Number_add (decimal 1 (-1)) (decimal 2 (-1))) = "0.30000000000000004" /\
  Number_toString (Num (-15)) = "-15" /\
  Number_toString S754_nan = "NaN".
Proof. repeat split; vm_compute; reflexivity. Qed.


(** * Further properties of the module *)

(** ** Batcher: conservation, timers, composition *)

Lemma join_snoc {A} (bs : list (list A)) (b : list A) :
  mjoin (bs ++ [b]) = mjoin bs ++ b.
Proof. rewrite join_app. cbn. rewrite app_nil_r. reflexivity. Qed.

Lemma added_join (m : ModuleVars) (entry : BatchEntry)
    (init : list (list BatchEntry)) (cur : list BatchEntry) :
  mjoin (if ge_js (List.length cur) (batchSize m)
         then init ++ [cur; [entry]] else init ++ [cur ++ [entry]]) =
  mjoin (init ++ [cur]) ++ [entry].
Proof.
  destruct (ge_js _ _).
  - change [cur; [entry]] with ([cur] ++ [[entry]]).
    rewrite app_assoc, join_snoc. reflexivity.
  - rewrite !join_snoc, app_assoc. reflexivity.
Qed.

Lemma added_not_nil (m : ModuleVars) (entry : BatchEntry)
    (init : list (list BatchEntry)) (cur : list BatchEntry) :
  (if ge_js (List.length cur) (batchSize m)
   then init ++ [cur; [entry]] else init ++ [cur ++ [entry]]) <> [].
Proof. destruct (ge_js _ _); intros H; apply app_eq_nil in H as [_ H]; discriminate. Qed.

Lemma step_conserves (m : ModuleVars) (ev : BatcherEvent) (s : BatcherState) :
  batches s <> [] ->
  exists s',
    step m ev s = Some s' /\ batches s' <> [] /\
    mjoin (calls s') ++ mjoin (batches s') =
    (mjoin (calls s) ++ mjoin (batches s)) ++ submitted [ev].
Proof.
  intros Hne. destruct s as [bs d ts cs]; cbn [batches calls] in *.
  destruct ev as [entry|]; cbn [step submitted omap list_omap].
  - destruct (exists_last Hne) as (init & cur & ->).
    rewrite submit_last. eexists. split; [reflexivity|].
    pose proof (added_join m entry init cur) as Hj.
    pose proof (added_not_nil m entry init cur) as Hn.
    unfold schedule. destruct d; [|destruct (gt0_js (batchTimeout m))];
      cbn [flush batches calls timers debouncing].
    + split; [exact Hn|]. rewrite Hj, app_assoc. reflexivity.
    + split; [exact Hn|]. rewrite Hj, app_assoc. reflexivity.
    + split; [discriminate|]. rewrite join_app, Hj. cbn.
      rewrite !app_nil_r, app_assoc. reflexivity.
  - eexists. split; [reflexivity|]. unfold fire; cbn [timers batches calls debouncing].
    destruct ts as [|? ts]; cbn [flush batches calls timers debouncing].
    + split; [exact Hne|]. rewrite app_nil_r. reflexivity.
    + split; [discriminate|]. rewrite join_app. cbn. rewrite !app_nil_r. reflexivity.
Qed.

Lemma submitted_app (evs1 evs2 : list BatcherEvent) :
  submitted (evs1 ++ evs2) = submitted evs1 ++ submitted evs2.
Proof. unfold submitted. apply omap_app. Qed.

Lemma run_conserves (m : ModuleVars) (evs : list BatcherEvent) :
  forall s : BatcherState,
    batches s <> [] ->
    exists s',
      run m evs s = Some s' /\ batches s' <> [] /\
      mjoin (calls s') ++ mjoin (batches s') =
      (mjoin (calls s) ++ mjoin (batches s)) ++ submitted evs.
Proof.
  induction evs as [|ev evs IH]; intros s Hne.
  - exists s. cbn. rewrite app_nil_r. auto.
  - destruct (step_conserves m ev s Hne) as (s1 & Hs1 & Hne1 & Hj1).
    destruct (IH s1 Hne1) as (s' & Hs' & Hne' & Hj').
    exists s'. split; [cbn [run]; rewrite Hs1; exact Hs'|].
    split; [exact Hne'|].
    rewrite Hj', Hj1.
    change (ev :: evs) with ([ev] ++ evs).
    rewrite submitted_app, app_assoc. reflexivity.
Qed.

(** X1: whatever the configuration and whatever the order of submissions
    and timer expiries, the returned function never fails, and the
    entries already handed to the store followed by the entries still
    accumulated are exactly the submitted entries, in submission order:
    no entry is lost, duplicated or reordered. *)
Theorem batcher_conserves_entries (m : ModuleVars) (evs : list BatcherEvent) :
  exists s,
    run m evs batchingCache = Some s /\
    mjoin (calls s) ++ mjoin (batches s) = submitted evs.
Proof.
  destruct (run_conserves m evs batchingCache) as (s & Hs & _ & Hj); [discriminate|].
  exists s. split; [exact Hs|]. exact Hj.
Qed.

Lemma gt0_js_true (v : option number) :
  gt0_js v = true -> exists t, v = Some t /\ gt0 t = true.
Proof.
  destruct v as [t|]; cbn [gt0_js]; [|discriminate].
  intros H. exists t. auto.
Qed.

Lemma step_idle_or_window (m : ModuleVars) (ev : BatcherEvent) (s : BatcherState) :
  batches s <> [] ->
  idle s \/ window_open m s ->
  exists s', step m ev s = Some s' /\ batches s' <> [] /\
             (idle s' \/ window_open m s').
Proof.
  intros Hne Hs. destruct s as [bs d ts cs].
  unfold idle, window_open in *; cbn [batches debouncing timers calls] in *.
  destruct ev as [entry|]; cbn [step].
  - destruct (exists_last Hne) as (init & cur & ->).
    rewrite submit_last. eexists. split; [reflexivity|].
    pose proof (added_join m entry init cur) as Hj.
    pose proof (added_not_nil m entry init cur) as Hn.
    assert (Hjne : mjoin (if ge_js (List.length cur) (batchSize m)
                          then init ++ [cur; [entry]] else init ++ [cur ++ [entry]]) <> []).
    { rewrite Hj. intros H. apply app_eq_nil in H as [_ H]. discriminate. }
    unfold schedule.
    destruct Hs as [(Hb & -> & ->) | (-> & Ht & _)].
    + destruct (gt0_js (batchTimeout m)) eqn:Hgt;
        cbn [flush batches calls timers debouncing].
      * split; [exact Hn|]. right. split; [reflexivity|]. split; [|exact Hjne].
        destruct (gt0_js_true _ Hgt) as (t & Ht & Ht0).
        exists t. rewrite Ht. auto.
      * split; [discriminate|]. left. auto.
    + cbn [batches calls timers debouncing].
      split; [exact Hn|]. right. auto.
  - eexists. split; [reflexivity|]. unfold fire; cbn [timers batches calls debouncing].
    destruct Hs as [(Hb & -> & ->) | (-> & (t & _ & _ & ->) & _)];
      cbn [flush batches calls timers debouncing].
    + split; [exact Hne|]. left. auto.
    + split; [discriminate|]. left. auto.
Qed.

(** X2: at every moment the batcher is either idle (the accumulator is
    one empty batch, the flag is clear, no timer is pending) or inside
    one debounce window: the flag is set, exactly one timer is pending,
    with the configured positive delay, and the accumulator is not
    empty.  So a second timer is never started while one is pending, and
    no entry waits in the accumulator without a pending flush. *)
Theorem batcher_idle_or_single_timer (m : ModuleVars) (evs : list BatcherEvent) :
  exists s,
    run m evs batchingCache = Some s /\ (idle s \/ window_open m s).
Proof.
  assert (H : forall evs s,
             batches s <> [] -> idle s \/ window_open m s ->
             exists s', run m evs s = Some s' /\ batches s' <> [] /\
                        (idle s' \/ window_open m s')).
  { clear evs. induction evs as [|ev evs IH]; intros s Hne Hs.
    - exists s. auto.
    - destruct (step_idle_or_window m ev s Hne Hs) as (s1 & Hs1 & Hne1 & H1).
      destruct (IH s1 Hne1 H1) as (s' & Hs' & H').
      exists s'. split; [cbn [run]; rewrite Hs1; exact Hs' | exact H']. }
  destruct (H evs batchingCache) as (s & Hs & _ & Hinv).
  - discriminate.
  - left. repeat split.
  - exists s. auto.
Qed.

Lemma ceil_div_nonneg (n k : Z) : 0 <= n -> 0 < k -> 0 <= ceil_div n k.
Proof. intros Hn Hk. unfold ceil_div. apply Z.div_pos; lia. Qed.

(** X3: with a finite batch size [k > 0] and a delay [t > 0], the store
    calls issued when the timer of a window fires are exactly the
    consecutive slices of [K] submitted entries, [K] the least integer
    above or equal to [k]: there are [ceil (N / K)] calls, and call
    number [i] (from 0) is for the batch made of the entries
    [i*K .. i*K + K - 1] of the window, the last one possibly shorter. *)
Theorem batcher_flush_chunks (m : ModuleVars) (x t : number) (q : Q)
    (entries : list BatchEntry) :
  batchSize m = Some x -> finite_value x = Some q -> (0 < q)%Q ->
  batchTimeout m = Some t -> gt0 t = true ->
  exists s',
    run m ((Submit <$> entries) ++ [TimerFires]) batchingCache = Some s' /\
    calls s' = slices (Z.to_nat (Qceiling q)) entries.
Proof.
  intros Hsize Hq Hpos Htimeout Ht.
  pose proof (Qceiling_pos q Hpos) as HK.
  assert (Hge : forall n, ge_js n (batchSize m) = bool_decide (Qceiling q <= Z.of_nat n)).
  { intros n. rewrite Hsize. apply ge_js_ceiling. exact Hq. }
  destruct (run_flush m (Qceiling q) Hge HK t Htimeout Ht entries)
    as (flushed & _ & Hfire & Hcount & _ & _ & Hslice).
  eexists. split; [exact Hfire|]. cbn [calls].
  pose proof (ceil_div_nonneg (Z.of_nat (List.length entries)) (Qceiling q)
                ltac:(lia) HK) as Hnn.
  apply list_eq. intros i. unfold slices.
  rewrite Z2Nat.id by lia.
  rewrite list_lookup_fmap.
  destruct (decide (i < List.length flushed)%nat) as [Hi|Hi].
  - destruct (lookup_lt_is_Some_2 flushed i Hi) as [b Hb].
    rewrite Hb, (Hslice i b Hb), lookup_seq_lt by lia. reflexivity.
  - rewrite lookup_ge_None_2 by lia.
    rewrite lookup_seq_ge by lia. reflexivity.
Qed.

Lemma batcher_flush_chunks_witness :
  (exists s',
      run SampleBatch.vars ((Submit <$> SampleBatch.entries5) ++ [TimerFires])
        batchingCache = Some s' /\
      calls s' = slices 2 SampleBatch.entries5) /\
  (exists s',
      run SampleBatch.fractional ((Submit <$> SampleBatch.entries5) ++ [TimerFires])
        batchingCache = Some s' /\
      calls s' = slices 3 SampleBatch.entries5) /\
  slices 3 SampleBatch.entries5 =
    [take 3 SampleBatch.entries5; drop 3 SampleBatch.entries5].
Proof.
  split; [|split].
  - apply (batcher_flush_chunks SampleBatch.vars (Num 2) (Num 20) _
             SampleBatch.entries5 eq_refl eq_refl eq_refl eq_refl eq_refl).
  - apply (batcher_flush_chunks SampleBatch.fractional (dyadic 5 (-1)) (Num 20) _
             SampleBatch.entries5 eq_refl eq_refl eq_refl eq_refl eq_refl).
  - reflexivity.
Defined.

Lemma singletons_join {A} (l : list (list A)) :
  Forall (fun b => List.length b = 1%nat) l -> l = (fun e => [e]) <$> mjoin l.
Proof.
  induction 1 as [|b l Hb _ IH]; [reflexivity|].
  cbn beta in Hb. destruct b as [|e [|? ?]]; try discriminate.
  cbn. f_equal. exact IH.
Qed.

(** X4: with a batch size of 1 and a delay [t > 0], the flush of a window
    issues one store call per submitted entry, each for a batch holding
    that entry alone, in submission order. *)
Theorem batcher_size_one_calls (m : ModuleVars) (t : number)
    (entries : list BatchEntry) :
  batchSize m = Some (Num 1) ->
  batchTimeout m = Some t -> gt0 t = true ->
  exists s',
    run m ((Submit <$> entries) ++ [TimerFires]) batchingCache = Some s' /\
    calls s' = (fun e => [e]) <$> entries /\
    idle s'.
Proof.
  intros Hsize Htimeout Ht.
  destruct (decide (entries = [])) as [->|Hne].
  - exists batchingCache. repeat split.
  - assert (Hge : forall n, ge_js n (batchSize m) = bool_decide (1 <= Z.of_nat n)).
    { intros n. rewrite Hsize. exact (ge_js_ceiling (Num 1) _ n eq_refl). }
    destruct (run_window m 1 Hge ltac:(lia) t Htimeout Ht entries Hne)
      as (full & cur & Hrun & Hfull & Hcur & Hjoin).
    exists (mkBatcher [[]] false [] (full ++ [cur])).
    split; [rewrite run_app, Hrun; reflexivity|].
    split; [|repeat split].
    cbn [calls]. rewrite <- Hjoin. apply singletons_join.
    apply Forall_app. split.
    + eapply list.Forall_impl; [exact Hfull|]. cbn. intros; lia.
    + apply Forall_singleton. lia.
Qed.

Lemma batcher_size_one_calls_witness :
  exists s',
    run (mkVars (Some (Num 1)) (Some (Num 20)) false)
        ((Submit <$> SampleBatch.entries5) ++ [TimerFires]) batchingCache = Some s' /\
    calls s' = (fun e => [e]) <$> SampleBatch.entries5 /\
    idle s'.
Proof.
  apply (batcher_size_one_calls (mkVars (Some (Num 1)) (Some (Num 20)) false) (Num 20)
           SampleBatch.entries5); reflexivity.
Defined.

Lemma step_after_calls (m : ModuleVars) (cs : list (list BatchEntry))
    (ev : BatcherEvent) (s : BatcherState) :
  step m ev (after_calls cs s) = after_calls cs <$> step m ev s.
Proof.
  destruct s as [bs d ts cs0]. destruct ev as [entry|]; cbn [step].
  - unfold submit, after_calls; cbn [batches debouncing timers calls].
    destruct (bs !! pred (List.length bs)) as [cur|]; [|reflexivity].
    cbn [mbind option_bind].
    destruct ((if ge_js (List.length cur) (batchSize m) then bs ++ [[]] else bs)
                !! pred (List.length
                           (if ge_js (List.length cur) (batchSize m)
                            then bs ++ [[]] else bs))) as [cur1|]; [|reflexivity].
    cbn [mbind option_bind].
    destruct d; [reflexivity|].
    destruct (gt0_js (batchTimeout m)); [reflexivity|].
    cbn [fmap option_fmap option_map flush batches debouncing timers calls].
    rewrite app_assoc. reflexivity.
  - unfold fire, after_calls; cbn [batches debouncing timers calls].
    destruct ts as [|? ts]; cbn [fmap option_fmap option_map]; [reflexivity|].
    cbn [flush batches debouncing timers calls]. rewrite app_assoc. reflexivity.
Qed.

Lemma run_after_calls (m : ModuleVars) (cs : list (list BatchEntry))
    (evs : list BatcherEvent) :
  forall s, run m evs (after_calls cs s) = after_calls cs <$> run m evs s.
Proof.
  induction evs as [|ev evs IH]; intros s; [reflexivity|].
  cbn [run]. rewrite step_after_calls.
  destruct (step m ev s) as [s1|]; [apply IH | reflexivity].
Qed.

(** X5: once the batcher is idle again, what happens next does not depend
    on what happened before: the events that follow run as on a fresh
    batcher, and their store calls come after the calls already issued.
    Successive debounce windows are flushed independently. *)
Theorem batcher_restarts_fresh (m : ModuleVars) (evs1 evs2 : list BatcherEvent)
    (s1 : BatcherState) :
  run m evs1 batchingCache = Some s1 ->
  idle s1 ->
  run m (evs1 ++ evs2) batchingCache =
  after_calls (calls s1) <$> run m evs2 batchingCache.
Proof.
  intros Hrun (Hb & Hd & Ht).
  rewrite run_app, Hrun. cbn [mbind option_bind].
  rewrite <- run_after_calls. f_equal.
  destruct s1 as [bs d ts cs]; cbn in *. subst.
  unfold after_calls; cbn. rewrite app_nil_r. reflexivity.
Qed.

Lemma batcher_restarts_fresh_witness :
  let window := (Submit <$> SampleBatch.entries5) ++ [TimerFires] in
  exists s1,
    run SampleBatch.vars window batchingCache = Some s1 /\ idle s1 /\
    run SampleBatch.vars (window ++ window) batchingCache =
    after_calls (calls s1) <$> run SampleBatch.vars window batchingCache.
Proof.
  intros window. eexists. split; [vm_compute; reflexivity|].
  split; [repeat split|].
  apply batcher_restarts_fresh; [vm_compute; reflexivity | repeat split].
Defined.

(** ** StoreOrchestrator: any response *)

Lemma same_content_refl (b : Bid) : same_content b b.
Proof. repeat split. Qed.

Lemma same_content_trans (b1 b2 b3 : Bid) :
  same_content b1 b2 -> same_content b2 b3 -> same_content b1 b3.
Proof.
  unfold same_content. intros H12 H23.
  destruct H12 as (?&?&?&?&?&?&?&?&?), H23 as (?&?&?&?&?&?&?&?&?).
  repeat split; congruence.
Qed.

Lemma attributes_within_refl (refs : list loc) (w : World) :
  attributes_within refs w w.
Proof.
  split; [reflexivity|]. split; [reflexivity|].
  split; [intros r; apply same_content_refl|].
  exists []. rewrite app_nil_r. reflexivity.
Qed.

Lemma attributes_within_trans (refs : list loc) (w1 w2 w3 : World) :
  attributes_within refs w1 w2 -> attributes_within refs w2 w3 ->
  attributes_within refs w1 w3.
Proof.
  intros (Hc1 & Hh1 & Hs1 & evs1 & Ht1) (Hc2 & Hh2 & Hs2 & evs2 & Ht2).
  split; [congruence|].
  split; [intros r Hr; rewrite Hh2, Hh1 by exact Hr; reflexivity|].
  split; [intros r; eapply same_content_trans; [apply Hs1 | apply Hs2]|].
  exists (evs1 ++ evs2). rewrite Ht2, Ht1, app_assoc. reflexivity.
Qed.

Lemma attributes_within_emit (refs : list loc) (evs : list Event) (w : World) :
  attributes_within refs w (emit evs w).
Proof.
  split; [reflexivity|]. split; [reflexivity|].
  split; [intros r; apply same_content_refl|].
  exists evs. reflexivity.
Qed.

Lemma attributes_within_write (refs : list loc) (r : loc) (b2 : Bid) (w w' : World) :
  r ∈ refs ->
  same_content (heap w r) b2 ->
  heap w' = <[r := b2]> (heap w) ->
  vastsLocalCache w' = vastsLocalCache w ->
  (exists evs, trace w' = trace w ++ evs) ->
  attributes_within refs w w'.
Proof.
  intros Hr Hsame Hheap Hcache Htrace.
  split; [exact Hcache|]. split; [|split; [|exact Htrace]].
  - intros r' Hr'. rewrite Hheap. apply fn_lookup_insert_ne. intros <-. contradiction.
  - intros r'. rewrite Hheap. destruct (decide (r = r')) as [<-|Hne].
    + rewrite fn_lookup_insert. exact Hsame.
    + rewrite fn_lookup_insert_ne by exact Hne. apply same_content_refl.
Qed.

Lemma attribute_within (cfg : Config) (batch : list BatchEntry) (cacheId : json)
    (i : nat) (w : World) :
  attributes_within (bidResponse <$> batch) w
    (world_of (attribute cfg batch cacheId i w)).
Proof.
  unfold attribute.
  destruct (batch !! i) as [entry|] eqn:Hi; [|apply attributes_within_refl].
  destruct (get_prop cacheId "uuid") as [uuid|]; [|apply attributes_within_refl].
  destruct (is_empty_string uuid); cbn [world_of]; [apply attributes_within_emit|].
  assert (Hr : bidResponse entry ∈ bidResponse <$> batch).
  { apply list_elem_of_fmap. exists entry.
    split; [reflexivity | apply (list_elem_of_lookup_2 _ i); exact Hi]. }
  destruct (truthy_str _).
  - apply (attributes_within_write _ (bidResponse entry)
             (set_videoCacheKey uuid (heap w (bidResponse entry)))); try reflexivity.
    + exact Hr.
    + repeat split.
    + eexists. reflexivity.
  - destruct (getCacheUrl _ _) as [url|]; cbn [world_of].
    + apply (attributes_within_write _ (bidResponse entry)
               (set_vastUrl (Some url)
                  (set_videoCacheKey uuid (heap w (bidResponse entry))))); try reflexivity.
      * exact Hr.
      * repeat split.
      * eexists. reflexivity.
    + apply (attributes_within_write _ (bidResponse entry)
               (set_videoCacheKey uuid (heap w (bidResponse entry)))); try reflexivity.
      * exact Hr.
      * repeat split.
      * exists []. cbn. rewrite app_nil_r. reflexivity.
Qed.

Lemma forEach_within (cfg : Config) (batch : list BatchEntry) (ids : list json) :
  forall (i : nat) (w : World),
    attributes_within (bidResponse <$> batch) w
      (world_of (forEach_from (attribute cfg batch) i ids w)).
Proof.
  induction ids as [|c ids IH]; intros i w; [apply attributes_within_refl|].
  cbn [forEach_from].
  pose proof (attribute_within cfg batch c i w) as Hstep.
  destruct (attribute cfg batch c i w) as [w1|w1]; cbn [world_of] in *.
  - eapply attributes_within_trans; [exact Hstep | apply IH].
  - exact Hstep.
Qed.

Lemma storeBatch_done_within (cfg : Config) (batch : list BatchEntry)
    (error : option StoreError) (cacheIds : json) (w : World) :
  attributes_within (bidResponse <$> batch) w
    (world_of (storeBatch_done cfg batch error cacheIds w)).
Proof.
  unfold storeBatch_done. destruct error as [e|]; [apply attributes_within_emit|].
  destruct (get_length cacheIds) as [len|]; [|apply attributes_within_refl].
  destruct (count_strict_neq _ len).
  { destruct (count_mismatch_message _ len);
      [apply attributes_within_emit | apply attributes_within_refl]. }
  destruct cacheIds; try apply attributes_within_refl.
  apply forEach_within.
Qed.

(** X6: whatever the cache server answers (any body, parseable or not,
    any shape of [responses], or a transport error) and whether the
    handler returns or is left by a TypeError, the response handling of
    a batch writes nothing but the [videoCacheKey] and [vastUrl] of bids
    of that batch: the local map, the bids of other batches and all the
    other fields of every bid stay as they were, and the trace is only
    extended. *)
Theorem storeBatch_response_frame (JSON_parse : string -> option json)
    (cfg : Config) (batch : list BatchEntry) (r : AjaxResult) (w : World) :
  attributes_within (bidResponse <$> batch) w
    (world_of (storeBatch_response JSON_parse cfg batch r w)).
Proof.
  unfold storeBatch_response, shimStorageCallback.
  destruct r as [body | statusText body].
  - unfold shim_success. repeat case_match; apply storeBatch_done_within.
  - apply storeBatch_done_within.
Qed.

Lemma storeBatch_response_frame_witness :
  let w' := world_of (storeBatch_response Sample.parse Sample.cfg Sample.batch2
                        (AjaxSuccess "two") Sample.world0) in
  heap w' 5%nat = heap Sample.world0 5%nat /\
  ttl (heap w' 0%nat) = ttl (heap Sample.world0 0%nat) /\
  vastsLocalCache w' = vastsLocalCache Sample.world0.
Proof.
  intros w'.
  destruct (storeBatch_response_frame Sample.parse Sample.cfg Sample.batch2
              (AjaxSuccess "two") Sample.world0) as (Hc & Hh & Hs & _).
  split; [|split; [|exact Hc]].
  - apply Hh. intros H. repeat (apply elem_of_cons in H as [H|H]; [discriminate|]).
    apply elem_of_nil in H. exact H.
  - destruct (Hs 0%nat) as (_ & _ & _ & _ & _ & _ & _ & Httl & _). exact Httl.
Defined.

(** ** ResponseAdapter: what reaches the completion callback *)

(** X7: for every report of [ajax], the adapter hands the completion
    callback either no error together with the truthy [responses] value
    of the parsed body, passed on untouched, or an error together with
    the empty list; never an error with identifiers, never a falsy value
    as identifiers.  A body that parses to [null], and a [responses]
    property that is [null], [false], [0] or the empty string, end in the
    error case. *)
Theorem shimStorageCallback_shape (JSON_parse : string -> option json)
    (done : option StoreError -> json -> World -> Outcome)
    (r : AjaxResult) (w : World) :
  ((exists body v ids,
       r = AjaxSuccess body /\ JSON_parse body = Some v /\
       get_prop v "responses" = Some (Some ids) /\ truthy (Some ids) = true /\
       shimStorageCallback JSON_parse done r w = done None ids w) \/
   (exists e, shimStorageCallback JSON_parse done r w = done (Some e) (JArr []) w)) /\
  (forall body,
      r = AjaxSuccess body -> JSON_parse body = Some JNull ->
      shimStorageCallback JSON_parse done r w = done (Some ParseException) (JArr []) w) /\
  (forall body v ids,
      r = AjaxSuccess body -> JSON_parse body = Some v ->
      get_prop v "responses" = Some (Some ids) ->
      ids = JNull \/ ids = JBool false \/ ids = JNum (Num 0) \/ ids = JStr "" ->
      shimStorageCallback JSON_parse done r w = done (Some MissingResponses) (JArr []) w).
Proof.
  split; [|split].
  - destruct r as [body | statusText body]; [|right; eexists; reflexivity].
    cbn [shimStorageCallback]. unfold shim_success.
    destruct (JSON_parse body) as [v|] eqn:Hp; [|right; eexists; reflexivity].
    cbn [mbind option_bind].
    destruct (get_prop v "responses") as [[ids|]|] eqn:Hv;
      [|right; eexists; reflexivity | right; eexists; reflexivity].
    destruct (truthy (Some ids)) eqn:Htr; [|right; eexists; reflexivity].
    left. exists body, v, ids. auto.
  - intros body -> Hp. cbn [shimStorageCallback]. unfold shim_success.
    rewrite Hp. reflexivity.
  - intros body v ids -> Hp Hv Hfalsy. cbn [shimStorageCallback]. unfold shim_success.
    rewrite Hp. cbn [mbind option_bind]. rewrite Hv.
    destruct Hfalsy as [-> | [-> | [-> | ->]]]; reflexivity.
Qed.

Lemma shimStorageCallback_shape_witness :
  shimStorageCallback SampleResponses.parse (storeBatch_done Sample.cfg Sample.batch2)
    (AjaxSuccess "responses-null") Sample.world0 =
  storeBatch_done Sample.cfg Sample.batch2 (Some MissingResponses) (JArr [])
    Sample.world0 /\
  shimStorageCallback SampleResponses.parse (storeBatch_done Sample.cfg Sample.batch2)
    (AjaxSuccess "null") Sample.world0 =
  storeBatch_done Sample.cfg Sample.batch2 (Some ParseException) (JArr [])
    Sample.world0.
Proof.
  split.
  - destruct (shimStorageCallback_shape SampleResponses.parse
                (storeBatch_done Sample.cfg Sample.batch2)
                (AjaxSuccess "responses-null") Sample.world0) as (_ & _ & H).
    apply (H "responses-null" (JObj [("responses", JNull)]) JNull);
      [reflexivity | reflexivity | reflexivity | left; reflexivity].
  - destruct (shimStorageCallback_shape SampleResponses.parse
                (storeBatch_done Sample.cfg Sample.batch2)
                (AjaxSuccess "null") Sample.world0) as (_ & H & _).
    apply (H "null"); reflexivity.
Defined.

(** ** StoreOrchestrator: malformed identifier lists *)

Lemma forEach_from_app (f : json -> nat -> World -> Outcome) (xs ys : list json) :
  forall (i : nat) (w : World),
    forEach_from f i (xs ++ ys) w =
    match forEach_from f i xs w with
    | Returned w' => forEach_from f (i + List.length xs) ys w'
    | Threw w' => Threw w'
    end.
Proof.
  induction xs as [|x xs IH]; intros i w.
  - cbn. rewrite Nat.add_0_r. reflexivity.
  - cbn [app forEach_from List.length]. destruct (f x i w) as [w1|w1]; [|reflexivity].
    rewrite IH. replace (S i + List.length xs)%nat with (i + S (List.length xs))%nat by lia.
    reflexivity.
Qed.

Lemma fst_zip_take {A B} (l : list A) (k : list B) :
  fst <$> zip l k = take (List.length k) l.
Proof.
  revert k; induction l as [|a l IH]; intros [|b k]; cbn; try reflexivity.
  f_equal. apply IH.
Qed.

(** X8: when the [responses] array has the length of the batch but holds
    a [null] at some position, the positions before it are attributed as
    usual and the handler is then left by a TypeError: the bid at the
    position of the [null] and the bids after it get no cache key, are
    not passed to [addBidToAuction] and their completion callbacks do
    not run, even where their identifiers are valid. *)
Theorem storeBatch_null_identifier (JSON_parse : string -> option json)
    (cfg : Config) (batch : list BatchEntry) (body : string) (v : json)
    (ids1 ids2 : list json) (uuids1 : list string) (w : World) :
  JSON_parse body = Some v ->
  get_prop v "responses" = Some (Some (JArr (ids1 ++ JNull :: ids2))) ->
  Forall2 (fun c u => get_prop c "uuid" = Some (Some (JStr u))) ids1 uuids1 ->
  List.length (ids1 ++ JNull :: ids2) = List.length batch ->
  let w' := foldl (admit_position cfg) w (zip batch uuids1) in
  storeBatch_response JSON_parse cfg batch (AjaxSuccess body) w = Threw w' /\
  (NoDup (bidResponse <$> batch) ->
   forall i e, (List.length ids1 <= i)%nat -> batch !! i = Some e ->
               heap w' (bidResponse e) = heap w (bidResponse e)).
Proof.
  intros Hp Hr Hids Hlen w'.
  pose proof (list.Forall2_length _ _ _ Hids) as Hlen1.
  rewrite length_app in Hlen. cbn [List.length] in Hlen.
  split.
  - unfold storeBatch_response.
    rewrite (shim_success_array JSON_parse _ body v _ w Hp Hr).
    unfold storeBatch_done. cbn [get_length count_strict_neq].
    rewrite length_app. cbn [List.length]. rewrite Hlen, Nat.eqb_refl. cbn [negb].
    rewrite forEach_from_app.
    rewrite (forEach_attribute cfg batch ids1 uuids1 0 w Hids) by (cbn; lia).
    cbn [drop forEach_from Nat.add].
    destruct (lookup_lt_is_Some_2 batch (List.length ids1) ltac:(lia)) as [entry Hentry].
    unfold attribute at 1. rewrite Hentry. reflexivity.
  - intros Hnd i e Hi He. unfold w'. apply foldl_admit_heap_other.
    rewrite list_fmap_compose, fst_zip_take, fmap_take.
    intros Hin. apply list_elem_of_lookup in Hin as [j Hj].
    apply lookup_take_Some in Hj as [Hj Hjlt].
    assert (Hi' : (bidResponse <$> batch) !! i = Some (bidResponse e))
      by (rewrite list_lookup_fmap, He; reflexivity).
    pose proof (NoDup_lookup _ _ _ _ Hnd Hj Hi'). lia.
Qed.

Lemma storeBatch_null_identifier_witness :
  let w' := foldl (admit_position Sample.cfg) Sample.world0 (zip Sample.batch2 ["k1"]) in
  storeBatch_response SampleResponses.parse Sample.cfg Sample.batch2
    (AjaxSuccess "null-then-key") Sample.world0 = Threw w' /\
  heap w' 1%nat = heap Sample.world0 1%nat.
Proof.
  intros w'.
  destruct (storeBatch_null_identifier SampleResponses.parse Sample.cfg Sample.batch2
              "null-then-key"
              (JObj [("responses", JArr [Sample.id_of "k1"; JNull])])
              [Sample.id_of "k1"] [] ["k1"] Sample.world0) as [Hthrow Hkeep].
  - reflexivity.
  - reflexivity.
  - repeat constructor.
  - reflexivity.
  - split; [exact Hthrow|].
    apply (Hkeep ltac:(apply list.NoDup_cons; split;
                       [intros H; apply list_elem_of_singleton in H; discriminate
                       | apply NoDup_singleton]) 1%nat (mkEntry 7%nat 1%nat 101%nat)).
    + cbn. lia.
    + reflexivity.
Defined.

(** X9: a truthy [responses] value that is not an array attributes
    nothing.  When its [length] property is not the number of entries of
    the batch (always so for a number, [true], or an object without a
    matching [length]) the handler reports the count mismatch, with
    [undefined] as the actual count where there is no [length], unless
    that [length] has no text, which is a TypeError; a string of exactly
    as many code units as the batch has entries passes the length check
    and the handler is left by a TypeError.  In every case the bids and
    the local map are untouched and no acceptance or completion event
    is emitted. *)
Theorem storeBatch_done_not_array (cfg : Config) (batch : list BatchEntry)
    (cacheIds : json) (w : World) :
  (forall ids, cacheIds <> JArr ids) ->
  let o := storeBatch_done cfg batch None cacheIds w in
  heap (world_of o) = heap w /\
  vastsLocalCache (world_of o) = vastsLocalCache w /\
  (o = Threw w \/
   exists got text,
     get_length cacheIds = Some got /\ ToString_length got = Some text /\
     o = Returned (emit [EvLogError ("expected " +:+ nat_to_string (List.length batch) +:+
                                     " cache IDs, got " +:+ text +:+ " instead")] w)) /\
  (forall s, cacheIds = JStr s -> js_length s = List.length batch -> o = Threw w) /\
  ((exists x, cacheIds = JNum x) \/ cacheIds = JBool true ->
   o = Returned (emit [EvLogError ("expected " +:+ nat_to_string (List.length batch) +:+
                                   " cache IDs, got undefined instead")] w)).
Proof.
  intros Hna o.
  assert (Hshape : o = Threw w \/
            exists got text,
              get_length cacheIds = Some got /\ ToString_length got = Some text /\
              o = Returned (emit [EvLogError ("expected " +:+
                                    nat_to_string (List.length batch) +:+
                                    " cache IDs, got " +:+ text +:+ " instead")] w)).
  { unfold o, storeBatch_done.
    destruct (get_length cacheIds) as [len|]; [|left; reflexivity].
    destruct (count_strict_neq _ len).
    - unfold count_mismatch_message.
      destruct (ToString_length len) as [text|] eqn:Htext; [|left; reflexivity].
      right. exists len, text. auto.
    - destruct cacheIds as [| | | |ids|]; try (left; reflexivity).
      exfalso. exact (Hna ids eq_refl). }
  split; [|split; [|split; [exact Hshape|split]]].
  - destruct Hshape as [-> | (got & text & _ & _ & ->)]; reflexivity.
  - destruct Hshape as [-> | (got & text & _ & _ & ->)]; reflexivity.
  - intros s -> Hs. unfold o, storeBatch_done.
    cbn [get_length count_strict_neq].
    rewrite Hs, Nat.eqb_refl. reflexivity.
  - intros [[x ->] | ->]; reflexivity.
Qed.

Lemma storeBatch_done_not_array_witness :
  storeBatch_done Sample.cfg Sample.batch2 None (JStr "ab") Sample.world0 =
  Threw Sample.world0 /\
  storeBatch_done Sample.cfg Sample.batch2 None (JNum (Num 2)) Sample.world0 =
  Returned (emit [EvLogError "expected 2 cache IDs, got undefined instead"] Sample.world0) /\
  storeBatch_done Sample.cfg Sample.batch2 None
    (JObj [("length", JNum (dyadic 5 (-1)))]) Sample.world0 =
  Returned (emit [EvLogError "expected 2 cache IDs, got 2.5 instead"] Sample.world0) /\
  storeBatch_done Sample.cfg Sample.batch2 None
    (JObj [("length", JNum (Num 2))]) Sample.world0 = Threw Sample.world0 /\
  storeBatch_done Sample.cfg Sample.batch2 None
    (JObj [("length", JObj [("toString", JNull)])]) Sample.world0 = Threw Sample.world0.
Proof.
  split; [|split; [|split; [|split]]].
  - destruct (storeBatch_done_not_array Sample.cfg Sample.batch2 (JStr "ab")
                Sample.world0 ltac:(discriminate)) as (_ & _ & _ & H & _).
    apply (H "ab"); reflexivity.
  - destruct (storeBatch_done_not_array Sample.cfg Sample.batch2 (JNum (Num 2))
                Sample.world0 ltac:(discriminate)) as (_ & _ & _ & _ & H).
    apply H. left. exists (Num 2). reflexivity.
  - vm_compute. reflexivity.
  - vm_compute. reflexivity.
  - vm_compute. reflexivity.
Defined.

(** X10: only the empty string rejects a position.  An identifier object
    whose [uuid] is missing or is not a string is attributed like a
    valid one: the bid's [videoCacheKey] becomes that value
    ([undefined] when missing), a bid without [vastUrl] gets the
    retrieval URL built from the value's text ([...?uuid=undefined],
    [...?uuid=1e+21]), and the bid is passed to [addBidToAuction]
    followed by its completion callback.  When the bid has no [vastUrl]
    and the value has no text, the handler is left by a TypeError after
    the [videoCacheKey] was written: the bid is neither given a URL nor
    passed on. *)
Theorem storeBatch_done_any_uuid (cfg : Config) (entry : BatchEntry)
    (cacheId : json) (uuid : jsval) (w : World) :
  get_prop cacheId "uuid" = Some uuid ->
  is_empty_string uuid = false ->
  let r := bidResponse entry in
  let keyed := set_videoCacheKey uuid (heap w r) in
  let admitted b' :=
    Returned (emit [EvAddBidToAuction (auctionInstance entry) r b';
                    EvAfterBidAdded (afterBidAdded entry)]
                   (write_bid r b' w)) in
  let o := storeBatch_done cfg [entry] None (JArr [cacheId]) w in
  (truthy_str (vastUrl (heap w r)) = true -> o = admitted keyed) /\
  (truthy_str (vastUrl (heap w r)) = false ->
   forall text, ToString uuid = Some text ->
     o = admitted (set_vastUrl (Some (cache_url cfg +:+ "?uuid=" +:+ text)) keyed)) /\
  (truthy_str (vastUrl (heap w r)) = false -> ToString uuid = None ->
   o = Threw (write_bid r keyed w)) /\
  videoCacheKey keyed = uuid /\
  same_content (heap w r) keyed /\
  (forall url, same_content (heap w r) (set_vastUrl url keyed)).
Proof.
  intros Hu Hne r keyed admitted o.
  assert (Ho : o = if truthy_str (vastUrl keyed) then admitted keyed
                   else match getCacheUrl cfg (videoCacheKey keyed) with
                        | Some url => admitted (set_vastUrl (Some url) keyed)
                        | None => Threw (write_bid r keyed w)
                        end).
  { unfold o, storeBatch_done.
    cbn [get_length count_strict_neq List.length Nat.eqb negb forEach_from].
    unfold attribute. cbn [lookup list_lookup]. rewrite Hu, Hne.
    fold r. fold keyed.
    destruct (truthy_str (vastUrl keyed)); [reflexivity|].
    destruct (getCacheUrl cfg (videoCacheKey keyed)); reflexivity. }
  change (vastUrl keyed) with (vastUrl (heap w r)) in Ho.
  change (videoCacheKey keyed) with uuid in Ho.
  split; [|split; [|split; [|split; [|split]]]].
  - intros Hurl. rewrite Ho, Hurl. reflexivity.
  - intros Hurl text Htext. rewrite Ho, Hurl. unfold getCacheUrl. rewrite Htext. reflexivity.
  - intros Hurl Htext. rewrite Ho, Hurl. unfold getCacheUrl. rewrite Htext. reflexivity.
  - reflexivity.
  - repeat split.
  - intros url. repeat split.
Qed.

Lemma storeBatch_done_any_uuid_witness :
  let entry := mkEntry 7%nat 1%nat 101%nat in
  let admitted b' :=
    Returned (emit [EvAddBidToAuction 7%nat 1%nat b'; EvAfterBidAdded 101%nat]
                   (write_bid 1%nat b' Sample.world0)) in
  storeBatch_done Sample.cfg [entry] None (JArr [JObj [("id", JStr "k1")]]) Sample.world0 =
    admitted (set_vastUrl (Some "https://cache.example/cache?uuid=undefined")
                (set_videoCacheKey None Sample.bid_xml)) /\
  storeBatch_done Sample.cfg [entry] None
    (JArr [JObj [("uuid", JNum (Num (10 ^ 21)))]]) Sample.world0 =
    admitted (set_vastUrl (Some "https://cache.example/cache?uuid=1e+21")
                (set_videoCacheKey (Some (JNum (Num (10 ^ 21)))) Sample.bid_xml)) /\
  storeBatch_done Sample.cfg [entry] None
    (JArr [JObj [("uuid", JObj [("toString", JStr "k1")])]]) Sample.world0 =
    Threw (write_bid 1%nat
             (set_videoCacheKey (Some (JObj [("toString", JStr "k1")])) Sample.bid_xml)
             Sample.world0).
Proof.
  intros entry admitted.
  split; [|split].
  - destruct (storeBatch_done_any_uuid Sample.cfg entry
                (JObj [("id", JStr "k1")]) None Sample.world0 eq_refl eq_refl)
      as (_ & H & _).
    apply (H eq_refl "undefined" eq_refl).
  - destruct (storeBatch_done_any_uuid Sample.cfg entry
                (JObj [("uuid", JNum (Num (10 ^ 21)))]) (Some (JNum (Num (10 ^ 21))))
                Sample.world0 eq_refl eq_refl)
      as (_ & H & _).
    apply (H eq_refl "1e+21"). vm_compute. reflexivity.
  - destruct (storeBatch_done_any_uuid Sample.cfg entry
                (JObj [("uuid", JObj [("toString", JStr "k1")])])
                (Some (JObj [("toString", JStr "k1")]))
                Sample.world0 eq_refl eq_refl)
      as (_ & _ & H & _).
    apply (H eq_refl eq_refl).
Defined.

(** ** StoreOrchestrator: request and response correlate by position *)

(** X11: [storeBatch] issues exactly one [ajax] call, to [cache.url],
    with one payload per entry in batch order, computed from the bid as
    it is at flush time, and changes nothing else.  When the answer
    carries as many string identifiers as the batch has entries (the
    entries holding distinct bids), the identifier at position [i] ends
    up on the bid whose payload was sent at position [i]: as its
    [videoCacheKey] when it is not empty, and not at all when it is. *)
Theorem storeBatch_correlates (JSON_parse : string -> option json)
    (StringToNumber : string -> number)
    (cfg : Config) (index : AuctionIndex) (batch : list BatchEntry)
    (body : string) (v : json) (ids : list json) (uuids : list string)
    (w0 w : World) :
  JSON_parse body = Some v ->
  get_prop v "responses" = Some (Some (JArr ids)) ->
  Forall2 (fun c u => get_prop c "uuid" = Some (Some (JStr u))) ids uuids ->
  List.length ids = List.length batch ->
  NoDup (bidResponse <$> batch) ->
  exists puts w',
    storeBatch StringToNumber cfg index batch w0 =
      emit [EvAjax (cache_url cfg) puts] w0 /\
    List.length puts = List.length batch /\
    storeBatch_response JSON_parse cfg batch (AjaxSuccess body) w = Returned w' /\
    forall i e,
      batch !! i = Some e ->
      exists u,
        uuids !! i = Some u /\
        puts !! i = Some (toStorageRequest StringToNumber cfg index
                            (heap w0 (bidResponse e))) /\
        (u <> "" -> videoCacheKey (heap w' (bidResponse e)) = Some (JStr u)) /\
        (u = "" -> heap w' (bidResponse e) = heap w (bidResponse e)).
Proof.
  intros Hp Hr Hids Hlen Hnd.
  pose proof (list.Forall2_length _ _ _ Hids) as Hlen2.
  exists ((fun r => toStorageRequest StringToNumber cfg index (heap w0 r))
            <$> (bidResponse <$> batch)),
         (foldl (admit_position cfg) w (zip batch uuids)).
  split; [reflexivity|].
  split; [rewrite !length_fmap; reflexivity|].
  split.
  { unfold storeBatch_response.
    rewrite (shim_success_array JSON_parse _ body v ids w Hp Hr).
    unfold storeBatch_done. cbn [get_length count_strict_neq].
    rewrite Hlen, Nat.eqb_refl. cbn [negb].
    rewrite (forEach_attribute cfg batch ids uuids 0 w Hids) by (cbn; lia).
    reflexivity. }
  intros i e He.
  destruct (lookup_lt_is_Some_2 uuids i) as [u Hu].
  { apply lookup_lt_Some in He. lia. }
  exists u. split; [exact Hu|].
  split; [rewrite !list_lookup_fmap, He; reflexivity|].
  assert (Hat : heap (foldl (admit_position cfg) w (zip batch uuids)) (bidResponse e) =
                if decide (u = "") then heap w (bidResponse e)
                else accepted_bid cfg u (heap w (bidResponse e))).
  { apply (foldl_admit_heap_at cfg _ w i e u).
    - rewrite list_fmap_compose, fst_zip by lia. exact Hnd.
    - apply lookup_zip_with_Some. exists e, u. auto. }
  split; intros Hcase; rewrite Hat.
  - rewrite decide_False by exact Hcase. reflexivity.
  - rewrite decide_True by exact Hcase. reflexivity.
Qed.

Lemma storeBatch_correlates_witness :
  exists puts w',
    storeBatch Sample.StringToNumber Sample.cfg (fun _ => None) Sample.batch2
      Sample.world0 =
    emit [EvAjax "https://cache.example/cache" puts] Sample.world0 /\
    List.length puts = 2%nat /\
    storeBatch_response Sample.parse Sample.cfg Sample.batch2 (AjaxSuccess "two")
      Sample.world0 = Returned w' /\
    puts !! 0%nat = Some (toStorageRequest Sample.StringToNumber Sample.cfg
                            (fun _ => None) Sample.bid_url) /\
    videoCacheKey (heap w' 0%nat) = Some (JStr "k1") /\
    heap w' 1%nat = Sample.bid_xml.
Proof.
  destruct (storeBatch_correlates Sample.parse Sample.StringToNumber Sample.cfg
              (fun _ => None) Sample.batch2
              "two" (JObj [("responses", JArr [Sample.id_of "k1"; Sample.id_of ""])])
              [Sample.id_of "k1"; Sample.id_of ""] ["k1"; ""]
              Sample.world0 Sample.world0)
    as (puts & w' & Hreq & Hlen & Hresp & Hpos).
  - reflexivity.
  - reflexivity.
  - repeat constructor.
  - reflexivity.
  - apply list.NoDup_cons. split; [|apply NoDup_singleton].
    intros H. apply list_elem_of_singleton in H. discriminate.
  - exists puts, w'. split; [exact Hreq|]. split; [exact Hlen|]. split; [exact Hresp|].
    destruct (Hpos 0%nat (mkEntry 7%nat 0%nat 100%nat) eq_refl) as (u0 & Hu0 & Hp0 & Hk0 & _).
    destruct (Hpos 1%nat (mkEntry 7%nat 1%nat 101%nat) eq_refl) as (u1 & Hu1 & _ & _ & He1).
    injection Hu0 as <-. injection Hu1 as <-.
    split; [exact Hp0|]. split; [apply Hk0; discriminate | apply He1; reflexivity].
Defined.

(** ** LocalCacheStore: storing twice, storing then expiring *)

Lemma stored_world_heap (r : loc) (d : string) (w : World) :
  heap (stored_world r d w) = <[r := set_vastUrl (Some d) (heap w r)]> (heap w).
Proof. reflexivity. Qed.

Lemma stored_world_cache (r : loc) (d : string) (w : World) :
  vastsLocalCache (stored_world r d w) =
  <[getLocalCacheBidId (heap w r) := d]> (vastsLocalCache w).
Proof. reflexivity. Qed.

(** X12: [storeLocally] touches one bid and one key.  When two different
    bids have the same [bidderCode] and [adId] and the content of each
    has a base64 text, both stores return and the second overwrites the
    entry of the first: the map then holds the data URI of the second
    bid under the shared key, while the first bid still carries its own
    data URI as [vastUrl]; every other bid and every other key is as
    before the two stores. *)
Theorem storeLocally_last_store_wins (r1 r2 : loc) (w : World) (e1 e2 : string) :
  r1 <> r2 ->
  getLocalCacheBidId (heap w r1) = getLocalCacheBidId (heap w r2) ->
  btoa (getVastValue (heap w r1)) = Some e1 ->
  btoa (getVastValue (heap w r2)) = Some e2 ->
  let d1 := "data:text/xml;base64," +:+ e1 in
  let d2 := "data:text/xml;base64," +:+ e2 in
  exists w1 w',
    storeLocally r1 w = Returned w1 /\
    storeLocally r2 w1 = Returned w' /\
    vastsLocalCache w' = <[getLocalCacheBidId (heap w r2) := d2]> (vastsLocalCache w) /\
    vastsLocalCache w' !! getLocalCacheBidId (heap w r1) = Some d2 /\
    vastUrl (heap w' r1) = Some d1 /\
    vastUrl (heap w' r2) = Some d2 /\
    (forall r, r <> r1 -> r <> r2 -> heap w' r = heap w r) /\
    (forall k, k <> getLocalCacheBidId (heap w r2) ->
               vastsLocalCache w' !! k = vastsLocalCache w !! k).
Proof.
  intros Hne Hkey He1 He2 d1 d2.
  assert (H2 : heap (stored_world r1 d1 w) r2 = heap w r2).
  { rewrite stored_world_heap. apply fn_lookup_insert_ne. exact Hne. }
  exists (stored_world r1 d1 w), (stored_world r2 d2 (stored_world r1 d1 w)).
  split; [apply storeLocally_Returned; exact He1|].
  split; [apply storeLocally_Returned; rewrite H2; exact He2|].
  assert (Hc : vastsLocalCache (stored_world r2 d2 (stored_world r1 d1 w)) =
               <[getLocalCacheBidId (heap w r2) := d2]> (vastsLocalCache w)).
  { rewrite stored_world_cache, H2, stored_world_cache, Hkey.
    apply insert_insert_eq. }
  split; [exact Hc|]. split; [rewrite Hc, Hkey; apply lookup_insert_eq|].
  split.
  { rewrite stored_world_heap, fn_lookup_insert_ne by congruence.
    rewrite stored_world_heap, fn_lookup_insert. reflexivity. }
  split.
  { rewrite stored_world_heap, fn_lookup_insert. reflexivity. }
  split.
  - intros r Hr1 Hr2.
    rewrite stored_world_heap, fn_lookup_insert_ne by congruence.
    rewrite stored_world_heap, fn_lookup_insert_ne by congruence. reflexivity.
  - intros k Hk. rewrite Hc. apply lookup_insert_ne. congruence.
Qed.

Lemma storeLocally_last_store_wins_witness :
  let twin : loc -> Bid :=
    fun r => match r with
             | O => Sample.bid_url
             | _ => set_vastUrl (Some "http://y/other.xml") Sample.bid_url
             end in
  let w := mkWorld twin ∅ [] in
  exists e2 w1 w',
    btoa (getVastValue (twin 1%nat)) = Some e2 /\
    storeLocally 0%nat w = Returned w1 /\
    storeLocally 1%nat w1 = Returned w' /\
    vastsLocalCache w' !! "nexverse_ad1" = Some ("data:text/xml;base64," +:+ e2).
Proof.
  intros twin w.
  destruct (storeLocally_last_store_wins 0%nat 1%nat w
              (Base64.btoa (getVastValue (twin 0%nat)))
              (Base64.btoa (getVastValue (twin 1%nat)))
              ltac:(discriminate) eq_refl
              ltac:(apply btoa_ascii; vm_compute; reflexivity)
              ltac:(apply btoa_ascii; vm_compute; reflexivity))
    as (w1 & w' & H1 & H2 & _ & H & _).
  exists (Base64.btoa (getVastValue (twin 1%nat))), w1, w'.
  split; [apply btoa_ascii; vm_compute; reflexivity|].
  split; [exact H1|]. split; [exact H2 | exact H].
Defined.

(** X13: storing the same bid a second time.  For a bid with a non-empty
    [vastXml] nothing changes: same map, same bids.  For a bid without
    one, the first store has replaced its [vastUrl] by the data URI, so
    the second store encodes a wrapper around that data URI, not around
    the original URL, and stores this new data URI. *)
Theorem storeLocally_twice (r : loc) (w : World) (e1 : string) :
  let b := heap w r in
  btoa (getVastValue b) = Some e1 ->
  let d1 := "data:text/xml;base64," +:+ e1 in
  exists w1,
    storeLocally r w = Returned w1 /\
    (truthy_str (vastXml b) = true ->
     exists w2,
       storeLocally r w1 = Returned w2 /\
       vastsLocalCache w2 = vastsLocalCache w1 /\ forall r', heap w2 r' = heap w1 r') /\
    (truthy_str (vastXml b) = false ->
     vastUrl (heap w1 r) = Some d1 /\
     getVastValue (heap w1 r) = wrapURI (Some d1) (vastImpUrl b) /\
     forall e2,
       btoa (wrapURI (Some d1) (vastImpUrl b)) = Some e2 ->
       exists w2,
         storeLocally r w1 = Returned w2 /\
         vastUrl (heap w2 r) = Some ("data:text/xml;base64," +:+ e2) /\
         vastsLocalCache w2 !! getLocalCacheBidId b =
           Some ("data:text/xml;base64," +:+ e2)).
Proof.
  intros b He1 d1.
  exists (stored_world r d1 w).
  split; [apply storeLocally_Returned; exact He1|].
  assert (H1 : heap (stored_world r d1 w) r = set_vastUrl (Some d1) b).
  { rewrite stored_world_heap. apply fn_lookup_insert. }
  split; intros Hxml.
  - assert (Hv : getVastValue (heap (stored_world r d1 w) r) = getVastValue b).
    { rewrite H1. unfold getVastValue. cbn [vastXml set_vastUrl]. rewrite Hxml. reflexivity. }
    exists (stored_world r d1 (stored_world r d1 w)).
    split; [apply storeLocally_Returned; rewrite Hv; exact He1|].
    split.
    + rewrite stored_world_cache, H1, stored_world_cache. apply insert_insert_eq.
    + intros r'. rewrite stored_world_heap, H1, stored_world_heap.
      destruct (decide (r = r')) as [<-|Hne].
      * rewrite !fn_lookup_insert. reflexivity.
      * rewrite !fn_lookup_insert_ne by exact Hne. reflexivity.
  - assert (Hv : getVastValue (heap (stored_world r d1 w) r) =
                 wrapURI (Some d1) (vastImpUrl b)).
    { rewrite H1. unfold getVastValue. cbn [vastXml vastUrl vastImpUrl set_vastUrl].
      rewrite Hxml. reflexivity. }
    split; [rewrite H1; reflexivity|]. split; [exact Hv|].
    intros e2 He2.
    exists (stored_world r ("data:text/xml;base64," +:+ e2) (stored_world r d1 w)).
    split; [apply storeLocally_Returned; rewrite Hv; exact He2|].
    split.
    + rewrite stored_world_heap, fn_lookup_insert. reflexivity.
    + rewrite stored_world_cache, H1. apply lookup_insert_eq.
Qed.

Lemma storeLocally_twice_witness :
  (exists w1 w2,
      storeLocally 1%nat Sample.world0 = Returned w1 /\
      storeLocally 1%nat w1 = Returned w2 /\
      vastsLocalCache w2 = vastsLocalCache w1) /\
  (exists w1,
      storeLocally 0%nat Sample.world0 = Returned w1 /\
      getVastValue (heap w1 0%nat) =
      wrapURI (Some ("data:text/xml;base64," +:+
                     Base64.btoa (getVastValue Sample.bid_url))) NoTrackers).
Proof.
  split.
  - destruct (storeLocally_twice 1%nat Sample.world0
                (Base64.btoa (getVastValue Sample.bid_xml))
                ltac:(apply btoa_ascii; vm_compute; reflexivity))
      as (w1 & Hw1 & Hxml & _).
    destruct (Hxml eq_refl) as (w2 & Hw2 & Hc & _).
    exists w1, w2. auto.
  - destruct (storeLocally_twice 0%nat Sample.world0
                (Base64.btoa (getVastValue Sample.bid_url))
                ltac:(apply btoa_ascii; vm_compute; reflexivity))
      as (w1 & Hw1 & _ & Hurl).
    destruct (Hurl eq_refl) as (_ & H & _).
    exists w1. auto.
Defined.

Lemma expiryHandler_lookup (auction : Auction) (w : World) (k : string) :
  vastsLocalCache (expiryHandler auction w) !! k =
  if decide (k ∈ (fun r => getLocalCacheBidId (heap w r)) <$> getBidsReceived auction)
  then None else vastsLocalCache w !! k.
Proof. unfold expiryHandler, set_cache; cbn [vastsLocalCache]. apply lookup_foldl_delete. Qed.

(** X14: a bid stored locally and then expired.  After a [storeLocally]
    that returned and the expiry notification of an auction that
    received the bid (local mode configured), the map has no entry under
    the bid's key any more, while the bid still carries the data URI as
    its [vastUrl]: the expiry removes the map entry only. *)
Theorem storeLocally_then_expiry (cache : CacheConfig) (m : ModuleVars)
    (auction : Auction) (r : loc) (w : World) (encoded : string) :
  cfg_useLocal cache = true ->
  r ∈ getBidsReceived auction ->
  btoa (getVastValue (heap w r)) = Some encoded ->
  exists w1,
    storeLocally r w = Returned w1 /\
    let w2 := notifyExpiry (applyCacheConfig true cache m) auction w1 in
    vastsLocalCache w1 !! getLocalCacheBidId (heap w r) =
      Some ("data:text/xml;base64," +:+ encoded) /\
    vastsLocalCache w2 !! getLocalCacheBidId (heap w r) = None /\
    vastUrl (heap w2 r) = Some ("data:text/xml;base64," +:+ encoded).
Proof.
  intros Hlocal Hr Henc.
  set (d := "data:text/xml;base64," +:+ encoded).
  exists (stored_world r d w).
  split; [apply storeLocally_Returned; exact Henc|].
  intros w2.
  assert (Hw2 : w2 = expiryHandler auction (stored_world r d w)).
  { unfold w2, notifyExpiry, applyCacheConfig, cacheSubscriber; cbn [cleanupHandler].
    rewrite Hlocal. destruct (cleanupHandler m); reflexivity. }
  assert (H1 : heap (stored_world r d w) r = set_vastUrl (Some d) (heap w r)).
  { rewrite stored_world_heap. apply fn_lookup_insert. }
  split; [rewrite stored_world_cache; apply lookup_insert_eq|].
  split.
  - rewrite Hw2, expiryHandler_lookup, decide_True; [reflexivity|].
    apply list_elem_of_fmap. exists r. split; [rewrite H1; reflexivity | exact Hr].
  - rewrite Hw2. change (heap (expiryHandler auction (stored_world r d w)))
      with (heap (stored_world r d w)).
    rewrite H1. reflexivity.
Qed.

Lemma storeLocally_then_expiry_witness :
  exists encoded w1,
    btoa (getVastValue (heap Sample.world0 0%nat)) = Some encoded /\
    storeLocally 0%nat Sample.world0 = Returned w1 /\
    let w2 := notifyExpiry (applyCacheConfig true SampleLocal.cache_on initialVars)
                SampleLocal.auctionA w1 in
    vastsLocalCache w1 !! getLocalCacheBidId (heap Sample.world0 0%nat) =
      Some ("data:text/xml;base64," +:+ encoded) /\
    vastsLocalCache w2 !! getLocalCacheBidId (heap Sample.world0 0%nat) = None /\
    vastUrl (heap w2 0%nat) = Some ("data:text/xml;base64," +:+ encoded).
Proof.
  destruct (storeLocally_then_expiry SampleLocal.cache_on initialVars
              SampleLocal.auctionA 0%nat Sample.world0
              (Base64.btoa (getVastValue (heap Sample.world0 0%nat))) eq_refl
              ltac:(apply list_elem_of_singleton; reflexivity)
              ltac:(apply btoa_ascii; vm_compute; reflexivity))
    as (w1 & Hw1 & H).
  exists (Base64.btoa (getVastValue (heap Sample.world0 0%nat))), w1.
  split; [apply btoa_ascii; vm_compute; reflexivity|].
  split; [exact Hw1 | exact H].
Defined.

(** X15: expiry notifications can be repeated and reordered.  Handling
    the expiry of the same auction twice leaves the map as handling it
    once, and handling the expiries of two auctions in either order
    leaves the same map; bids and trace are never touched. *)
Theorem expiryHandler_idempotent_commutes (a1 a2 : Auction) (w : World) :
  vastsLocalCache (expiryHandler a1 (expiryHandler a1 w)) =
    vastsLocalCache (expiryHandler a1 w) /\
  vastsLocalCache (expiryHandler a1 (expiryHandler a2 w)) =
    vastsLocalCache (expiryHandler a2 (expiryHandler a1 w)) /\
  heap (expiryHandler a1 (expiryHandler a2 w)) = heap w /\
  trace (expiryHandler a1 (expiryHandler a2 w)) = trace w.
Proof.
  split; [|split; [|split; reflexivity]].
  - apply map_eq. intros k. rewrite !expiryHandler_lookup.
    change (heap (expiryHandler a1 w)) with (heap w).
    destruct (decide (k ∈ _)); reflexivity.
  - apply map_eq. intros k. rewrite !expiryHandler_lookup.
    change (heap (expiryHandler a1 w)) with (heap w).
    change (heap (expiryHandler a2 w)) with (heap w).
    repeat destruct (decide (k ∈ _)); reflexivity.
Qed.

(** ** Configuration over time *)

Lemma configured_cleanupHandler (caches : list CacheConfig) :
  forall m,
    cleanupHandler (configured true caches m) =
    cleanupHandler m || existsb cfg_useLocal caches.
Proof.
  unfold configured.
  induction caches as [|cache caches IH]; intros m; cbn [foldl existsb].
  - rewrite orb_false_r. reflexivity.
  - rewrite IH. unfold applyCacheConfig, cacheSubscriber; cbn [cleanupHandler].
    destruct (cleanupHandler m), (cfg_useLocal cache); reflexivity.
Qed.

(** X16: over any sequence of cache configurations, the batch size and
    the delay are those of the last configuration alone, while the
    expiry handler, once registered by a configuration with [useLocal],
    stays registered whatever is configured later.  As long as no
    configuration had [useLocal], an expiry notification changes
    nothing.  Without [FEATURES.VIDEO] configurations are ignored. *)
Theorem configuration_sequence (caches : list CacheConfig) (last : CacheConfig)
    (m : ModuleVars) :
  let m' := configured true (caches ++ [last]) m in
  batchSize m' = batchSize (applyCacheConfig true last initialVars) /\
  batchTimeout m' = batchTimeout (applyCacheConfig true last initialVars) /\
  cleanupHandler m' = cleanupHandler m || existsb cfg_useLocal (caches ++ [last]) /\
  (cleanupHandler m = false -> existsb cfg_useLocal (caches ++ [last]) = false ->
   forall auction w, notifyExpiry m' auction w = w) /\
  configured false (caches ++ [last]) m = m.
Proof.
  intros m'.
  assert (Hlast : m' = applyCacheConfig true last (configured true caches m)).
  { unfold m', configured. rewrite foldl_app. reflexivity. }
  assert (Hh : cleanupHandler m' =
               cleanupHandler m || existsb cfg_useLocal (caches ++ [last])).
  { apply configured_cleanupHandler. }
  split; [rewrite Hlast; reflexivity|].
  split; [rewrite Hlast; reflexivity|].
  split; [exact Hh|].
  split.
  - intros Hm Hnone auction w. unfold notifyExpiry.
    rewrite Hh, Hm, Hnone. reflexivity.
  - clear. unfold configured. generalize (caches ++ [last]). intros l.
    induction l as [|c l IH]; [reflexivity|].
    cbn [foldl applyCacheConfig]. exact IH.
Qed.

Lemma configuration_sequence_witness :
  let caches := [mkCacheConfig (Some (JNum (Num 5))) (Some (JNum (Num 50))) false] in
  let last := mkCacheConfig None (Some (JNum (Num 30))) false in
  batchSize (configured true (caches ++ [last]) initialVars) = Some (Num 1) /\
  notifyExpiry (configured true (caches ++ [last]) initialVars)
    SampleLocal.auctionA SampleLocal.world = SampleLocal.world.
Proof.
  intros caches last.
  destruct (configuration_sequence caches last initialVars) as (Hs & _ & _ & H & _).
  split; [exact Hs | apply H; reflexivity].
Defined.

(** ** LocalCacheStore: combining with the ad server's wrapper, in general *)

Lemma app_inv_length (a b x y : string) :
  a +:+ x = b +:+ y -> String.length a = String.length b -> a = b /\ x = y.
Proof.
  revert b; induction a as [|c a IH]; intros [|d b] Heq Hlen; try discriminate.
  - cbn in Heq. auto.
  - cbn in Heq, Hlen. injection Heq as -> Heq. injection Hlen as Hlen.
    destruct (IH b Heq Hlen) as [-> ->]. auto.
Qed.

Lemma find_first_complete (pat doc before after : string) :
  leftmost_split pat doc before after ->
  StringReplace.find_first pat doc = Some (before, after).
Proof.
  intros [Hdoc Hmin].
  destruct (StringReplace.find_first pat doc) as [[b a]|] eqn:Hf.
  - pose proof (find_first_Some _ _ _ _ Hf) as Hba.
    pose proof (find_first_leftmost _ _ _ _ Hf before after Hdoc) as Hle.
    pose proof (Hmin b a Hba) as Hge.
    rewrite Hdoc in Hba.
    destruct (app_inv_length before b _ _ Hba ltac:(lia)) as [-> Hrest].
    apply String.app_inj in Hrest. subst a. reflexivity.
  - exfalso. exact (find_first_None _ _ Hf before after Hdoc).
Qed.

Lemma find_first_absent (pat doc : string) :
  (forall before after, doc <> before +:+ pat +:+ after) ->
  StringReplace.find_first pat doc = None.
Proof.
  intros Habs.
  destruct (StringReplace.find_first pat doc) as [[b a]|] eqn:Hf; [|reflexivity].
  exfalso. exact (Habs b a (find_first_Some _ _ _ _ Hf)).
Qed.

Lemma getLocalCachedBidWithGam_ok (custParams : CustParams) (response : FetchResponse)
    (w : World) :
  ok response = true ->
  getLocalCachedBidWithGam custParams response w =
  (Some (StringReplace.replace (text response) (placeholder_of custParams)
           (vastsLocalCache w !! key_of custParams)), w).
Proof.
  intros Hok. unfold getLocalCachedBidWithGam. rewrite Hok. reflexivity.
Qed.

(** X17: when the fetch fails, [getLocalCachedBidWithGam] yields nothing
    and reports one error; when it succeeds and the fetched document
    does not hold the placeholder of the bidder, the document is returned
    as fetched, whether or not the map has an entry for the pair.  In
    both cases bids and map are left alone. *)
Theorem getLocalCachedBidWithGam_no_substitution (custParams : CustParams)
    (response : FetchResponse) (w : World) :
  (ok response = false ->
   getLocalCachedBidWithGam custParams response w =
   (None, emit [EvLogError "Unable to fetch valid response from Google Ad Manager"] w)) /\
  (ok response = true ->
   (forall before after,
       text response <> before +:+ placeholder_of custParams +:+ after) ->
   getLocalCachedBidWithGam custParams response w = (Some (text response), w)).
Proof.
  split.
  - intros Hok. unfold getLocalCachedBidWithGam. rewrite Hok. reflexivity.
  - intros Hok Habs. rewrite getLocalCachedBidWithGam_ok by exact Hok.
    unfold StringReplace.replace. rewrite (find_first_absent _ _ Habs). reflexivity.
Qed.

Lemma getLocalCachedBidWithGam_no_substitution_witness :
  getLocalCachedBidWithGam SampleGam.custParams (mkResponse false "") SampleGam.stored =
  (None, emit [EvLogError "Unable to fetch valid response from Google Ad Manager"]
              SampleGam.stored).
Proof.
  destruct (getLocalCachedBidWithGam_no_substitution SampleGam.custParams
              (mkResponse false "") SampleGam.stored) as [H _].
  apply H. reflexivity.
Defined.

(** X18: when the fetch succeeds and the map holds, for the pair of the
    tag URL, a value without [$] (every value [storeLocally] stores is
    one: a data URI in base64), the result is the fetched document with
    the leftmost occurrence of the placeholder, and no other, replaced
    by that value; the world is unchanged. *)
Theorem getLocalCachedBidWithGam_substitutes (custParams : CustParams)
    (response : FetchResponse) (w : World) (before after uri : string) :
  ok response = true ->
  vastsLocalCache w !! key_of custParams = Some uri ->
  free_of "$"%char uri = true ->
  leftmost_split (placeholder_of custParams) (text response) before after ->
  getLocalCachedBidWithGam custParams response w =
    (Some (before +:+ uri +:+ after), w) /\
  (forall content,
      free_of "$"%char ("data:text/xml;base64," +:+ Base64.btoa content) = true).
Proof.
  intros Hok Hentry Hplain Hsplit. split.
  - rewrite getLocalCachedBidWithGam_ok by exact Hok.
    unfold StringReplace.replace. rewrite Hentry, (find_first_complete _ _ _ _ Hsplit).
    cbn [ToString_str]. rewrite getSubstitution_plain by exact Hplain. reflexivity.
  - intros content. rewrite free_of_app, btoa_free_of_dollar. reflexivity.
Qed.

(** X19: when the fetch succeeds, the fetched document holds the
    placeholder and the map has no entry for the pair of the tag URL
    (never stored, or removed at expiry), the leftmost placeholder is
    replaced by the nine characters [undefined]. *)
Theorem getLocalCachedBidWithGam_absent_entry (custParams : CustParams)
    (response : FetchResponse) (w : World) (before after : string) :
  ok response = true ->
  vastsLocalCache w !! key_of custParams = None ->
  leftmost_split (placeholder_of custParams) (text response) before after ->
  getLocalCachedBidWithGam custParams response w =
    (Some (before +:+ "undefined" +:+ after), w).
Proof.
  intros Hok Hentry Hsplit.
  rewrite getLocalCachedBidWithGam_ok by exact Hok.
  unfold StringReplace.replace. rewrite Hentry, (find_first_complete _ _ _ _ Hsplit).
  reflexivity.
Qed.

Lemma find_first_leftmost_split (pat doc before after : string) :
  StringReplace.find_first pat doc = Some (before, after) ->
  leftmost_split pat doc before after.
Proof.
  intros Hf. split.
  - apply find_first_Some. exact Hf.
  - apply (find_first_leftmost _ _ _ _ Hf).
Qed.

Lemma getLocalCachedBidWithGam_substitutes_witness :
  getLocalCachedBidWithGam SampleGam.custParams SampleGam2.response SampleGam.stored =
  (Some (SampleGam2.before +:+
         ("data:text/xml;base64," +:+ Base64.btoa (getVastValue Sample.bid_url)) +:+
         SampleGam2.after),
   SampleGam.stored).
Proof.
  apply (getLocalCachedBidWithGam_substitutes SampleGam.custParams SampleGam2.response
           SampleGam.stored SampleGam2.before SampleGam2.after).
  - reflexivity.
  - vm_compute. reflexivity.
  - vm_compute. reflexivity.
  - apply find_first_leftmost_split. vm_compute. reflexivity.
Defined.

Lemma getLocalCachedBidWithGam_absent_entry_witness :
  getLocalCachedBidWithGam SampleGam.custParams SampleGam2.response Sample.world0 =
  (Some (SampleGam2.before +:+ "undefined" +:+ SampleGam2.after), Sample.world0).
Proof.
  apply (getLocalCachedBidWithGam_absent_entry SampleGam.custParams SampleGam2.response
           Sample.world0 SampleGam2.before SampleGam2.after).
  - reflexivity.
  - reflexivity.
  - apply find_first_leftmost_split. vm_compute. reflexivity.
Defined.

(** ** VastWrapperBuilder: any number of trackers *)

Lemma impressions_occurrences (ts : list string) (rest : string) :
  Forall (fun t => free_of "<"%char t = true) ts ->
  occurrences "<Impression>" (join_empty (impressionElement <$> ts) +:+ rest) =
  (List.length ts + occurrences "<Impression>" rest)%nat.
Proof.
  induction 1 as [|t ts Ht _ IH]; [reflexivity|].
  cbn [fmap list_fmap join_empty List.length].
  change (list_fmap string string impressionElement ts) with (impressionElement <$> ts).
  rewrite (app_assoc_s (impressionElement t)).
  rewrite (impressionElement_occurrences t _ Ht), IH. reflexivity.
Qed.

(** X20: trackers are normalised before use.  One non-empty tracker
    string gives the document of the one-element array; an empty tracker
    string, like an empty array, gives the document without trackers.
    For an array, every element gets its impression element, also an
    empty string: with a uri and trackers free of markup the document
    counts as many [Impression] tags as the array has elements. *)
Theorem wrapURI_trackers :
  (forall uri t, t <> "" ->
                 wrapURI uri (OneTracker t) = wrapURI uri (TrackerList [t])) /\
  (forall uri, wrapURI uri (OneTracker "") = wrapURI uri NoTrackers /\
               wrapURI uri (TrackerList []) = wrapURI uri NoTrackers) /\
  (forall uri ts,
      free_of "<"%char uri = true ->
      Forall (fun t => free_of "<"%char t = true) ts ->
      occurrences "<Impression>" (wrapURI (Some uri) (TrackerList ts)) =
      List.length ts).
Proof.
  split; [|split].
  - intros uri t Ht. unfold wrapURI, impressions, normalizeTrackers.
    destruct (String.eqb_spec t ""); [contradiction | reflexivity].
  - intros uri. split; reflexivity.
  - intros uri ts Hu Hts. unfold wrapURI. cbn [ToString_str].
    destruct (free_of_no_occurrence "<"%char "Impression>" uri Hu) as [Hu0 Hus].
    rewrite (occurrences_app "<"%char "Impression>" wrapper_head _ eq_refl).
    rewrite (occurrences_app "<"%char "Impression>" uri _ Hus).
    rewrite (occurrences_app "<"%char "Impression>" wrapper_mid _ eq_refl).
    unfold impressions; cbn [normalizeTrackers].
    rewrite (impressions_occurrences ts _ Hts), Hu0.
    change (occurrences "<Impression>" wrapper_head) with 0%nat.
    change (occurrences "<Impression>" wrapper_mid) with 0%nat.
    change (occurrences "<Impression>" wrapper_tail) with 0%nat.
    lia.
Qed.

Lemma wrapURI_trackers_witness :
  wrapURI (Some "http://x/vast.xml") (OneTracker "http://t/1") =
  wrapURI (Some "http://x/vast.xml") (TrackerList ["http://t/1"]) /\
  occurrences "<Impression>"
    (wrapURI (Some "http://x/vast.xml") (TrackerList ["http://t/1"; ""; "http://t/3"])) =
  3%nat.
Proof.
  destruct wrapURI_trackers as (Hone & _ & Hcount).
  split.
  - apply Hone. discriminate.
  - apply (Hcount "http://x/vast.xml" ["http://t/1"; ""; "http://t/3"]).
    + reflexivity.
    + repeat constructor.
Defined.

(** ** RequestTranslator: optional fields *)

(** X21: the payload is always of type [xml]; it names bidder, request
    and auction exactly when [cache.vasttrack] is set; it carries the
    start of the bid's auction as [timestamp] exactly when the index
    knows the auction; it carries a [key] exactly when the bid's
    [customCacheKey] is a non-empty string, and then that string.  A bid
    with neither [vastXml] nor [vastUrl] is translated all the same: its
    value is the wrapper around the text [undefined]. *)
Theorem toStorageRequest_fields (StringToNumber : string -> number)
    (cfg : Config) (index : AuctionIndex) (bid : Bid) :
  let p := toStorageRequest StringToNumber cfg index bid in
  p_type p = "xml" /\
  (p_bidder p = (if cache_vasttrack cfg then Some (bidder bid) else None) /\
   p_bidid p = (if cache_vasttrack cfg then Some (requestId bid) else None) /\
   p_aid p = (if cache_vasttrack cfg then Some (auctionId bid) else None)) /\
  (forall ts, p_timestamp p = Some ts <->
              exists auction, index bid = Some auction /\ getAuctionStart auction = ts) /\
  (forall k, p_key p = Some k <-> customCacheKey bid = Some k /\ k <> "") /\
  (truthy_str (vastXml bid) = false -> vastUrl bid = None ->
   p_value p = wrapper_head +:+ "undefined" +:+ wrapper_mid +:+
               impressions (vastImpUrl bid) +:+ wrapper_tail).
Proof.
  intros p. split; [reflexivity|]. split; [repeat split|].
  split; [|split].
  - intros ts. unfold p; cbn [toStorageRequest p_timestamp].
    destruct (index bid) as [auction|]; cbn.
    + split; [intros [= <-]; eauto | intros (a & [= <-] & <-); reflexivity].
    + split; [discriminate | intros (a & Ha & _); discriminate].
  - intros k. unfold p; cbn [toStorageRequest p_key].
    destruct (customCacheKey bid) as [c|]; [|split; [discriminate | intros [? _]; discriminate]].
    destruct (String.eqb_spec c "") as [->|Hne].
    + split; [discriminate | intros [[= <-] Hk]; contradiction].
    + split; [intros [= <-]; auto | intros [[= <-] _]; reflexivity].
  - intros Hxml Hurl. unfold p; cbn [toStorageRequest p_value].
    unfold getVastValue, wrapURI. rewrite Hxml, Hurl. reflexivity.
Qed.

Lemma toStorageRequest_fields_witness :
  let bare := mkBid "b" "b" "a" "r" "x" None None NoTrackers (Some (PNum (Num 10)))
                    (Some "") None in
  p_value (toStorageRequest Sample.StringToNumber Sample.cfg (fun _ => None) bare) =
  wrapper_head +:+ "undefined" +:+ wrapper_mid +:+ impressions NoTrackers +:+ wrapper_tail.
Proof.
  intros bare.
  destruct (toStorageRequest_fields Sample.StringToNumber Sample.cfg (fun _ => None) bare)
    as (_ & _ & _ & _ & H).
  apply H; reflexivity.
Defined.

(** ** Batcher and StoreOrchestrator together *)

Lemma issue_calls_effect (StringToNumber : string -> number) (cfg : Config)
    (index : AuctionIndex) (flushed : list (list BatchEntry)) :
  forall w,
    heap (issue_calls StringToNumber cfg index flushed w) = heap w /\
    vastsLocalCache (issue_calls StringToNumber cfg index flushed w) = vastsLocalCache w /\
    trace (issue_calls StringToNumber cfg index flushed w) =
    trace w ++ ((fun batch => EvAjax (cache_url cfg)
                                (payloads StringToNumber cfg index w batch))
                  <$> flushed).
Proof.
  unfold issue_calls.
  induction flushed as [|batch flushed IH]; intros w; cbn [foldl fmap list_fmap].
  - rewrite app_nil_r. auto.
  - destruct (IH (storeBatch StringToNumber cfg index batch w)) as (Hh & Hc & Ht).
    rewrite Hh, Hc, Ht. split; [reflexivity|]. split; [reflexivity|].
    unfold storeBatch, store, payloads; cbn [emit trace heap].
    rewrite <- app_assoc, <- list_fmap_compose. reflexivity.
Qed.

(** X22: the flush of a debounce window, with [storeBatch] as the store
    function.  For a finite batch size [k > 0] and a delay [t > 0], the
    [N] bids submitted in the window cause, when the timer fires,
    exactly [ceil (N / K)] [ajax] calls to [cache.url] and nothing else,
    [K] the least integer above or equal to [k]; no call carries more
    than [K] payloads, and the payloads of all the calls, in order, are
    the payloads of the submitted bids, in submission order.  Bids and
    local map are not touched by the requests. *)
Theorem window_requests (StringToNumber : string -> number) (cfg : Config)
    (index : AuctionIndex) (m : ModuleVars) (x t : number) (q : Q)
    (entries : list BatchEntry) (w : World) :
  batchSize m = Some x -> finite_value x = Some q -> (0 < q)%Q ->
  batchTimeout m = Some t -> gt0 t = true ->
  let K := Qceiling q in
  exists s' (requests : list (list StoragePayload)),
    run m ((Submit <$> entries) ++ [TimerFires]) batchingCache = Some s' /\
    let w' := issue_calls StringToNumber cfg index (calls s') w in
    trace w' = trace w ++ (EvAjax (cache_url cfg) <$> requests) /\
    Z.of_nat (List.length requests) = ceil_div (Z.of_nat (List.length entries)) K /\
    Forall (fun puts => Z.of_nat (List.length puts) <= K) requests /\
    mjoin requests = payloads StringToNumber cfg index w entries /\
    heap w' = heap w /\ vastsLocalCache w' = vastsLocalCache w.
Proof.
  intros Hsize Hq Hpos Htimeout Ht K.
  pose proof (Qceiling_pos q Hpos) as HK. fold K in HK.
  assert (Hge : forall n, ge_js n (batchSize m) = bool_decide (K <= Z.of_nat n)).
  { intros n. rewrite Hsize. apply ge_js_ceiling. exact Hq. }
  destruct (run_flush m K Hge HK t Htimeout Ht entries)
    as (flushed & _ & Hrun & Hcount & Hbound & Hjoin & _).
  exists (mkBatcher [[]] false [] flushed), (payloads StringToNumber cfg index w <$> flushed).
  split; [exact Hrun|]. cbn [calls].
  destruct (issue_calls_effect StringToNumber cfg index flushed w) as (Hh & Hc & Htr).
  split; [rewrite Htr, <- list_fmap_compose; reflexivity|].
  split; [rewrite length_fmap; exact Hcount|].
  split.
  { apply Forall_fmap. eapply list.Forall_impl; [exact Hbound|].
    intros b Hb. cbn. unfold payloads. rewrite length_fmap. exact Hb. }
  split; [|auto].
  rewrite <- Hjoin. unfold payloads. clear.
  induction flushed as [|b flushed IH]; [reflexivity|].
  cbn [fmap list_fmap mjoin list_join]. rewrite fmap_app. f_equal. exact IH.
Qed.

Lemma window_requests_witness :
  (exists s' (requests : list (list StoragePayload)),
      run SampleBatch.vars ((Submit <$> SampleBatch.entries5) ++ [TimerFires])
        batchingCache = Some s' /\
      trace (issue_calls Sample.StringToNumber Sample.cfg (fun _ => None) (calls s')
               Sample.world0) =
        trace Sample.world0 ++ (EvAjax (cache_url Sample.cfg) <$> requests) /\
      Z.of_nat (List.length requests) = ceil_div 5 2 /\
      mjoin requests =
        payloads Sample.StringToNumber Sample.cfg (fun _ => None) Sample.world0
          SampleBatch.entries5) /\
  (exists s' (requests : list (list StoragePayload)),
      run SampleBatch.fractional ((Submit <$> SampleBatch.entries5) ++ [TimerFires])
        batchingCache = Some s' /\
      trace (issue_calls Sample.StringToNumber Sample.cfg (fun _ => None) (calls s')
               Sample.world0) =
        trace Sample.world0 ++ (EvAjax (cache_url Sample.cfg) <$> requests) /\
      Z.of_nat (List.length requests) = ceil_div 5 3).
Proof.
  split.
  - destruct (window_requests Sample.StringToNumber Sample.cfg (fun _ => None)
                SampleBatch.vars (Num 2) (Num 20) _
                SampleBatch.entries5 Sample.world0 eq_refl eq_refl eq_refl eq_refl eq_refl)
      as (s' & requests & Hrun & Htr & Hn & _ & Hj & _).
    exists s', requests. auto.
  - destruct (window_requests Sample.StringToNumber Sample.cfg (fun _ => None)
                SampleBatch.fractional (dyadic 5 (-1)) (Num 20) _
                SampleBatch.entries5 Sample.world0 eq_refl eq_refl eq_refl eq_refl eq_refl)
      as (s' & requests & Hrun & Htr & Hn & _).
    exists s', requests. auto.
Defined.
